(** * Apple Containers extension: the CLI gateway and the tree providers

    A shallow embedding of [cli.ts] (class [ContainerCli]) and of the four
    tree data providers ([containersProvider.ts], [imagesProvider.ts],
    [volumesProvider.ts], [networksProvider.ts]), with the properties of the
    gateway, the response normaliser and the refresh cache.

    Conventions of the embedding.
    - A JavaScript string is a [string]: the sequence of its UTF-16 code
      units, for strings whose code units are all below 256.
    - A JavaScript number is a [Z]: the integral numbers (ports, sizes,
      intervals).
    - A value decoded from JSON is a [value]; the TypeScript casts
      ([x as string]) are erased at run time, so every field read from a
      decoded record stays a [value].
    - A [TypeError] raised by the code is the [Throw] outcome of [result].
    - An [async] method is cut at its [await]: the part that runs before the
      subprocess is launched and the part that runs when it has settled.
    - What the language leaves to its implementation (the value of
      [Math.log], the order of [localeCompare], the calls [sort] makes of
      its comparator) is an [Engine], over which the statements are
      quantified; the examples run on a sample engine. *)

From Stdlib Require Import ZArith List Bool Lia.
From Stdlib Require Import Strings.String Strings.Ascii.
From Stdlib Require Import Numbers.DecimalString.
Import ListNotations.

Set Warnings "-register-all".
Open Scope string_scope.
Open Scope Z_scope.

(* ===================================================================== *)
(** ** The JavaScript fragment the code relies on *)
(* ===================================================================== *)

Module JS.

(** Values as [JSON.parse] builds them, and [undefined]. An object is the
    list of its own properties; a key is looked up from the head. *)
Inductive value : Type :=
| VUndefined
| VNull
| VBool (b : bool)
| VNum (n : Z)
| VStr (s : string)
| VArr (items : list value)
| VObj (fields : list (string * value)).

Inductive exn : Type :=
| TypeError
| Unmodelled.

Inductive result (A : Type) : Type :=
| Ok (a : A)
| Throw (e : exn).
Arguments Ok {A} a.
Arguments Throw {A} e.

Definition bind {A B} (r : result A) (k : A -> result B) : result B :=
  match r with
  | Ok a => k a
  | Throw e => Throw e
  end.

Fixpoint mapM {A B} (f : A -> result B) (l : list A) : result (list B) :=
  match l with
  | [] => Ok []
  | x :: l' =>
      bind (f x) (fun y => bind (mapM f l') (fun ys => Ok (y :: ys)))
  end.

(** ToBoolean. *)
Definition truthy (v : value) : bool :=
  match v with
  | VUndefined | VNull => false
  | VBool b => b
  | VNum n => negb (n =? 0)
  | VStr s => negb (s =? "")%string
  | VArr _ | VObj _ => true
  end.

(** [a || b]. *)
Definition or_else (a b : value) : value :=
  if truthy a then a else b.

Fixpoint assoc (k : string) (fields : list (string * value)) : value :=
  match fields with
  | [] => VUndefined
  | (k', v) :: rest => if (k =? k')%string then v else assoc k rest
  end.

(** [v.k] for the data property names read by the parsers and by the tree
    items: none of them is a property of a primitive or of an array, and
    reading a property of [undefined] or [null] throws. *)
Definition get (v : value) (k : string) : result value :=
  match v with
  | VUndefined | VNull => Throw TypeError
  | VObj fields => Ok (assoc k fields)
  | _ => Ok VUndefined
  end.

(** *** Strings *)

Definition code (c : ascii) : Z := Z.of_nat (nat_of_ascii c).

(** [String.prototype.toLowerCase] on code units below 256: A-Z and the
    Latin-1 capitals other than the multiplication sign. *)
Definition lower_char (c : ascii) : ascii :=
  let n := code c in
  if ((65 <=? n) && (n <=? 90)) || ((192 <=? n) && (n <=? 222) && negb (n =? 215))
  then ascii_of_nat (Z.to_nat (n + 32))
  else c.

Fixpoint toLowerCase (s : string) : string :=
  match s with
  | EmptyString => EmptyString
  | String c s' => String (lower_char c) (toLowerCase s')
  end.

(** White space and line terminators below 256: TAB, LF, VT, FF, CR, SP,
    NBSP. *)
Definition is_space (c : ascii) : bool :=
  let n := code c in
  ((9 <=? n) && (n <=? 13)) || (n =? 32) || (n =? 160).

Fixpoint trimStart (s : string) : string :=
  match s with
  | EmptyString => EmptyString
  | String c s' => if is_space c then trimStart s' else s
  end.

Fixpoint trimEnd (s : string) : string :=
  match s with
  | EmptyString => EmptyString
  | String c s' =>
      match trimEnd s' with
      | EmptyString => if is_space c then EmptyString else String c EmptyString
      | t => String c t
      end
  end.

Definition trim (s : string) : string := trimEnd (trimStart s).

Definition len (s : string) : Z := Z.of_nat (String.length s).

Definition startsWith (s p : string) : bool := String.prefix p s.

(** [s.lastIndexOf(needle)]: the greatest index at which [needle] occurs,
    [-1] when it does not occur. [i] is the index of the head of [s]. *)
Fixpoint lastIndexOf_from (needle s : string) (i : Z) : Z :=
  match s with
  | EmptyString => if (needle =? "")%string then i else -1
  | String _ s' =>
      let r := lastIndexOf_from needle s' (i + 1) in
      if 0 <=? r then r
      else if String.prefix needle s then i else -1
  end.

Definition lastIndexOf (s needle : string) : Z := lastIndexOf_from needle s 0.

(** [s.substring(start, end)]: both ends clamped to [0, length], swapped
    when out of order. *)
Definition clamp (s : string) (i : Z) : Z := Z.max 0 (Z.min i (len s)).

Definition substring (s : string) (i j : Z) : string :=
  let a := Z.min (clamp s i) (clamp s j) in
  let b := Z.max (clamp s i) (clamp s j) in
  String.substring (Z.to_nat a) (Z.to_nat (b - a)) s.

(** [s.substring(start)]. *)
Definition substring_from (s : string) (i : Z) : string :=
  substring s i (len s).

(** [Array.prototype.join]. *)
Fixpoint join (sep : string) (l : list string) : string :=
  match l with
  | [] => ""
  | [x] => x
  | x :: rest => x ++ sep ++ join sep rest
  end.

(** [xs.push(y1, ..., yn)]. *)
Definition push {A} (xs ys : list A) : list A := List.app xs ys.

(** [Number.prototype.toString] on an integral number. *)
Definition num_toString (n : Z) : string :=
  NilZero.string_of_int (Z.to_int n).

End JS.
Import JS.

Declare Scope js_scope.
Notation "x <- c ;; k" := (bind c (fun x => k))
  (at level 61, c at next level, right associativity) : js_scope.
Open Scope js_scope.

(** *** What the language leaves to the engine

    ECMAScript does not fix the value of [Math.log] (it is approximated,
    and the quotient of two logarithms is rounded once more), nor the order
    [String.prototype.localeCompare] puts strings in, nor the calls of the
    comparator that [Array.prototype.sort] makes. The code is run against
    an engine that provides them:
    - [Math_floor_log1024 x] is [Math.floor(Math.log(x) / Math.log(1024))]
      for a number [x] above zero;
    - [localeCompare s v] is [s.localeCompare(v)], which converts [v] to a
      string;
    - [Array_sort compare l] is [l.sort(compare)] on an array that holds
      [l]: the sorted elements, or what the first call of [compare] that
      throws has thrown, the array being then left as it was (the elements
      are sorted in a list of their own and written back at the end). *)
Record Engine : Type := {
  Math_floor_log1024 : Z -> Z;
  localeCompare : string -> value -> Z;
  Array_sort : forall A : Type, (A -> A -> result Z) -> list A -> result (list A)
}.
Arguments Array_sort e {A} compare l.

(* ===================================================================== *)
(** ** types.ts *)
(* ===================================================================== *)

Inductive ContainerStatus : Type :=
| Running | Stopped | Created | Paused | Exited | Unknown.

Record PortMapping : Type := {
  hostIp : value;
  hostPort : value;
  containerPort : value;
  protocol : value
}.

Record Container : Type := {
  id : value;
  name : value;
  image : value;
  status : ContainerStatus;
  created : string;
  ports : option (list PortMapping);
  labels : value
}.

Record Image : Type := {
  image_id : value;
  repository : string;
  tag : string;
  digest : value;
  size : string;
  sizeBytes : value;
  image_created : string;
  image_labels : value
}.

Record CliResult : Type := {
  success : bool;
  data : option value;
  error : option string;
  exitCode : Z
}.

Record ExtensionConfig : Type := {
  containerPath : string;
  refreshInterval : Z;
  showStoppedContainers : bool;
  defaultShell : string;
  confirmBeforeDelete : bool
}.

(** The entries of [RunContainerOptions.ports], [.volumes] and [.mounts]. *)
Module Port.
Record t : Type := {
  host : Z;
  container : Z;
  hostIp : option string;
  protocol : option string
}.
End Port.

Module Vol.
Record t : Type := {
  source : string;
  target : string;
  readonly : option bool
}.
End Vol.

Module Mount.
Record t : Type := {
  type : string;
  source : string;
  target : string;
  readonly : option bool
}.
End Mount.

(** [RunContainerOptions]: an optional field is [None] when absent; a
    [Record<string, string>] is the list of its entries in the order of
    [Object.entries]. *)
Module RunContainerOptions.
Record t : Type := {
  image : string;
  name : option string;
  detach : option bool;
  interactive : option bool;
  tty : option bool;
  remove : option bool;
  env : option (list (string * string));
  envFile : option string;
  ports : option (list Port.t);
  volumes : option (list Vol.t);
  mounts : option (list Mount.t);
  network : option string;
  workdir : option string;
  user : option string;
  cpus : option Z;
  memory : option string;
  entrypoint : option string;
  cmd : option (list string);
  platform : option string;
  labels : option (list (string * string));
  dns : option (list string);
  dnsSearch : option (list string);
  rosetta : option bool;
  ssh : option bool
}.
End RunContainerOptions.

(** Truthiness of an optional field, by its TypeScript type. *)
Definition given_str (o : option string) : bool :=
  match o with
  | Some s => negb (s =? "")%string
  | None => false
  end.

Definition given_flag (o : option bool) : bool :=
  match o with
  | Some b => b
  | None => false
  end.

Definition given_num (o : option Z) : bool :=
  match o with
  | Some n => negb (n =? 0)
  | None => false
  end.

(* ===================================================================== *)
(** ** cli.ts: the execution gateway *)
(* ===================================================================== *)

(** What [execFile] is asked to run. *)
Record Invocation : Type := {
  file : string;
  argv : list string;
  maxBuffer : Z;
  timeout : Z
}.

(** How the promise of [execFileAsync] settles: resolved with the two
    output streams, or rejected with an error that carries a message and,
    possibly, an exit code and the captured stderr. *)
Inductive ExecOutcome : Type :=
| Resolved (stdout stderr : string)
| Rejected (message : string) (code : option Z) (stderr : option string).

(** [execute], up to the [await]: the line written to the output channel
    and the subprocess launched. *)
Definition execute_begin (config : ExtensionConfig) (args : list string)
  : list string * Invocation :=
  let cliPath := containerPath config in
  (["[CMD] " ++ cliPath ++ " " ++ join " " args],
   {| file := cliPath;
      argv := args;
      maxBuffer := 10 * 1024 * 1024;
      timeout := 60000 |}).

Section Gateway.

(** [JSON.parse]: [None] when it throws a [SyntaxError]. *)
Variable JSON_parse : string -> option value.

(** [execute], from the [await] on: the lines written to the output
    channel and the result returned. *)
Definition execute_end (parseJson : bool) (o : ExecOutcome)
  : list string * CliResult :=
  match o with
  | Resolved stdout stderr =>
      let log := if negb (stderr =? "")%string
                 then ["[STDERR] " ++ stderr] else [] in
      if parseJson && negb (trim stdout =? "")%string then
        match JSON_parse stdout with
        | Some d =>
            (log, {| success := true; data := Some d;
                     error := None; exitCode := 0 |})
        | None =>
            (push log ["[JSON ERROR] Failed to parse: " ++ stdout],
             {| success := false; data := None;
                error := Some "Failed to parse JSON output"; exitCode := 0 |})
        end
      else
        (log, {| success := true; data := Some (VStr stdout);
                 error := None; exitCode := 0 |})
  | Rejected message code stderr =>
      let errorMessage := if given_str stderr
                          then match stderr with Some s => s | None => message end
                          else message in
      ([ "[ERROR] " ++ errorMessage ],
       {| success := false; data := None;
          error := Some errorMessage;
          exitCode := if given_num code
                      then match code with Some c => c | None => 1 end
                      else 1 |})
  end.

End Gateway.

(** [result.success && result.data]. *)
Definition has_data (r : CliResult) : bool :=
  success r && match data r with Some d => truthy d | None => false end.

(** [Array.isArray(result.data) ? result.data : []]. *)
Definition rawData (r : CliResult) : list value :=
  match data r with
  | Some (VArr items) => items
  | _ => []
  end.

(* ===================================================================== *)
(** ** cli.ts: container operations *)
(* ===================================================================== *)

(** [v.toLowerCase()] and [v.map(f)] on a truthy value: a [TypeError]
    unless [v] is a string, respectively an array. *)
Definition call_toLowerCase (v : value) : result string :=
  match v with
  | VStr s => Ok (toLowerCase s)
  | _ => Throw TypeError
  end.

Definition call_map {B} (v : value) (f : value -> result B) : result (list B) :=
  match v with
  | VArr items => mapM f items
  | _ => Throw TypeError
  end.

Definition parsePort (p : value) : result PortMapping :=
  hostAddress <- get p "hostAddress" ;;
  hostPort_ <- get p "hostPort" ;;
  containerPort_ <- get p "containerPort" ;;
  proto <- get p "proto" ;;
  Ok {| hostIp := or_else hostAddress VUndefined;
        hostPort := hostPort_;
        containerPort := containerPort_;
        protocol := or_else proto (VStr "tcp") |}.

(** The [switch] of [parseRawContainer] on the lower-cased status. *)
Definition normalizeStatus (rawStatus : string) : ContainerStatus :=
  if (rawStatus =? "running")%string then Running
  else if (rawStatus =? "stopped")%string then Stopped
  else if (rawStatus =? "exited")%string then Stopped
  else if (rawStatus =? "created")%string then Created
  else if (rawStatus =? "paused")%string then Paused
  else Unknown.

(** The status of [parseRawContainer], from [raw.status]. *)
Definition statusOf (raw_status : value) : result ContainerStatus :=
  rawStatus <- call_toLowerCase (or_else raw_status (VStr "")) ;;
  Ok (normalizeStatus rawStatus).

Definition parseRawContainer (raw : value) : result Container :=
  configuration <- get raw "configuration" ;;
  let config := or_else configuration (VObj []) in
  config_image <- get config "image" ;;
  let imageInfo := or_else config_image (VObj []) in
  config_ports <- get config "publishedPorts" ;;
  let publishedPorts := or_else config_ports (VArr []) in
  ports_ <- call_map publishedPorts parsePort ;;
  raw_status <- get raw "status" ;;
  status_ <- statusOf raw_status ;;
  config_id <- get config "id" ;;
  reference <- get imageInfo "reference" ;;
  config_labels <- get config "labels" ;;
  Ok {| id := or_else config_id (VStr "");
        name := or_else config_id (VStr "");
        image := or_else reference (VStr "unknown");
        status := status_;
        created := "";
        ports := if 0 <? Z.of_nat (List.length ports_) then Some ports_ else None;
        labels := or_else config_labels VUndefined |}.

(** [listContainers]: the argument vector handed to [execute], and the part
    that runs on the result of [execute]. *)
Definition listContainers_args (all : bool) : list string :=
  let args := ["list"; "--format"; "json"] in
  let args := if all then push args ["--all"] else args in
  args.

Definition listContainers_end (r : CliResult) : result (list Container) :=
  if has_data r then mapM parseRawContainer (rawData r) else Ok [].

(** [runContainer]: the argument vector handed to [execute]. *)
Definition portSpec (port : Port.t) : string :=
  let portSpec := "" in
  let portSpec :=
    match Port.hostIp port with
    | Some ip => if given_str (Some ip) then portSpec ++ ip ++ ":" else portSpec
    | None => portSpec
    end in
  let portSpec :=
    portSpec ++ num_toString (Port.host port) ++ ":"
             ++ num_toString (Port.container port) in
  match Port.protocol port with
  | Some proto =>
      if given_str (Some proto) && negb (proto =? "tcp")%string
      then portSpec ++ "/" ++ proto else portSpec
  | None => portSpec
  end.

Definition volSpec (vol : Vol.t) : string :=
  let volSpec := Vol.source vol ++ ":" ++ Vol.target vol in
  if given_flag (Vol.readonly vol) then volSpec ++ ":ro" else volSpec.

Definition mountSpec (mount : Mount.t) : string :=
  let mountSpec := "type=" ++ Mount.type mount ++ ",source=" ++ Mount.source mount
                   ++ ",target=" ++ Mount.target mount in
  if given_flag (Mount.readonly mount) then mountSpec ++ ",readonly" else mountSpec.

(** [if (field) args.push(flag, field)] for an optional string. *)
Definition push_str (args : list string) (flag : string) (o : option string)
  : list string :=
  match o with
  | Some s => if given_str (Some s) then push args [flag; s] else args
  | None => args
  end.

(** [if (field) args.push(flag)] for an optional boolean. *)
Definition push_flag (args : list string) (flag : string) (o : option bool)
  : list string :=
  if given_flag o then push args [flag] else args.

(** [if (field) for (const x of field) args.push(flag, spec(x))]. *)
Definition push_each {A} (args : list string) (flag : string)
  (spec : A -> string) (o : option (list A)) : list string :=
  match o with
  | Some l => fold_left (fun args x => push args [flag; spec x]) l args
  | None => args
  end.

Definition keyValue (e : string * string) : string := fst e ++ "=" ++ snd e.

Definition runContainer_args (options : RunContainerOptions.t) : list string :=
  let args := ["run"] in
  let args := push_str args "--name" (RunContainerOptions.name options) in
  let args := push_flag args "--detach" (RunContainerOptions.detach options) in
  let args := push_flag args "--rm" (RunContainerOptions.remove options) in
  let args := push_flag args "--interactive" (RunContainerOptions.interactive options) in
  let args := push_flag args "--tty" (RunContainerOptions.tty options) in
  let args := push_each args "--env" keyValue (RunContainerOptions.env options) in
  let args := push_str args "--env-file" (RunContainerOptions.envFile options) in
  let args := push_each args "--publish" portSpec (RunContainerOptions.ports options) in
  let args := push_each args "--volume" volSpec (RunContainerOptions.volumes options) in
  let args := push_each args "--mount" mountSpec (RunContainerOptions.mounts options) in
  let args := push_str args "--network" (RunContainerOptions.network options) in
  let args := push_str args "--workdir" (RunContainerOptions.workdir options) in
  let args := push_str args "--user" (RunContainerOptions.user options) in
  let args :=
    match RunContainerOptions.cpus options with
    | Some n => if given_num (Some n) then push args ["--cpus"; num_toString n] else args
    | None => args
    end in
  let args := push_str args "--memory" (RunContainerOptions.memory options) in
  let args := push_str args "--platform" (RunContainerOptions.platform options) in
  let args := push_str args "--entrypoint" (RunContainerOptions.entrypoint options) in
  let args := push_each args "--label" keyValue (RunContainerOptions.labels options) in
  let args := push_each args "--dns" (fun s => s) (RunContainerOptions.dns options) in
  let args := push_each args "--dns-search" (fun s => s) (RunContainerOptions.dnsSearch options) in
  let args := push_flag args "--rosetta" (RunContainerOptions.rosetta options) in
  let args := push_flag args "--ssh" (RunContainerOptions.ssh options) in
  let args := push args [RunContainerOptions.image options] in
  let args :=
    match RunContainerOptions.cmd options with
    | Some c => push args c
    | None => args
    end in
  args.

(* ===================================================================== *)
(** ** cli.ts: image operations *)
(* ===================================================================== *)

Definition units : list string := ["B"; "KiB"; "MiB"; "GiB"; "TiB"].

(** [x.toFixed(1)] for the quotient [x = num / den] of two positive
    integers: the integer [n] with [n / 10] closest to [x], the larger one
    on a tie, printed with one decimal. *)
Definition toFixed1 (num den : Z) : string :=
  let n := (20 * num + den) / (2 * den) in
  num_toString (n / 10) ++ "." ++ num_toString (n mod 10).

(** [formatSize]. The index of the unit is the one the engine computes. Of
    a negative number the logarithm is [NaN], which prints as such and
    indexes nothing; an index outside [units] reads [undefined];
    [Math.pow(1024, i)] is a power of two, taken at its exact value, and
    for a negative index a fraction, by which the division multiplies. *)
Definition formatSize (js : Engine) (bytes : Z) : string :=
  if bytes =? 0 then "0 B"
  else if bytes <? 0 then "NaN undefined"
  else
    let i := Math_floor_log1024 js bytes in
    (if i <? 0 then toFixed1 (bytes * 1024 ^ (- i)) 1 else toFixed1 bytes (1024 ^ i))
      ++ " "
      ++ (if i <? 0 then "undefined"
          else match nth_error units (Z.to_nat i) with
               | Some u => u
               | None => "undefined"
               end).

(** The reference of [parseRawImage] cut into repository and tag. *)
Definition splitReference (reference : string) : string * string :=
  let repository_ := reference in
  let tag_ := "latest" in
  let lastColon := lastIndexOf reference ":" in
  let lastSlash := lastIndexOf reference "/" in
  if lastSlash <? lastColon
  then (substring reference 0 lastColon,
        substring_from reference (lastColon + 1))
  else (repository_, tag_).

(** The registry prefix of [parseRawImage] taken off the repository. *)
Definition simplifyRepository (repository_ : string) : string :=
  if startsWith repository_ "docker.io/library/"
  then substring_from repository_ (len "docker.io/library/")
  else if startsWith repository_ "docker.io/"
  then substring_from repository_ (len "docker.io/")
  else repository_.

(** [parseRawImage]. A reference that is truthy and not a string has no
    [substring] or no [startsWith]: a [TypeError]. A size that is truthy and
    not a number would be coerced by [Math.log], which is not modelled. *)
Definition parseRawImage (js : Engine) (raw : value) : result Image :=
  raw_reference <- get raw "reference" ;;
  raw_descriptor <- get raw "descriptor" ;;
  let descriptor := or_else raw_descriptor (VObj []) in
  match or_else raw_reference (VStr "") with
  | VStr reference =>
      let '(repository_, tag_) := splitReference reference in
      let repository_ := simplifyRepository repository_ in
      descriptor_digest <- get descriptor "digest" ;;
      descriptor_size <- get descriptor "size" ;;
      match or_else descriptor_size (VNum 0) with
      | VNum bytes =>
          Ok {| image_id := or_else descriptor_digest (VStr "");
                repository := repository_;
                tag := tag_;
                digest := or_else descriptor_digest VUndefined;
                size := formatSize js bytes;
                sizeBytes := VNum bytes;
                image_created := "";
                image_labels := VUndefined |}
      | _ => Throw Unmodelled
      end
  | _ => Throw TypeError
  end.

Definition listImages_args : list string := ["image"; "list"; "--format"; "json"].

Definition listImages_end (js : Engine) (r : CliResult) : result (list Image) :=
  if has_data r then mapM (parseRawImage js) (rawData r) else Ok [].

(* ===================================================================== *)
(** ** cli.ts: volume and network operations *)
(* ===================================================================== *)

Definition listVolumes_args : list string := ["volume"; "list"; "--format"; "json"].

Definition listVolumes_end (r : CliResult) : result (list value) :=
  if has_data r then Ok (rawData r) else Ok [].

Definition listNetworks_args : list string := ["network"; "list"; "--format"; "json"].

Definition listNetworks_end (r : CliResult) : result (list value) :=
  if has_data r then Ok (rawData r) else Ok [].

(* ===================================================================== *)
(** ** The tree data providers *)
(* ===================================================================== *)

Inductive ResourceKind : Type :=
| Containers | Images | Volumes | Networks.

(** What a provider caches: [Container[]], [Image[]], and for volumes and
    networks the decoded records as they come. *)
Definition Item (k : ResourceKind) : Type :=
  match k with
  | Containers => Container
  | Images => Image
  | Volumes => value
  | Networks => value
  end.

(** A call of [refresh] suspended at its [await]: the subprocess it
    launched, and whether it was made by [getChildren], which then goes on
    once it has settled. *)
Record Pending : Type := {
  launched : Invocation;
  reader : bool
}.

(** The fields of a provider ([_initialLoadDone] exists in
    [ContainersProvider] only and is left alone by the other kinds),
    together with what is observable from outside: the refreshes in flight,
    the number of change notifications fired, and whether the emitter has
    been disposed of. [_refreshTimer] holds the period of the running
    interval timer. *)
Record Provider (k : ResourceKind) : Type := {
  _items : list (Item k);
  _refreshTimer : option Z;
  _initialLoadDone : bool;
  inflight : list Pending;
  fired : nat;
  emitter_disposed : bool
}.
Arguments _items {k} p.
Arguments _refreshTimer {k} p.
Arguments _initialLoadDone {k} p.
Arguments inflight {k} p.
Arguments fired {k} p.
Arguments emitter_disposed {k} p.

Definition set_items {k} (p : Provider k) (l : list (Item k)) : Provider k :=
  {| _items := l; _refreshTimer := _refreshTimer p;
     _initialLoadDone := _initialLoadDone p; inflight := inflight p;
     fired := fired p; emitter_disposed := emitter_disposed p |}.

Definition set_refreshTimer {k} (p : Provider k) (t : option Z) : Provider k :=
  {| _items := _items p; _refreshTimer := t;
     _initialLoadDone := _initialLoadDone p; inflight := inflight p;
     fired := fired p; emitter_disposed := emitter_disposed p |}.

Definition set_initialLoadDone {k} (p : Provider k) (b : bool) : Provider k :=
  {| _items := _items p; _refreshTimer := _refreshTimer p;
     _initialLoadDone := b; inflight := inflight p;
     fired := fired p; emitter_disposed := emitter_disposed p |}.

Definition set_inflight {k} (p : Provider k) (l : list Pending) : Provider k :=
  {| _items := _items p; _refreshTimer := _refreshTimer p;
     _initialLoadDone := _initialLoadDone p; inflight := l;
     fired := fired p; emitter_disposed := emitter_disposed p |}.

(** [this._onDidChangeTreeData.fire()]. *)
Definition fire {k} (p : Provider k) : Provider k :=
  {| _items := _items p; _refreshTimer := _refreshTimer p;
     _initialLoadDone := _initialLoadDone p; inflight := inflight p;
     fired := if emitter_disposed p then fired p else S (fired p);
     emitter_disposed := emitter_disposed p |}.

(** The list operation of [ContainerCli] a provider of kind [k] awaits. *)
Definition list_args (k : ResourceKind) (config : ExtensionConfig) : list string :=
  match k with
  | Containers => listContainers_args (showStoppedContainers config)
  | Images => listImages_args
  | Volumes => listVolumes_args
  | Networks => listNetworks_args
  end.

Definition list_end (js : Engine) (k : ResourceKind)
  : CliResult -> result (list (Item k)) :=
  match k with
  | Containers => listContainers_end
  | Images => listImages_end js
  | Volumes => listVolumes_end
  | Networks => listNetworks_end
  end.

(** The test of [getChildren] that decides whether to refresh first. *)
Definition needs_refresh {k} (p : Provider k) : bool :=
  match k with
  | Containers => negb (_initialLoadDone p)
  | _ => Z.of_nat (List.length (_items p)) =? 0
  end.

Definition remove_nth {A} (n : nat) (l : list A) : list A :=
  (firstn n l ++ skipn (S n) l)%list.

(** *** The tree items

    What the constructors of the items compute, as far as it can throw. An
    item is identified with the record it wraps. *)

(** [ImageItem]: the label computed by the constructor, and [fullName].
    [image.tag || 'latest'] on a string, [image.id.substring(0, 12)] on
    whatever the id is. *)
Definition tag_or_latest (i : Image) : string :=
  if (tag i =? "")%string then "latest" else tag i.

Definition ImageItem_displayName (i : Image) : result string :=
  if negb (repository i =? "<none>")%string
  then Ok (repository i ++ ":" ++ tag_or_latest i)
  else match image_id i with
       | VStr s => Ok (substring s 0 12)
       | _ => Throw TypeError
       end.

Definition ImageItem_fullName (i : Image) : value :=
  if negb (repository i =? "<none>")%string
  then VStr (repository i ++ ":" ++ tag_or_latest i)
  else image_id i.

(** [createTooltip] of [ImageItem]: the name once more, the fields put into
    template strings, and [image.digest.substring(0, 20)] when there is a
    digest. *)
Definition ImageItem_createTooltip (i : Image) : result unit :=
  shown <- ImageItem_displayName i ;;
  if truthy (digest i)
  then match digest i with
       | VStr _ => Ok tt
       | _ => Throw TypeError
       end
  else Ok tt.

Definition new_ImageItem (i : Image) : result Image :=
  displayName <- ImageItem_displayName i ;;
  tooltip <- ImageItem_createTooltip i ;;
  Ok i.

(** [ContainerItem]: the label [container.name || container.id], the
    description and the tooltip put fields of the parsed container and of
    its parsed ports into template strings; none of it throws. *)
Definition new_ContainerItem (c : Container) : result Container := Ok c.

(** [VolumeItem]: [volume.name] is read first, of whatever the record is;
    the tooltip reads further fields of it and lists the keys of
    [volume.labels] when that is truthy. *)
Definition new_VolumeItem (volume : value) : result value :=
  label <- get volume "name" ;;
  Ok volume.

(** [createTooltip] of [NetworkItem], where it can throw: with
    [network.ipam?.config] truthy and of a [length] above zero, the loop
    [for (const config of network.ipam.config)] reads [config.subnet] and
    [config.gateway] of every element. A string is iterated by its
    characters; an object that is no array is not iterable. A [length]
    that is a string or an object would be converted by the comparison. *)
Definition NetworkItem_createTooltip (network : value) : result unit :=
  ipam <- get network "ipam" ;;
  match ipam with
  | VUndefined | VNull => Ok tt
  | _ =>
      config <- get ipam "config" ;;
      if truthy config
      then match config with
           | VArr items =>
               if 0 <? Z.of_nat (List.length items)
               then read <- mapM (fun c =>
                                    subnet <- get c "subnet" ;;
                                    gateway <- get c "gateway" ;;
                                    Ok tt) items ;;
                    Ok tt
               else Ok tt
           | VObj fields =>
               match assoc "length" fields with
               | VNum n => if 0 <? n then Throw TypeError else Ok tt
               | VBool b => if b then Throw TypeError else Ok tt
               | VUndefined | VNull => Ok tt
               | _ => Throw Unmodelled
               end
           | _ => Ok tt
           end
      else Ok tt
  end.

Definition new_NetworkItem (network : value) : result value :=
  label <- get network "name" ;;
  tooltip <- NetworkItem_createTooltip network ;;
  Ok network.

Definition new_Item (k : ResourceKind) : Item k -> result (Item k) :=
  match k with
  | Containers => new_ContainerItem
  | Images => new_ImageItem
  | Volumes => new_VolumeItem
  | Networks => new_NetworkItem
  end.

(** *** The comparators of [getChildren] *)

(** [s || d] on a string. *)
Definition str_or (s d : string) : string :=
  if (s =? "")%string then d else s.

(** [x.localeCompare(arg)] on whatever [x] is. *)
Definition call_localeCompare (js : Engine) (x arg : value) : result Z :=
  match x with
  | VStr s => Ok (localeCompare js s arg)
  | _ => Throw TypeError
  end.

(** The comparator of the images: by repository, then by tag. *)
Definition compareImages (js : Engine) (a b : Image) : result Z :=
  let repoA := str_or (repository a) "" in
  let repoB := str_or (repository b) "" in
  if negb (repoA =? repoB)%string
  then Ok (localeCompare js repoA (VStr repoB))
  else Ok (localeCompare js (str_or (tag a) "") (VStr (str_or (tag b) ""))).

(** The comparator of the volumes and of the networks:
    [a.name.localeCompare(b.name)] on the records as they came. *)
Definition compareNames (js : Engine) (a b : value) : result Z :=
  a_name <- get a "name" ;;
  b_name <- get b "name" ;;
  call_localeCompare js a_name b_name.

Section Providers.

Variable JSON_parse : string -> option value.
Variable js : Engine.

(** [startAutoRefresh]. *)
Definition startAutoRefresh {k} (config : ExtensionConfig) (p : Provider k)
  : Provider k :=
  let interval := refreshInterval config in
  if 0 <? interval then set_refreshTimer p (Some interval) else p.

(** [stopAutoRefresh]. *)
Definition stopAutoRefresh {k} (p : Provider k) : Provider k :=
  match _refreshTimer p with
  | Some _ => set_refreshTimer p None
  | None => p
  end.

(** The constructor. *)
Definition new_Provider (k : ResourceKind) (config : ExtensionConfig) : Provider k :=
  startAutoRefresh config
    {| _items := []; _refreshTimer := None; _initialLoadDone := false;
       inflight := []; fired := 0%nat; emitter_disposed := false |}.

(** [refresh], up to the [await] of the list operation: the subprocess is
    launched, whatever is already in flight. *)
Definition refresh_begin {k} (config : ExtensionConfig) (by_reader : bool)
  (p : Provider k) : Provider k :=
  let inv := snd (execute_begin config (list_args k config)) in
  set_inflight p (push (inflight p) [{| launched := inv; reader := by_reader |}]).

(** The tail of [getChildren]: the cached list is sorted in place, for
    every kind but the containers, and an item is built of each entry. A
    comparator or a constructor that throws rejects the read. *)
Definition sort_then_map {k} (compare : Item k -> Item k -> result Z)
  (p : Provider k) : Provider k * result (list (Item k)) :=
  match Array_sort js compare (_items p) with
  | Throw e => (p, Throw e)
  | Ok l => (set_items p l, mapM (new_Item k) l)
  end.

Definition getChildren_return {k} (p : Provider k)
  : Provider k * result (list (Item k)) :=
  match k return Provider k -> Provider k * result (list (Item k)) with
  | Containers => fun p => (p, mapM (new_Item Containers) (_items p))
  | Images => sort_then_map (k := Images) (compareImages js)
  | Volumes => sort_then_map (k := Volumes) (compareNames js)
  | Networks => sort_then_map (k := Networks) (compareNames js)
  end p.

(** [refresh], from the [await] on, for the [n]-th call in flight, whose
    subprocess settles as [o]. A list operation that throws rejects the
    call and leaves the fields as they were. When the call was made by
    [getChildren], that one goes on and returns. *)
Definition refresh_end {k} (n : nat) (o : ExecOutcome) (p : Provider k)
  : Provider k * result (option (list (Item k))) :=
  match nth_error (inflight p) n with
  | None => (p, Ok None)
  | Some call =>
      let p := set_inflight p (remove_nth n (inflight p)) in
      match list_end js k (snd (execute_end JSON_parse true o)) with
      | Throw e => (p, Throw e)
      | Ok l =>
          let p := set_items p l in
          let p := match k with
                   | Containers => set_initialLoadDone p true
                   | _ => p
                   end in
          let p := fire p in
          if reader call
          then let '(p, items) := getChildren_return p in
               (p, (l <- items ;; Ok (Some l)))
          else (p, Ok None)
      end
  end.

(** The callback of the interval timer; it runs only while the timer does. *)
Definition tick {k} (config : ExtensionConfig) (p : Provider k) : Provider k :=
  match _refreshTimer p with
  | Some _ => refresh_begin config false p
  | None => p
  end.

(** [getChildren()] at the root: it returns at once with the list, or
    suspends on a refresh. *)
Definition getChildren {k} (config : ExtensionConfig) (p : Provider k)
  : Provider k * result (option (list (Item k))) :=
  if needs_refresh p
  then (refresh_begin config true p, Ok None)
  else let '(p, items) := getChildren_return p in
       (p, (l <- items ;; Ok (Some l))).

(** [dispose]. *)
Definition dispose {k} (p : Provider k) : Provider k :=
  let p := stopAutoRefresh p in
  {| _items := _items p; _refreshTimer := _refreshTimer p;
     _initialLoadDone := _initialLoadDone p; inflight := inflight p;
     fired := fired p; emitter_disposed := true |}.

End Providers.

(* ===================================================================== *)
(** ** extension.ts: the wrapper, the four providers, and what happens *)
(* ===================================================================== *)

(** The settings under [appleContainers] in the workspace configuration;
    a setting that is not set is [None]. *)
Record Settings : Type := {
  s_containerPath : option string;
  s_refreshInterval : option Z;
  s_showStoppedContainers : option bool;
  s_defaultShell : option string;
  s_confirmBeforeDelete : option bool
}.

Definition config_get {A} (o : option A) (default : A) : A :=
  match o with
  | Some a => a
  | None => default
  end.

(** [loadConfig]. *)
Definition loadConfig (s : Settings) : ExtensionConfig :=
  {| containerPath := config_get (s_containerPath s) "container";
     refreshInterval := config_get (s_refreshInterval s) 5000;
     showStoppedContainers := config_get (s_showStoppedContainers s) true;
     defaultShell := config_get (s_defaultShell s) "/bin/sh";
     confirmBeforeDelete := config_get (s_confirmBeforeDelete s) true |}.

(** The objects [activate] creates: the wrapper, of which [_config] is the
    only field that changes, and the providers. *)
Record Extension : Type := {
  _config : ExtensionConfig;
  containersProvider : Provider Containers;
  imagesProvider : Provider Images;
  volumesProvider : Provider Volumes;
  networksProvider : Provider Networks
}.

Definition provider (e : Extension) (k : ResourceKind) : Provider k :=
  match k with
  | Containers => containersProvider e
  | Images => imagesProvider e
  | Volumes => volumesProvider e
  | Networks => networksProvider e
  end.

Definition set_provider (e : Extension) (k : ResourceKind) : Provider k -> Extension :=
  match k with
  | Containers => fun p =>
      {| _config := _config e; containersProvider := p;
         imagesProvider := imagesProvider e; volumesProvider := volumesProvider e;
         networksProvider := networksProvider e |}
  | Images => fun p =>
      {| _config := _config e; containersProvider := containersProvider e;
         imagesProvider := p; volumesProvider := volumesProvider e;
         networksProvider := networksProvider e |}
  | Volumes => fun p =>
      {| _config := _config e; containersProvider := containersProvider e;
         imagesProvider := imagesProvider e; volumesProvider := p;
         networksProvider := networksProvider e |}
  | Networks => fun p =>
      {| _config := _config e; containersProvider := containersProvider e;
         imagesProvider := imagesProvider e; volumesProvider := volumesProvider e;
         networksProvider := p |}
  end.

(** The part of [activate] that builds the wrapper and the providers. *)
Definition activate (s : Settings) : Extension :=
  let config := loadConfig s in
  {| _config := config;
     containersProvider := new_Provider Containers config;
     imagesProvider := new_Provider Images config;
     volumesProvider := new_Provider Volumes config;
     networksProvider := new_Provider Networks config |}.

(** The listener the constructor of [ContainerCli] registers with
    [onDidChangeConfiguration]; it is the only one in the extension. *)
Definition onDidChangeConfiguration (affectsConfiguration : bool) (s : Settings)
  (e : Extension) : Extension :=
  if affectsConfiguration
  then {| _config := loadConfig s;
          containersProvider := containersProvider e;
          imagesProvider := imagesProvider e;
          volumesProvider := volumesProvider e;
          networksProvider := networksProvider e |}
  else e.

(** What can happen to an activated extension: a timer fires, a command
    calls [refresh], the tree view calls [getChildren], a subprocess
    settles, the settings change, the extension is disposed of. *)
Inductive Event : Type :=
| TimerFired (k : ResourceKind)
| RefreshCalled (k : ResourceKind)
| ChildrenRead (k : ResourceKind)
| Settled (k : ResourceKind) (n : nat) (o : ExecOutcome)
| ConfigurationChanged (affectsConfiguration : bool) (s : Settings)
| Disposed.

Section Run.

Variable JSON_parse : string -> option value.
Variable js : Engine.

Definition step (e : Extension) (ev : Event) : Extension :=
  match ev with
  | TimerFired k => set_provider e k (tick (_config e) (provider e k))
  | RefreshCalled k =>
      set_provider e k (refresh_begin (_config e) false (provider e k))
  | ChildrenRead k =>
      set_provider e k (fst (getChildren js (_config e) (provider e k)))
  | Settled k n o =>
      set_provider e k (fst (refresh_end JSON_parse js n o (provider e k)))
  | ConfigurationChanged affects s => onDidChangeConfiguration affects s e
  | Disposed =>
      {| _config := _config e;
         containersProvider := dispose (containersProvider e);
         imagesProvider := dispose (imagesProvider e);
         volumesProvider := dispose (volumesProvider e);
         networksProvider := dispose (networksProvider e) |}
  end.

Definition run (e : Extension) (trace : list Event) : Extension :=
  fold_left step trace e.

End Run.

Definition is_Disposed (ev : Event) : bool :=
  match ev with
  | Disposed => true
  | _ => false
  end.

(* ===================================================================== *)
(** ** cli.ts: the other operations *)
(* ===================================================================== *)

Module CreateVolumeOptions.
Record t : Type := {
  name : string;
  driver : option string;
  labels : option (list (string * string));
  options : option (list (string * string))
}.
End CreateVolumeOptions.

Module CreateNetworkOptions.
Record t : Type := {
  name : string;
  driver : option string;
  subnet : option string;
  gateway : option string;
  internal : option bool;
  labels : option (list (string * string))
}.
End CreateNetworkOptions.

Module BuildImageOptions.
Record t : Type := {
  context : string;
  dockerfile : option string;
  tag : option string;
  tags : option (list string);
  buildArgs : option (list (string * string));
  target : option string;
  platform : option string;
  noCache : option bool;
  pull : option bool;
  labels : option (list (string * string))
}.
End BuildImageOptions.

Module PullImageOptions.
Record t : Type := {
  image : string;
  platform : option string;
  allTags : option bool
}.
End PullImageOptions.

(** What [vscode.window.createTerminal] is asked to open. *)
Module Terminal.
Record t : Type := {
  name : string;
  shellPath : string;
  shellArgs : list string
}.
End Terminal.

(** [isAvailable] and [getVersion]: the argument vector, and the part that
    runs on the settled subprocess. Neither asks for JSON. *)
Definition version_args : list string := ["--version"].

Section Gateway_users.

Variable JSON_parse : string -> option value.

Definition isAvailable_end (o : ExecOutcome) : bool :=
  success (snd (execute_end JSON_parse false o)).

(** [v.trim()] on a truthy value. *)
Definition call_trim (v : value) : result string :=
  match v with
  | VStr s => Ok (trim s)
  | _ => Throw TypeError
  end.

Definition getVersion_end (o : ExecOutcome) : result (option string) :=
  let r := snd (execute_end JSON_parse false o) in
  if has_data r
  then match data r with
       | Some d => s <- call_trim d ;; Ok (Some s)
       | None => Ok None
       end
  else Ok None.

End Gateway_users.

(** The container operations that hand a fixed vector to [execute]. *)
Definition inspectContainer_args (id : string) : list string :=
  ["inspect"; "--format"; "json"; id].

Definition startContainer_args (id : string) : list string := ["start"; id].

(** [stopContainer]: the time is passed whenever it is not [undefined],
    zero included. *)
Definition stopContainer_args (id : string) (time : option Z) : list string :=
  let args := ["stop"] in
  let args := match time with
              | Some t => push args ["--time"; num_toString t]
              | None => args
              end in
  let args := push args [id] in
  args.

Definition killContainer_args (id : string) (signal : option string) : list string :=
  let args := ["kill"] in
  let args := push_str args "--signal" signal in
  let args := push args [id] in
  args.

Definition deleteContainer_args (id : string) (force : bool) : list string :=
  let args := ["delete"] in
  let args := if force then push args ["--force"] else args in
  let args := push args [id] in
  args.

Definition getStats_args (id : option string) : list string :=
  let args := ["stats"; "--format"; "json"; "--no-stream"] in
  match id with
  | Some i => if given_str (Some i) then push args [i] else args
  | None => args
  end.

(** [getStats], on the result of [execute]. *)
Definition getStats_end (r : CliResult) : list value :=
  if has_data r then rawData r else [].

(** [attachContainer] and [viewLogs]. *)
Definition attachContainer (config : ExtensionConfig) (id : string)
  (shell : option string) : Terminal.t :=
  let shellCmd := match shell with
                  | Some s => if given_str (Some s) then s else defaultShell config
                  | None => defaultShell config
                  end in
  {| Terminal.name := "Container: " ++ substring id 0 12;
     Terminal.shellPath := containerPath config;
     Terminal.shellArgs := ["exec"; "-it"; id; shellCmd] |}.

Definition viewLogs (config : ExtensionConfig) (id : string) (follow : bool)
  : Terminal.t :=
  let args := ["logs"] in
  let args := if follow then push args ["--follow"] else args in
  let args := push args [id] in
  {| Terminal.name := "Logs: " ++ substring id 0 12;
     Terminal.shellPath := containerPath config;
     Terminal.shellArgs := args |}.

(** The image operations. *)
Definition inspectImage_args (id : string) : list string :=
  ["image"; "inspect"; "--format"; "json"; id].

Definition pullImage (config : ExtensionConfig) (options : PullImageOptions.t)
  : Terminal.t :=
  let args := ["image"; "pull"] in
  let args := push_str args "--platform" (PullImageOptions.platform options) in
  let args := push args [PullImageOptions.image options] in
  {| Terminal.name := "Pull: " ++ PullImageOptions.image options;
     Terminal.shellPath := containerPath config;
     Terminal.shellArgs := args |}.

Definition deleteImage_args (id : string) (force : bool) : list string :=
  let args := ["image"; "delete"] in
  let args := if force then push args ["--force"] else args in
  let args := push args [id] in
  args.

Definition buildImage_args (options : BuildImageOptions.t) : list string :=
  let args := ["build"] in
  let args := push_str args "--file" (BuildImageOptions.dockerfile options) in
  let args := push_str args "--tag" (BuildImageOptions.tag options) in
  let args := push_each args "--tag" (fun s => s) (BuildImageOptions.tags options) in
  let args := push_each args "--build-arg" keyValue (BuildImageOptions.buildArgs options) in
  let args := push_str args "--target" (BuildImageOptions.target options) in
  let args := push_str args "--platform" (BuildImageOptions.platform options) in
  let args := push_flag args "--no-cache" (BuildImageOptions.noCache options) in
  let args := push_each args "--label" keyValue (BuildImageOptions.labels options) in
  let args := push args [BuildImageOptions.context options] in
  args.

Definition buildImage (config : ExtensionConfig) (options : BuildImageOptions.t)
  : Terminal.t :=
  {| Terminal.name :=
       "Build: " ++ (if given_str (BuildImageOptions.tag options)
                     then match BuildImageOptions.tag options with
                          | Some t => t
                          | None => "image"
                          end
                     else "image");
     Terminal.shellPath := containerPath config;
     Terminal.shellArgs := buildImage_args options |}.

Definition pruneImages_args (all : bool) : list string :=
  let args := ["image"; "prune"; "--force"] in
  let args := if all then push args ["--all"] else args in
  args.

(** The volume operations. *)
Definition inspectVolume_args (name : string) : list string :=
  ["volume"; "inspect"; "--format"; "json"; name].

Definition createVolume_args (options : CreateVolumeOptions.t) : list string :=
  let args := ["volume"; "create"] in
  let args := push_str args "--driver" (CreateVolumeOptions.driver options) in
  let args := push_each args "--label" keyValue (CreateVolumeOptions.labels options) in
  let args := push args [CreateVolumeOptions.name options] in
  args.

Definition deleteVolume_args (name : string) (force : bool) : list string :=
  let args := ["volume"; "delete"] in
  let args := if force then push args ["--force"] else args in
  let args := push args [name] in
  args.

Definition pruneVolumes_args : list string := ["volume"; "prune"; "--force"].

(** The network operations. *)
Definition inspectNetwork_args (id : string) : list string :=
  ["network"; "inspect"; "--format"; "json"; id].

Definition createNetwork_args (options : CreateNetworkOptions.t) : list string :=
  let args := ["network"; "create"] in
  let args := push_str args "--driver" (CreateNetworkOptions.driver options) in
  let args := push_str args "--subnet" (CreateNetworkOptions.subnet options) in
  let args := push_str args "--gateway" (CreateNetworkOptions.gateway options) in
  let args := push_flag args "--internal" (CreateNetworkOptions.internal options) in
  let args := push_each args "--label" keyValue (CreateNetworkOptions.labels options) in
  let args := push args [CreateNetworkOptions.name options] in
  args.

Definition deleteNetwork_args (id : string) : list string :=
  ["network"; "delete"; id].

(** The four [inspect] operations, on the result of [execute]:
    [result.success && result.data && result.data.length > 0] and then
    [result.data[0]]. The data is an array, or the text of a blank output;
    an object for data would have its own [length] compared to zero, which
    is not modelled. *)
Definition inspect_end (r : CliResult) : result value :=
  if has_data r
  then match data r with
       | Some (VArr items) =>
           Ok (if 0 <? Z.of_nat (List.length items)
               then match items with
                    | first :: _ => first
                    | [] => VUndefined
                    end
               else VUndefined)
       | Some (VStr s) =>
           Ok (if 0 <? len s
               then match s with
                    | String c _ => VStr (String c EmptyString)
                    | EmptyString => VUndefined
                    end
               else VUndefined)
       | Some (VObj _) => Throw Unmodelled
       | _ => Ok VUndefined
       end
  else Ok VUndefined.

(* ===================================================================== *)
(** ** The providers: lookups *)
(* ===================================================================== *)

(** [v === s] for a string [s]. *)
Definition strict_eq_str (v : value) (s : string) : bool :=
  match v with
  | VStr s' => (s' =? s)%string
  | _ => false
  end.

(** [Array.prototype.find] with a callback that may throw. *)
Fixpoint findM {A} (f : A -> result bool) (l : list A) : result (option A) :=
  match l with
  | [] => Ok None
  | x :: rest =>
      b <- f x ;;
      if b then Ok (Some x) else findM f rest
  end.

(** [getContainer], [getImage], [getVolume], [getNetwork]. *)
Definition getContainer (p : Provider Containers) (key : string) : option Container :=
  find (fun c => strict_eq_str (id c) key || strict_eq_str (name c) key) (_items p).

Definition getImage (p : Provider Images) (key : string) : option Image :=
  find (fun i => strict_eq_str (image_id i) key) (_items p).

Definition getVolume (p : Provider Volumes) (key : string) : result (option value) :=
  findM (fun v => n <- get v "name" ;; Ok (strict_eq_str n key))
        (_items p : list value).

Definition getNetwork (p : Provider Networks) (idOrName : string)
  : result (option value) :=
  findM (fun n =>
           n_id <- get n "id" ;;
           if strict_eq_str n_id idOrName then Ok true
           else (n_name <- get n "name" ;; Ok (strict_eq_str n_name idOrName)))
        (_items p : list value).

(* ===================================================================== *)
(** ** The command handlers *)
(* ===================================================================== *)

(** A handler, cut at each [await]: it asks the user for a text
    ([showInputBox], [showWarningMessage]) or for a pick ([showQuickPick]),
    it runs an operation of the wrapper, or it ends, with the message it
    shows and whether it calls [refresh] on its provider. *)
Inductive Notice : Type :=
| Info (message : string)
| Error (message : string)
| Nothing.

Inductive Script : Type :=
| Finish (notice : Notice) (refreshes : bool)
| Ask (question : string) (k : option string -> Script)
| Pick (k : option bool -> Script)
| Exec (args : list string) (parseJson : bool) (k : CliResult -> Script).

(** What a handler is answered: a text or a dismissal, a pick or a
    dismissal, the settling of the subprocess. *)
Inductive Input : Type :=
| Answer (a : option string)
| Picked (b : option bool)
| Settles (o : ExecOutcome).

Definition dquote : string := String (ascii_of_nat 34) EmptyString.

(** [${result.error}]. *)
Definition show_error (r : CliResult) : string :=
  match error r with
  | Some e => e
  | None => "undefined"
  end.

(** [item.container.name || containerId.substring(0, 12)]. *)
Definition short_label (name : option string) (containerId : string) : string :=
  match name with
  | Some n => if given_str (Some n) then n else substring containerId 0 12
  | None => substring containerId 0 12
  end.

(** The ending shared by the handlers: a message, and a refresh of the
    provider when the operation succeeded. *)
Definition conclude (done failed : string) (result : CliResult) : Script :=
  if success result
  then Finish (Info done) true
  else Finish (Error (failed ++ show_error result)) false.

(** containerCommands.ts. The id and the name are those of the selected
    item, [None] when there is none. *)
Definition startContainerCommand (containerId name : option string) : Script :=
  match containerId with
  | Some cid =>
      if given_str (Some cid)
      then Exec (startContainer_args cid) false
             (conclude ("Container started: " ++ short_label name cid)
                       "Failed to start container: ")
      else Finish (Error "No container selected") false
  | None => Finish (Error "No container selected") false
  end.

Definition stopContainerCommand (containerId name : option string) : Script :=
  match containerId with
  | Some cid =>
      if given_str (Some cid)
      then Exec (stopContainer_args cid None) false
             (conclude ("Container stopped: " ++ short_label name cid)
                       "Failed to stop container: ")
      else Finish (Error "No container selected") false
  | None => Finish (Error "No container selected") false
  end.

Definition restartContainerCommand (containerId name : option string) : Script :=
  match containerId with
  | Some cid =>
      if given_str (Some cid)
      then
        let after := conclude ("Container restarted: " ++ short_label name cid)
                              "Failed to restart container: " in
        Exec (stopContainer_args cid None) false
          (fun stopResult =>
             if negb (success stopResult) then after stopResult
             else Exec (startContainer_args cid) false after)
      else Finish (Error "No container selected") false
  | None => Finish (Error "No container selected") false
  end.

(** The confirmation of the delete handlers. *)
Definition confirmed (config : ExtensionConfig) (question : string)
  (go : Script) : Script :=
  if confirmBeforeDelete config
  then Ask question
         (fun confirm =>
            match confirm with
            | Some answer =>
                if negb (answer =? "Delete")%string
                then Finish Nothing false else go
            | None => Finish Nothing false
            end)
  else go.

Definition deleteContainerCommand (config : ExtensionConfig)
  (containerId name : option string) : Script :=
  match containerId with
  | Some cid =>
      if given_str (Some cid)
      then
        confirmed config
          ("Are you sure you want to delete container " ++ dquote
             ++ short_label name cid ++ dquote ++ "?")
          (Exec (deleteContainer_args cid true) false
             (conclude ("Container deleted: " ++ short_label name cid)
                       "Failed to delete container: "))
      else Finish (Error "No container selected") false
  | None => Finish (Error "No container selected") false
  end.

(** volumeCommands.ts and networkCommands.ts. *)
Definition is_alnum (c : ascii) : bool :=
  let n := code c in
  ((48 <=? n) && (n <=? 57)) || ((65 <=? n) && (n <=? 90))
  || ((97 <=? n) && (n <=? 122)).

Definition is_name_char (c : ascii) : bool :=
  let n := code c in
  is_alnum c || (n =? 95) || (n =? 46) || (n =? 45).

Fixpoint all_chars (f : ascii -> bool) (s : string) : bool :=
  match s with
  | EmptyString => true
  | String c s' => f c && all_chars f s'
  end.

(** The regular expression of the two validators: an alphanumeric, then
    alphanumerics, underscores, dots and dashes up to the end. *)
Definition name_pattern_test (value : string) : bool :=
  match value with
  | EmptyString => false
  | String c rest => is_alnum c && all_chars is_name_char rest
  end.

(** [validateInput] of the name boxes; [what] is Volume or Network. *)
Definition validateName (what : string) (value : string) : option string :=
  if (value =? "")%string || (len (trim value) =? 0)
  then Some (what ++ " name is required")
  else if negb (name_pattern_test value)
  then Some (what ++ " name must start with alphanumeric and contain only alphanumeric, _, ., or -")
  else None.

Definition volume_named (n : string) : CreateVolumeOptions.t :=
  {| CreateVolumeOptions.name := n;
     CreateVolumeOptions.driver := None;
     CreateVolumeOptions.labels := None;
     CreateVolumeOptions.options := None |}.

(** The handler of [createVolume], from the name the input box returned. *)
Definition createVolumeCommand : Script :=
  Ask "Enter volume name"
    (fun name =>
       match name with
       | Some n =>
           if given_str (Some n)
           then Exec (createVolume_args (volume_named (trim n))) false
                  (conclude ("Volume created: " ++ n) "Failed to create volume: ")
           else Finish Nothing false
       | None => Finish Nothing false
       end).

Definition deleteVolumeCommand (config : ExtensionConfig)
  (volumeName : option string) : Script :=
  match volumeName with
  | Some vn =>
      if given_str (Some vn)
      then
        confirmed config
          ("Are you sure you want to delete volume " ++ dquote ++ vn ++ dquote
             ++ "? This will remove all data in the volume.")
          (Exec (deleteVolume_args vn true) false
             (conclude ("Volume deleted: " ++ vn) "Failed to delete volume: "))
      else Finish (Error "No volume selected") false
  | None => Finish (Error "No volume selected") false
  end.

Definition pruneVolumesCommand : Script :=
  Ask "This will remove all volumes not referenced by any container. This cannot be undone. Continue?"
    (fun confirm =>
       match confirm with
       | Some answer =>
           if negb (answer =? "Prune")%string then Finish Nothing false
           else Exec pruneVolumes_args false
                  (conclude "Volumes pruned successfully" "Failed to prune volumes: ")
       | None => Finish Nothing false
       end).

(** [x?.trim() || undefined]. *)
Definition trimmed_or_undefined (x : option string) : option string :=
  match x with
  | Some s => if given_str (Some (trim s)) then Some (trim s) else None
  | None => None
  end.

(** The handler of [createNetwork]: the gateway is asked for only when a
    subnet was given. *)
Definition createNetworkCommand : Script :=
  Ask "Enter network name"
    (fun name =>
       match name with
       | Some n =>
           if given_str (Some n)
           then
             Ask "Enter subnet (optional, e.g., 172.20.0.0/16)"
               (fun subnet =>
                  let rest (gateway : option string) : Script :=
                    Pick (fun internalPick =>
                            match internalPick with
                            | None => Finish Nothing false
                            | Some internal_ =>
                                Exec (createNetwork_args
                                        {| CreateNetworkOptions.name := trim n;
                                           CreateNetworkOptions.driver := None;
                                           CreateNetworkOptions.subnet :=
                                             trimmed_or_undefined subnet;
                                           CreateNetworkOptions.gateway :=
                                             trimmed_or_undefined gateway;
                                           CreateNetworkOptions.internal :=
                                             Some internal_;
                                           CreateNetworkOptions.labels := None |})
                                  false
                                  (conclude ("Network created: " ++ n)
                                            "Failed to create network: ")
                            end) in
                  if given_str subnet
                  then Ask "Enter gateway (optional, e.g., 172.20.0.1)" rest
                  else rest None)
           else Finish Nothing false
       | None => Finish Nothing false
       end).

Definition deleteNetworkCommand (config : ExtensionConfig)
  (networkId : option string) (networkName : string) : Script :=
  match networkId with
  | Some nid =>
      if given_str (Some nid)
      then
        confirmed config
          ("Are you sure you want to delete network " ++ dquote ++ networkName
             ++ dquote ++ "?")
          (Exec (deleteNetwork_args nid) false
             (conclude ("Network deleted: " ++ networkName)
                       "Failed to delete network: "))
      else Finish (Error "No network selected") false
  | None => Finish (Error "No network selected") false
  end.

(** imageCommands.ts: the end of the build handler, from the folder, the
    Dockerfile found, the tag typed and the options picked (all [None] when
    the box or the pick was dismissed). *)
Definition some_value (picks : option (list string)) (v : string) : option bool :=
  match picks with
  | Some l => Some (existsb (String.eqb v) l)
  | None => None
  end.

Definition buildImageCommand (config : ExtensionConfig) (buildContext : string)
  (dockerfile : option string) (tag : option string)
  (optionItems : option (list string)) : option Terminal.t :=
  match tag with
  | Some t =>
      if given_str (Some t)
      then Some (buildImage config
                   {| BuildImageOptions.context := buildContext;
                      BuildImageOptions.dockerfile := dockerfile;
                      BuildImageOptions.tag := Some (trim t);
                      BuildImageOptions.tags := None;
                      BuildImageOptions.buildArgs := None;
                      BuildImageOptions.target := None;
                      BuildImageOptions.platform := None;
                      BuildImageOptions.noCache := some_value optionItems "noCache";
                      BuildImageOptions.pull := some_value optionItems "pull";
                      BuildImageOptions.labels := None |})
      else None
  | None => None
  end.

(** containerCommands.ts: the run handler, from the image typed (the box
    accepts no blank one), the name typed and the options picked. It
    builds the options, and either runs the container detached through the
    wrapper or opens a terminal on a vector of its own. *)
Definition runOptions (image : string) (name : option string)
  (options : option (list string)) : RunContainerOptions.t :=
  {| RunContainerOptions.image := trim image;
     RunContainerOptions.name := trimmed_or_undefined name;
     RunContainerOptions.detach := some_value options "detach";
     RunContainerOptions.interactive := some_value options "interactive";
     RunContainerOptions.tty := some_value options "interactive";
     RunContainerOptions.remove := some_value options "remove";
     RunContainerOptions.env := None;
     RunContainerOptions.envFile := None;
     RunContainerOptions.ports := None;
     RunContainerOptions.volumes := None;
     RunContainerOptions.mounts := None;
     RunContainerOptions.network := None;
     RunContainerOptions.workdir := None;
     RunContainerOptions.user := None;
     RunContainerOptions.cpus := None;
     RunContainerOptions.memory := None;
     RunContainerOptions.entrypoint := None;
     RunContainerOptions.cmd := None;
     RunContainerOptions.platform := None;
     RunContainerOptions.labels := None;
     RunContainerOptions.dns := None;
     RunContainerOptions.dnsSearch := None;
     RunContainerOptions.rosetta := some_value options "rosetta";
     RunContainerOptions.ssh := some_value options "ssh" |}.

Definition runContainerCommand (config : ExtensionConfig) (image : string)
  (name : option string) (options : option (list string))
  : list string + Terminal.t :=
  let runOptions := runOptions image name options in
  if given_flag (RunContainerOptions.detach runOptions)
  then inl (runContainer_args runOptions)
  else
    let args := ["run"] in
    let args := push_flag args "-it" (RunContainerOptions.interactive runOptions) in
    let args := push_flag args "--rm" (RunContainerOptions.remove runOptions) in
    let args := push_str args "--name" (RunContainerOptions.name runOptions) in
    let args := push_flag args "--ssh" (RunContainerOptions.ssh runOptions) in
    let args := push_flag args "--rosetta" (RunContainerOptions.rosetta runOptions) in
    let args := push args [image] in
    inr {| Terminal.name :=
             "Run: " ++ (if given_str name
                         then match name with Some n => n | None => image end
                         else image);
           Terminal.shellPath := containerPath config;
           Terminal.shellArgs := args |}.

(** A handler run against what it is answered: the argument vectors of the
    operations it ran, in order, and how it ended, if it did. *)
Section RunScript.

Variable JSON_parse : string -> option value.

Fixpoint run_script (inputs : list Input) (s : Script)
  : list (list string) * option (Notice * bool) :=
  match s with
  | Finish notice refreshes => ([], Some (notice, refreshes))
  | Ask _ k =>
      match inputs with
      | Answer a :: rest => run_script rest (k a)
      | _ => ([], None)
      end
  | Pick k =>
      match inputs with
      | Picked b :: rest => run_script rest (k b)
      | _ => ([], None)
      end
  | Exec args parseJson k =>
      match inputs with
      | Settles o :: rest =>
          let '(ran, ending) :=
            run_script rest (k (snd (execute_end JSON_parse parseJson o))) in
          (args :: ran, ending)
      | _ => ([args], None)
      end
  end.

End RunScript.

(* ===================================================================== *)
(** ** A decoder for the examples *)
(* ===================================================================== *)

(** [JSON.parse] is a parameter of the gateway. To run the code on concrete
    output, this module decodes a fragment of JSON: white space, the three
    literals, integers up to [2 ^ 53] in absolute value, strings without
    escapes, arrays and objects (of a key that occurs twice the last value
    is kept, at the place of the first). A text of the fragment decodes to
    what [JSON.parse] returns for it; any other text is refused. *)
Module JSONFragment.

Definition quote : string := String (ascii_of_nat 34) EmptyString.

Definition quoted (s : string) : string := quote ++ s ++ quote.

Definition is_ws (c : ascii) : bool :=
  let n := code c in (n =? 32) || (n =? 9) || (n =? 10) || (n =? 13).

Fixpoint skip_ws (s : string) : string :=
  match s with
  | EmptyString => EmptyString
  | String c s' => if is_ws c then skip_ws s' else s
  end.

Definition is_digit (c : ascii) : bool := (48 <=? code c) && (code c <=? 57).

Fixpoint digits (s : string) (acc : Z) : Z * string :=
  match s with
  | EmptyString => (acc, s)
  | String c s' =>
      if is_digit c then digits s' (10 * acc + (code c - 48)) else (acc, s)
  end.

Definition unsigned (s : string) : option (Z * string) :=
  match s with
  | EmptyString => None
  | String c s' =>
      if negb (is_digit c) then None
      else
        let '(n, rest) := if code c =? 48 then (0, s') else digits s 0 in
        let outside :=
          match rest with
          | EmptyString => false
          | String d _ => (code d =? 46) || (code d =? 101) || (code d =? 69)
          end in
        if outside || (2 ^ 53 <? n) then None else Some (n, rest)
  end.

Definition number (s : string) : option (value * string) :=
  match s with
  | EmptyString => None
  | String c s' =>
      if code c =? 45
      then match unsigned s' with
           | Some (n, rest) => Some (VNum (- n), rest)
           | None => None
           end
      else match unsigned s with
           | Some (n, rest) => Some (VNum n, rest)
           | None => None
           end
  end.

(** The characters of a string, up to the closing quote. *)
Fixpoint chars (s : string) : option (string * string) :=
  match s with
  | EmptyString => None
  | String c s' =>
      if code c =? 34 then Some (EmptyString, s')
      else if (code c =? 92) || (code c <? 32) then None
      else match chars s' with
           | Some (t, rest) => Some (String c t, rest)
           | None => None
           end
  end.

Fixpoint drop (n : nat) (s : string) : string :=
  match n, s with
  | S n', String _ s' => drop n' s'
  | _, _ => s
  end.

Definition literal (word : string) (v : value) (s : string)
  : option (value * string) :=
  if String.prefix word s then Some (v, drop (String.length word) s) else None.

Fixpoint set_field (k : string) (v : value) (fields : list (string * value))
  : list (string * value) :=
  match fields with
  | [] => [(k, v)]
  | (k', v') :: rest =>
      if (k =? k')%string then (k, v) :: rest else (k', v') :: set_field k v rest
  end.

Fixpoint element (fuel : nat) (s : string) : option (value * string) :=
  match fuel with
  | O => None
  | S fuel =>
      match skip_ws s with
      | EmptyString => None
      | String c s' as s0 =>
          let n := code c in
          if n =? 110 then literal "null" VNull s0
          else if n =? 116 then literal "true" (VBool true) s0
          else if n =? 102 then literal "false" (VBool false) s0
          else if n =? 34 then
            match chars s' with
            | Some (t, rest) => Some (VStr t, rest)
            | None => None
            end
          else if n =? 91 then
            match skip_ws s' with
            | EmptyString => None
            | String d rest =>
                if code d =? 93 then Some (VArr [], rest)
                else match elements fuel s' with
                     | Some (l, rest') => Some (VArr l, rest')
                     | None => None
                     end
            end
          else if n =? 123 then
            match skip_ws s' with
            | EmptyString => None
            | String d rest =>
                if code d =? 125 then Some (VObj [], rest)
                else match members fuel s' with
                     | Some (l, rest') =>
                         Some (VObj (fold_left (fun fs kv => set_field (fst kv) (snd kv) fs) l []),
                               rest')
                     | None => None
                     end
            end
          else number s0
      end
  end
with elements (fuel : nat) (s : string) : option (list value * string) :=
  match fuel with
  | O => None
  | S fuel =>
      match element fuel s with
      | None => None
      | Some (v, rest) =>
          match skip_ws rest with
          | EmptyString => None
          | String d rest' =>
              if code d =? 93 then Some ([v], rest')
              else if code d =? 44 then
                match elements fuel rest' with
                | Some (l, rest'') => Some (v :: l, rest'')
                | None => None
                end
              else None
          end
      end
  end
with members (fuel : nat) (s : string) : option (list (string * value) * string) :=
  match fuel with
  | O => None
  | S fuel =>
      match skip_ws s with
      | EmptyString => None
      | String q s1 =>
          if negb (code q =? 34) then None
          else
            match chars s1 with
            | None => None
            | Some (key, s2) =>
                match skip_ws s2 with
                | EmptyString => None
                | String colon s3 =>
                    if negb (code colon =? 58) then None
                    else
                      match element fuel s3 with
                      | None => None
                      | Some (v, rest) =>
                          match skip_ws rest with
                          | EmptyString => None
                          | String d rest' =>
                              if code d =? 125 then Some ([(key, v)], rest')
                              else if code d =? 44 then
                                match members fuel rest' with
                                | Some (l, rest'') => Some ((key, v) :: l, rest'')
                                | None => None
                                end
                              else None
                          end
                      end
                end
            end
      end
  end.

Definition parse (text : string) : option value :=
  match element (2 * String.length text + 2) text with
  | Some (v, rest) =>
      match skip_ws rest with
      | EmptyString => Some v
      | _ => None
      end
  | None => None
  end.

End JSONFragment.

(* ===================================================================== *)
(** ** An engine for the examples *)
(* ===================================================================== *)

(** To run the code on concrete input: the logarithm at its exact value,
    strings compared by their code units, and a stable insertion sort,
    which gives the order every engine gives when the comparator is an
    order and does not throw. *)
Module Sample.

(** ToString, for a decoded value. *)
Fixpoint ToString (v : value) : string :=
  match v with
  | VUndefined => "undefined"
  | VNull => "null"
  | VBool b => if b then "true" else "false"
  | VNum n => num_toString n
  | VStr s => s
  | VArr items =>
      join "," (map (fun x => match x with
                              | VUndefined | VNull => ""
                              | _ => ToString x
                              end) items)
  | VObj _ => "[object Object]"
  end.

Definition compare_units (s t : string) : Z :=
  match String.compare s t with
  | Lt => -1
  | Eq => 0
  | Gt => 1
  end.

Fixpoint insert {A} (compare : A -> A -> result Z) (x : A) (sorted : list A)
  : result (list A) :=
  match sorted with
  | [] => Ok [x]
  | y :: rest =>
      c <- compare x y ;;
      if c <=? 0 then Ok (x :: y :: rest)
      else (rest' <- insert compare x rest ;; Ok (y :: rest'))
  end.

Fixpoint sort {A} (compare : A -> A -> result Z) (l : list A) : result (list A) :=
  match l with
  | [] => Ok []
  | x :: rest => sorted <- sort compare rest ;; insert compare x sorted
  end.

Definition engine : Engine :=
  {| Math_floor_log1024 := fun x => Z.log2 x / 10;
     localeCompare := fun s v => compare_units s (ToString v);
     Array_sort := @sort |}.

(** The same engine, but for the three sizes below [2 ^ 50]: there the
    quotient of the logarithms rounds to 5 in double arithmetic. *)
Definition doubles : Engine :=
  {| Math_floor_log1024 :=
       fun x => if (2 ^ 50 - 3 <=? x) && (x <? 2 ^ 50) then 5 else Z.log2 x / 10;
     localeCompare := fun s v => compare_units s (ToString v);
     Array_sort := @sort |}.

End Sample.

(* ===================================================================== *)
(** ** Vocabulary of the statements *)
(* ===================================================================== *)

(** [raw?.k1?.k2 ...]: a read along a path that yields [undefined] where
    the code would throw. *)
Fixpoint path (v : value) (keys : list string) : value :=
  match keys with
  | [] => v
  | k :: rest =>
      match get v k with
      | Ok v' => path v' rest
      | Throw _ => VUndefined
      end
  end.

(** A status field the normaliser accepts: a string, or a falsy value
    (an absent field reads [undefined]). *)
Definition status_ok (v : value) : bool :=
  match or_else v (VStr "") with
  | VStr _ => true
  | _ => false
  end.

(** A [publishedPorts] field the parser accepts: falsy, or an array with
    no [null] in it. *)
Definition port_ok (p : value) : bool :=
  match p with
  | VUndefined | VNull => false
  | _ => true
  end.

Definition ports_ok (v : value) : bool :=
  match or_else v (VArr []) with
  | VArr items => forallb port_ok items
  | _ => false
  end.

(** [c] occurs in [s]. *)
Fixpoint occurs (c : ascii) (s : string) : bool :=
  match s with
  | EmptyString => false
  | String d s' => Ascii.eqb c d || occurs c s'
  end.

Abbreviation colon := (":"%char) (only parsing).
Abbreviation slash := ("/"%char) (only parsing).

(** The record [{ reference: r }] of an image list, and the repository and
    tag the parser gives it. *)
Definition image_record (r : string) : value := VObj [("reference", VStr r)].

Definition decomposition (js : Engine) (r : string) : option (string * string) :=
  match parseRawImage js (image_record r) with
  | Ok img => Some (repository img, tag img)
  | Throw _ => None
  end.

(** A run request with the image only. *)
Definition run_image_only (img : string) : RunContainerOptions.t :=
  {| RunContainerOptions.image := img;
     RunContainerOptions.name := None;
     RunContainerOptions.detach := None;
     RunContainerOptions.interactive := None;
     RunContainerOptions.tty := None;
     RunContainerOptions.remove := None;
     RunContainerOptions.env := None;
     RunContainerOptions.envFile := None;
     RunContainerOptions.ports := None;
     RunContainerOptions.volumes := None;
     RunContainerOptions.mounts := None;
     RunContainerOptions.network := None;
     RunContainerOptions.workdir := None;
     RunContainerOptions.user := None;
     RunContainerOptions.cpus := None;
     RunContainerOptions.memory := None;
     RunContainerOptions.entrypoint := None;
     RunContainerOptions.cmd := None;
     RunContainerOptions.platform := None;
     RunContainerOptions.labels := None;
     RunContainerOptions.dns := None;
     RunContainerOptions.dnsSearch := None;
     RunContainerOptions.rosetta := None;
     RunContainerOptions.ssh := None |}.

(** The run request of the example: the image, one port, one volume. *)
Definition run_example (img : string) : RunContainerOptions.t :=
  {| RunContainerOptions.image := img;
     RunContainerOptions.name := None;
     RunContainerOptions.detach := None;
     RunContainerOptions.interactive := None;
     RunContainerOptions.tty := None;
     RunContainerOptions.remove := None;
     RunContainerOptions.env := None;
     RunContainerOptions.envFile := None;
     RunContainerOptions.ports :=
       Some [ {| Port.host := 8080; Port.container := 80;
                 Port.hostIp := None; Port.protocol := None |} ];
     RunContainerOptions.volumes :=
       Some [ {| Vol.source := "/data"; Vol.target := "/app";
                 Vol.readonly := Some true |} ];
     RunContainerOptions.mounts := None;
     RunContainerOptions.network := None;
     RunContainerOptions.workdir := None;
     RunContainerOptions.user := None;
     RunContainerOptions.cpus := None;
     RunContainerOptions.memory := None;
     RunContainerOptions.entrypoint := None;
     RunContainerOptions.cmd := None;
     RunContainerOptions.platform := None;
     RunContainerOptions.labels := None;
     RunContainerOptions.dns := None;
     RunContainerOptions.dnsSearch := None;
     RunContainerOptions.rosetta := None;
     RunContainerOptions.ssh := None |}.

(** The tokens one optional field adds to the argument vector, by the type
    of the field. *)
Definition tokens_str (flag : string) (o : option string) : list string :=
  match o with
  | Some s => if (s =? "")%string then [] else [flag; s]
  | None => []
  end.

Definition tokens_flag (flag : string) (o : option bool) : list string :=
  match o with
  | Some true => [flag]
  | _ => []
  end.

Definition tokens_num (flag : string) (o : option Z) : list string :=
  match o with
  | Some n => if n =? 0 then [] else [flag; num_toString n]
  | None => []
  end.

Definition tokens_each {A} (flag : string) (spec : A -> string)
  (o : option (list A)) : list string :=
  match o with
  | Some l => flat_map (fun x => [flag; spec x]) l
  | None => []
  end.

Definition tokens_cmd (o : option (list string)) : list string :=
  match o with
  | Some l => l
  | None => []
  end.

(** What each field of a run request adds, in the order of the code. *)
Definition run_segments (o : RunContainerOptions.t) : list (list string) :=
  [ ["run"];
    tokens_str "--name" (RunContainerOptions.name o);
    tokens_flag "--detach" (RunContainerOptions.detach o);
    tokens_flag "--rm" (RunContainerOptions.remove o);
    tokens_flag "--interactive" (RunContainerOptions.interactive o);
    tokens_flag "--tty" (RunContainerOptions.tty o);
    tokens_each "--env" keyValue (RunContainerOptions.env o);
    tokens_str "--env-file" (RunContainerOptions.envFile o);
    tokens_each "--publish" portSpec (RunContainerOptions.ports o);
    tokens_each "--volume" volSpec (RunContainerOptions.volumes o);
    tokens_each "--mount" mountSpec (RunContainerOptions.mounts o);
    tokens_str "--network" (RunContainerOptions.network o);
    tokens_str "--workdir" (RunContainerOptions.workdir o);
    tokens_str "--user" (RunContainerOptions.user o);
    tokens_num "--cpus" (RunContainerOptions.cpus o);
    tokens_str "--memory" (RunContainerOptions.memory o);
    tokens_str "--platform" (RunContainerOptions.platform o);
    tokens_str "--entrypoint" (RunContainerOptions.entrypoint o);
    tokens_each "--label" keyValue (RunContainerOptions.labels o);
    tokens_each "--dns" (fun s => s) (RunContainerOptions.dns o);
    tokens_each "--dns-search" (fun s => s) (RunContainerOptions.dnsSearch o);
    tokens_flag "--rosetta" (RunContainerOptions.rosetta o);
    tokens_flag "--ssh" (RunContainerOptions.ssh o);
    [RunContainerOptions.image o];
    tokens_cmd (RunContainerOptions.cmd o) ].

(** The two results of the gateway on output it does not decode. *)
Definition parse_failure : CliResult :=
  {| success := false; data := None;
     error := Some "Failed to parse JSON output"; exitCode := 0 |}.

Definition raw_text (stdout : string) : CliResult :=
  {| success := true; data := Some (VStr stdout); error := None; exitCode := 0 |}.



(** [n] ticks of the timer in a row, none of the refreshes settling. *)
Definition ticks {k} (n : nat) (config : ExtensionConfig) (p : Provider k)
  : Provider k :=
  Nat.iter n (tick config) p.

(** The arguments of the subprocesses in flight. *)
Definition inflight_argv {k} (p : Provider k) : list (list string) :=
  map (fun call => argv (launched call)) (inflight p).

(** The output of a list of one running container named web. *)
Definition stdout_one_container : string :=
  "[{" ++ JSONFragment.quoted "status" ++ ":" ++ JSONFragment.quoted "running"
       ++ "," ++ JSONFragment.quoted "configuration" ++ ":{"
       ++ JSONFragment.quoted "id" ++ ":" ++ JSONFragment.quoted "web" ++ "}}]".

(** The output of a list of two containers, the second with the number 5
    for status. *)
Definition stdout_status_number : string :=
  "[{" ++ JSONFragment.quoted "status" ++ ":" ++ JSONFragment.quoted "running"
       ++ "},{" ++ JSONFragment.quoted "status" ++ ":5}]".

Definition container_web : Container :=
  {| id := VStr "web"; name := VStr "web"; image := VStr "unknown";
     status := Running; created := ""; ports := None; labels := VUndefined |}.

(** A provider just built whose first refresh, called by [activate], has
    settled with the output [[]]: it has been populated, with no entry. *)
Definition populated_empty (k : ResourceKind) (config : ExtensionConfig)
  : Provider k :=
  fst (refresh_end JSONFragment.parse Sample.engine 0
         (Resolved "[]" "")
         (refresh_begin config false (new_Provider k config))).

(** The timer a provider starts when it is built. *)
Definition timer_at_construction (config : ExtensionConfig) : option Z :=
  if 0 <? refreshInterval config then Some (refreshInterval config) else None.

(** An operation whose vector is fixed flags followed by its target. *)
Definition target_last (build : string -> list string) : Prop :=
  exists flags, forall target, build target = (flags ++ [target])%list.

(** The result of the last operation a handler ran, [last] when it ran
    none. *)
Fixpoint last_result (parse : string -> option value) (last : option CliResult)
  (inputs : list Input) (s : Script) : option CliResult :=
  match s with
  | Finish _ _ => last
  | Ask _ k =>
      match inputs with
      | Answer a :: rest => last_result parse last rest (k a)
      | _ => last
      end
  | Pick k =>
      match inputs with
      | Picked b :: rest => last_result parse last rest (k b)
      | _ => last
      end
  | Exec _ parseJson k =>
      match inputs with
      | Settles o :: rest =>
          let r := snd (execute_end parse parseJson o) in
          last_result parse (Some r) rest (k r)
      | _ => last
      end
  end.

(** A handler that refreshes its provider only at an end reached right
    after an operation that succeeded, with a message of success. *)
Inductive Guarded : option CliResult -> Script -> Prop :=
| Guarded_quiet (last : option CliResult) (notice : Notice) :
    Guarded last (Finish notice false)
| Guarded_refresh (r : CliResult) (message : string) :
    success r = true -> Guarded (Some r) (Finish (Info message) true)
| Guarded_Ask (last : option CliResult) (question : string)
    (k : option string -> Script) :
    (forall a, Guarded last (k a)) -> Guarded last (Ask question k)
| Guarded_Pick (last : option CliResult) (k : option bool -> Script) :
    (forall b, Guarded last (k b)) -> Guarded last (Pick k)
| Guarded_Exec (last : option CliResult) (args : list string)
    (parseJson : bool) (k : CliResult -> Script) :
    (forall r, Guarded (Some r) (k r)) -> Guarded last (Exec args parseJson k).

(** The handlers of the container, volume and network commands. *)
Definition handlers (config : ExtensionConfig) (target name : option string)
  (networkName : string) : list Script :=
  [ startContainerCommand target name;
    stopContainerCommand target name;
    restartContainerCommand target name;
    deleteContainerCommand config target name;
    createVolumeCommand;
    deleteVolumeCommand config target;
    pruneVolumesCommand;
    createNetworkCommand;
    deleteNetworkCommand config target networkName ].

(** A trace made of timer ticks only. *)
Definition only_ticks (trace : list Event) : bool :=
  forallb (fun ev => match ev with TimerFired _ => true | _ => false end) trace.

(** The three prefixes the parser may take off a repository. *)
Definition registry_prefix (p : string) : Prop :=
  p = "" \/ p = "docker.io/" \/ p = "docker.io/library/".

(** The number of occurrences of a token. *)
Definition count (t : string) (l : list string) : nat :=
  List.length (filter (String.eqb t) l).

(** The settings left at their defaults, the settings with a poll interval
    set, and the outcome of a subprocess that could not be spawned. *)
Definition settings_default : Settings :=
  {| s_containerPath := None; s_refreshInterval := None;
     s_showStoppedContainers := None; s_defaultShell := None;
     s_confirmBeforeDelete := None |}.

Definition settings_interval (ms : Z) : Settings :=
  {| s_containerPath := None; s_refreshInterval := Some ms;
     s_showStoppedContainers := None; s_defaultShell := None;
     s_confirmBeforeDelete := None |}.

Definition spawn_failure : ExecOutcome :=
  Rejected "spawn container ENOENT" None None.

(** No event of the trace disposes of the extension. *)
Definition no_dispose (trace : list Event) : bool :=
  forallb (fun ev => negb (is_Disposed ev)) trace.

(* ===================================================================== *)
(** ** Status normalisation and the parsed container *)
(* ===================================================================== *)

Lemma get_or_else_object (v d : value) (k : string) :
  truthy d = true -> exists w, get (or_else v d) k = Ok w.
Proof.
  intros Hd. unfold or_else.
  destruct (truthy v) eqn:Hv.
  - destruct v; simpl in Hv; try discriminate; simpl; eauto.
  - destruct d; simpl in Hd; try discriminate; simpl; eauto.
Qed.

Lemma statusOf_string (s : string) :
  statusOf (VStr s) = Ok (normalizeStatus (toLowerCase s)).
Proof.
  unfold statusOf, or_else. simpl.
  destruct s; reflexivity.
Qed.

Lemma statusOf_falsy (v : value) :
  truthy v = false -> statusOf v = Ok Unknown.
Proof.
  intros H. unfold statusOf, or_else. rewrite H. reflexivity.
Qed.

Lemma statusOf_ok (v : value) :
  status_ok v = true -> exists st, statusOf v = Ok st.
Proof.
  unfold status_ok, statusOf. destruct (or_else v (VStr "")); try discriminate.
  intros _. simpl. eauto.
Qed.

Lemma statusOf_throws (v : value) :
  status_ok v = false -> statusOf v = Throw TypeError.
Proof.
  unfold status_ok, statusOf.
  destruct (or_else v (VStr "")); try discriminate; reflexivity.
Qed.

Lemma parsePort_ok (p : value) :
  port_ok p = true -> exists m, parsePort p = Ok m.
Proof.
  destruct p; simpl; try discriminate; intros _; unfold parsePort; simpl; eauto.
Qed.

Lemma mapM_parsePort_ok (items : list value) :
  forallb port_ok items = true -> exists ms, mapM parsePort items = Ok ms.
Proof.
  induction items as [|p items IH]; simpl; intros H.
  - eauto.
  - apply andb_prop in H as [Hp Hitems].
    destruct (parsePort_ok p Hp) as [m ->].
    destruct (IH Hitems) as [ms ->].
    simpl. eauto.
Qed.

Lemma call_map_parsePort_ok (v : value) :
  ports_ok v = true -> exists ms, call_map (or_else v (VArr [])) parsePort = Ok ms.
Proof.
  unfold ports_ok. destruct (or_else v (VArr [])); try discriminate.
  simpl. apply mapM_parsePort_ok.
Qed.

(** The configuration object the parser reads, as a path read. *)
Lemma config_read (fields : list (string * value)) (k : string) :
  get (or_else (assoc "configuration" fields) (VObj [])) k
  = Ok (path (VObj fields) ["configuration"; k]).
Proof.
  unfold or_else. simpl.
  destruct (assoc "configuration" fields) as [| |b|n|s|l|fs]; simpl; try reflexivity.
  - destruct b; reflexivity.
  - destruct (n =? 0); reflexivity.
  - destruct (s =? "")%string; reflexivity.
Qed.

(** What the parser returns for a record, field by field. *)
Lemma parseRawContainer_record (fields : list (string * value)) (c : Container) :
  parseRawContainer (VObj fields) = Ok c ->
  id c = or_else (path (VObj fields) ["configuration"; "id"]) (VStr "") /\
  name c = or_else (path (VObj fields) ["configuration"; "id"]) (VStr "") /\
  statusOf (assoc "status" fields) = Ok (status c) /\
  created c = "".
Proof.
  unfold parseRawContainer.
  cbn [get bind].
  rewrite !config_read. cbn [bind].
  destruct (get_or_else_object
              (path (VObj fields) ["configuration"; "image"]) (VObj []) "reference"
              eq_refl) as [ref ->].
  destruct (call_map _ parsePort) as [ps|e]; cbn [bind]; [|discriminate].
  destruct (statusOf (assoc "status" fields)) as [st|e]; cbn [bind]; [|discriminate].
  intros H. injection H as <-. cbn. auto.
Qed.

Lemma parseRawContainer_returns (fields : list (string * value)) :
  status_ok (assoc "status" fields) = true ->
  ports_ok (path (VObj fields) ["configuration"; "publishedPorts"]) = true ->
  exists c, parseRawContainer (VObj fields) = Ok c.
Proof.
  intros Hs Hp.
  unfold parseRawContainer.
  cbn [get bind].
  rewrite !config_read. cbn [bind].
  destruct (get_or_else_object
              (path (VObj fields) ["configuration"; "image"]) (VObj []) "reference"
              eq_refl) as [ref ->].
  destruct (call_map_parsePort_ok _ Hp) as [ms ->].
  destruct (statusOf_ok _ Hs) as [st ->].
  cbn [bind]. eauto.
Qed.

Lemma parseRawContainer_status (fields : list (string * value)) (c : Container) :
  parseRawContainer (VObj fields) = Ok c ->
  statusOf (assoc "status" fields) = Ok (status c).
Proof.
  intros H. apply (parseRawContainer_record fields c H).
Qed.

(** C8, as the code has it. Status normalisation is total on the raw
    status strings and on the falsy values, an absent field among them: it
    lower-cases the string and maps running to Running, stopped and exited
    to Stopped, created to Created, paused to Paused, and anything else to
    Unknown. It fails on every other input: a status that is truthy and no
    string (a number, [true], an array, an object) has no [toLowerCase],
    and a [TypeError] is thrown. The parser, on a record whose ports are
    well formed, returns a container with the normalised status when the
    normalisation returns, and throws what it throws. *)
Theorem status_normalization_by_type :
  (forall s : string,
     exists st,
       statusOf (VStr s) = Ok st /\
       (toLowerCase s = "running" -> st = Running) /\
       (toLowerCase s = "stopped" \/ toLowerCase s = "exited" -> st = Stopped) /\
       (toLowerCase s = "created" -> st = Created) /\
       (toLowerCase s = "paused" -> st = Paused) /\
       (toLowerCase s <> "running" -> toLowerCase s <> "stopped" ->
        toLowerCase s <> "exited" -> toLowerCase s <> "created" ->
        toLowerCase s <> "paused" -> st = Unknown)) /\
  (forall v, truthy v = false -> statusOf v = Ok Unknown) /\
  (forall v, truthy v = true -> (forall s, v <> VStr s) ->
     statusOf v = Throw TypeError) /\
  (forall fields,
     ports_ok (path (VObj fields) ["configuration"; "publishedPorts"]) = true ->
     (forall st, statusOf (assoc "status" fields) = Ok st ->
        exists c, parseRawContainer (VObj fields) = Ok c /\ status c = st) /\
     (forall e, statusOf (assoc "status" fields) = Throw e ->
        parseRawContainer (VObj fields) = Throw e)).
Proof.
  split; [|split; [|split]].
  - intros s. exists (normalizeStatus (toLowerCase s)).
    split; [apply statusOf_string|].
    unfold normalizeStatus.
    repeat split.
    + intros ->. reflexivity.
    + intros [-> | ->]; reflexivity.
    + intros ->. reflexivity.
    + intros ->. reflexivity.
    + intros H1 H2 H3 H4 H5.
      apply String.eqb_neq in H1, H2, H3, H4, H5.
      rewrite H1, H2, H3, H4, H5. reflexivity.
  - apply statusOf_falsy.
  - intros v Hv Hs. apply statusOf_throws. unfold status_ok, or_else.
    rewrite Hv. destruct v; try reflexivity. destruct (Hs s eq_refl).
  - intros fields Hp.
    assert (E : parseRawContainer (VObj fields)
                = (st <- statusOf (assoc "status" fields) ;;
                   match parseRawContainer (VObj fields) with
                   | Ok c => Ok c
                   | Throw e => Throw e
                   end)).
    { unfold parseRawContainer at 1 2. cbn [get bind].
      rewrite !config_read. cbn [bind].
      destruct (get_or_else_object
                  (path (VObj fields) ["configuration"; "image"]) (VObj [])
                  "reference" eq_refl) as [ref ->].
      destruct (call_map_parsePort_ok _ Hp) as [ms ->]. cbn [bind].
      destruct (statusOf (assoc "status" fields)); reflexivity. }
    split.
    + intros st Hst.
      assert (Hok : status_ok (assoc "status" fields) = true).
      { destruct (status_ok (assoc "status" fields)) eqn:Eok; [reflexivity|].
        rewrite (statusOf_throws _ Eok) in Hst. discriminate. }
      destruct (parseRawContainer_returns fields Hok Hp) as [c Hc].
      exists c. split; [exact Hc|].
      pose proof (parseRawContainer_status fields c Hc) as Hs.
      congruence.
    + intros e He. rewrite E, He. reflexivity.
Qed.

(** The strings of the testable property; a record with the status
    RUNNING and a record with no status, through the parser. *)
Lemma status_normalization_by_type_witness :
  map (fun s => statusOf (VStr s))
      ["Running"; "RUNNING"; "exited"; "stopped"; "created"; "paused"; ""]
  = map Ok [Running; Running; Stopped; Stopped; Created; Paused; Unknown] /\
  (exists c,
     parseRawContainer (VObj [("status", VStr "RUNNING")]) = Ok c /\
     status c = Running) /\
  (exists c, parseRawContainer (VObj []) = Ok c /\ status c = Unknown).
Proof.
  destruct status_normalization_by_type as (H & Hfalsy & _ & Hparser).
  split; [|split].
  - destruct (H "Running") as [st1 [E1 [R1 _]]].
    destruct (H "RUNNING") as [st2 [E2 [R2 _]]].
    destruct (H "exited") as [st3 [E3 [_ [R3 _]]]].
    destruct (H "stopped") as [st4 [E4 [_ [R4 _]]]].
    destruct (H "created") as [st5 [E5 [_ [_ [R5 _]]]]].
    destruct (H "paused") as [st6 [E6 [_ [_ [_ [R6 _]]]]]].
    destruct (H "") as [st7 [E7 [_ [_ [_ [_ R7]]]]]].
    cbn [map]. rewrite E1, E2, E3, E4, E5, E6, E7.
    rewrite (R1 eq_refl), (R2 eq_refl), (R3 (or_intror eq_refl)),
      (R4 (or_introl eq_refl)), (R5 eq_refl), (R6 eq_refl).
    rewrite R7 by (simpl; discriminate).
    reflexivity.
  - destruct (H "RUNNING") as [st [E [R _]]].
    apply (proj1 (Hparser [("status", VStr "RUNNING")] eq_refl)).
    rewrite <- (R eq_refl). exact E.
  - apply (proj1 (Hparser [] eq_refl)).
    apply Hfalsy. reflexivity.
Defined.

(** A status that is the number 5, or [true]: the normalisation throws, the
    parser throws, and the list of two containers of which the second has
    that status is thrown away as a whole. *)
Lemma status_normalization_by_type_counterexample :
  statusOf (VNum 5) = Throw TypeError /\
  statusOf (VBool true) = Throw TypeError /\
  parseRawContainer
    (VObj [("status", VNum 5); ("configuration", VObj [("id", VStr "web")])])
  = Throw TypeError /\
  JSONFragment.parse stdout_status_number
  = Some (VArr [VObj [("status", VStr "running")]; VObj [("status", VNum 5)]]) /\
  listContainers_end
    (snd (execute_end JSONFragment.parse true (Resolved stdout_status_number "")))
  = Throw TypeError.
Proof.
  repeat split.
Qed.

(** C10. For every raw record, the parser returns a container as soon as
    the status is a string or absent and the published ports are an array
    or absent; and the container it returns has its name equal to its id,
    both read from [configuration.id] with the empty string as default, and
    an empty creation time. *)
Theorem container_name_is_id (fields : list (string * value)) :
  (status_ok (assoc "status" fields) = true ->
   ports_ok (path (VObj fields) ["configuration"; "publishedPorts"]) = true ->
   exists c, parseRawContainer (VObj fields) = Ok c) /\
  (forall c, parseRawContainer (VObj fields) = Ok c ->
     name c = id c /\
     id c = or_else (path (VObj fields) ["configuration"; "id"]) (VStr "") /\
     created c = "").
Proof.
  split.
  - apply parseRawContainer_returns.
  - intros c H.
    destruct (parseRawContainer_record fields c H) as (Hid & Hname & _ & Hcreated).
    rewrite Hname, Hid. auto.
Qed.

(** A running container named web, and a record with no configuration. *)
Lemma container_name_is_id_witness :
  (exists c,
     parseRawContainer
       (VObj [("status", VStr "running");
              ("configuration", VObj [("id", VStr "web")])]) = Ok c /\
     name c = VStr "web" /\ id c = VStr "web" /\ created c = "") /\
  (exists c,
     parseRawContainer (VObj [("status", VStr "running")]) = Ok c /\
     name c = VStr "" /\ id c = VStr "" /\ created c = "").
Proof.
  split.
  - destruct (container_name_is_id
                [("status", VStr "running");
                 ("configuration", VObj [("id", VStr "web")])]) as [Hret Hprop].
    destruct (Hret eq_refl eq_refl) as [c Hc].
    exists c. split; [exact Hc|].
    destruct (Hprop c Hc) as (Hn & Hi & Hcr).
    rewrite Hn, Hi. auto.
  - destruct (container_name_is_id [("status", VStr "running")]) as [Hret Hprop].
    destruct (Hret eq_refl eq_refl) as [c Hc].
    exists c. split; [exact Hc|].
    destruct (Hprop c Hc) as (Hn & Hi & Hcr).
    rewrite Hn, Hi. auto.
Defined.

(* ===================================================================== *)
(** ** Image reference decomposition *)
(* ===================================================================== *)

Section LastIndexOf.

Variable c : ascii.

Let needle : string := String c EmptyString.

Lemma prefix_char (s : string) :
  String.prefix needle s = match s with
                           | EmptyString => false
                           | String d _ => Ascii.eqb c d
                           end.
Proof.
  destruct s as [|d s]; simpl; [reflexivity|].
  destruct (ascii_dec c d) as [->|Hne].
  - rewrite Ascii.eqb_refl. destruct s; reflexivity.
  - symmetry. apply Ascii.eqb_neq. exact Hne.
Qed.

Lemma lastIndexOf_from_unfold (d : ascii) (s : string) (i : Z) :
  lastIndexOf_from needle (String d s) i
  = let r := lastIndexOf_from needle s (i + 1) in
    if 0 <=? r then r else if Ascii.eqb c d then i else -1.
Proof.
  change (lastIndexOf_from needle (String d s) i)
    with (let r := lastIndexOf_from needle s (i + 1) in
          if 0 <=? r then r
          else if String.prefix needle (String d s) then i else -1).
  rewrite prefix_char. reflexivity.
Qed.

Lemma lastIndexOf_from_bounds (s : string) :
  forall i, 0 <= i ->
    lastIndexOf_from needle s i = -1 \/
    i <= lastIndexOf_from needle s i < i + len s.
Proof.
  induction s as [|d s IH]; intros i Hi.
  - left. reflexivity.
  - rewrite lastIndexOf_from_unfold. cbv zeta.
    assert (Hlen : len (String d s) = len s + 1).
    { unfold len. simpl String.length. lia. }
    destruct (IH (i + 1) ltac:(lia)) as [E|B].
    + rewrite E. change (0 <=? -1) with false. cbv iota.
      destruct (Ascii.eqb c d); [right|left]; unfold len in *; lia.
    + destruct (0 <=? _) eqn:E0; [right; lia|].
      apply Z.leb_gt in E0. lia.
Qed.

Lemma lastIndexOf_from_none (s : string) :
  forall i, occurs c s = false -> lastIndexOf_from needle s i = -1.
Proof.
  induction s as [|d s IH]; intros i H.
  - reflexivity.
  - rewrite lastIndexOf_from_unfold. cbv zeta.
    simpl in H. apply orb_false_elim in H as [Hd Hs].
    rewrite (IH _ Hs), Hd. reflexivity.
Qed.

Lemma lastIndexOf_from_some (s : string) :
  forall i, 0 <= i -> occurs c s = true -> i <= lastIndexOf_from needle s i.
Proof.
  induction s as [|d s IH]; intros i Hi H.
  - discriminate.
  - rewrite lastIndexOf_from_unfold. cbv zeta.
    destruct (0 <=? lastIndexOf_from needle s (i + 1)) eqn:E0.
    + destruct (lastIndexOf_from_bounds s (i + 1) ltac:(lia)) as [E|B].
      * rewrite E in E0. discriminate.
      * lia.
    + simpl in H. destruct (Ascii.eqb c d); cbv iota; [lia|].
      simpl in H. specialize (IH (i + 1) ltac:(lia) H).
      apply Z.leb_gt in E0. lia.
Qed.

Lemma lastIndexOf_from_last (a b : string) :
  forall i, 0 <= i -> occurs c b = false ->
    lastIndexOf_from needle (a ++ String c b) i = i + len a.
Proof.
  induction a as [|d a IH]; intros i Hi Hb.
  - simpl append. rewrite lastIndexOf_from_unfold. cbv zeta.
    rewrite (lastIndexOf_from_none _ _ Hb), Ascii.eqb_refl.
    unfold len. simpl. lia.
  - simpl append. rewrite lastIndexOf_from_unfold. cbv zeta.
    rewrite (IH (i + 1) ltac:(lia) Hb).
    assert (Hlen : len (String d a) = len a + 1).
    { unfold len. simpl String.length. lia. }
    assert (Hpos : 0 <= len a) by (unfold len; lia).
    destruct (0 <=? i + 1 + len a) eqn:E0; [lia|].
    apply Z.leb_gt in E0. lia.
Qed.

Lemma lastIndexOf_from_app_none (a b : string) :
  forall i, occurs c b = false ->
    lastIndexOf_from needle (a ++ b) i = lastIndexOf_from needle a i.
Proof.
  induction a as [|d a IH]; intros i Hb.
  - simpl append. rewrite (lastIndexOf_from_none _ _ Hb). reflexivity.
  - simpl append. rewrite !lastIndexOf_from_unfold. cbv zeta.
    rewrite (IH _ Hb). reflexivity.
Qed.

Lemma lastIndexOf_from_app_some (a b : string) :
  forall i, 0 <= i -> occurs c b = true ->
    i + len a <= lastIndexOf_from needle (a ++ b) i.
Proof.
  induction a as [|d a IH]; intros i Hi Hb.
  - simpl append. pose proof (lastIndexOf_from_some b i Hi Hb).
    unfold len. simpl. lia.
  - simpl append. rewrite lastIndexOf_from_unfold. cbv zeta.
    specialize (IH (i + 1) ltac:(lia) Hb).
    assert (Hlen : len (String d a) = len a + 1).
    { unfold len. simpl String.length. lia. }
    assert (Hpos : 0 <= len a) by (unfold len; lia).
    destruct (0 <=? _) eqn:E0; [lia|].
    apply Z.leb_gt in E0. lia.
Qed.

End LastIndexOf.

Lemma len_nonneg (s : string) : 0 <= len s.
Proof. unfold len. lia. Qed.

Lemma len_String (d : ascii) (s : string) : len (String d s) = len s + 1.
Proof. unfold len. simpl String.length. lia. Qed.

Lemma len_append (a b : string) : len (a ++ b) = len a + len b.
Proof.
  induction a as [|d a IH]; simpl append.
  - unfold len. simpl. lia.
  - rewrite !len_String, IH. lia.
Qed.

Lemma append_assoc (a b c : string) : (a ++ (b ++ c) = (a ++ b) ++ c)%string.
Proof.
  induction a as [|d a IH]; simpl; [reflexivity|]. rewrite IH. reflexivity.
Qed.

Lemma substring_all (s : string) : String.substring 0 (String.length s) s = s.
Proof.
  induction s as [|d s IH]; simpl; [reflexivity|]. rewrite IH. reflexivity.
Qed.

Lemma substring_head (a s : string) :
  String.substring 0 (String.length a) (a ++ s) = a.
Proof.
  induction a as [|d a IH]; simpl.
  - destruct s; reflexivity.
  - rewrite IH. reflexivity.
Qed.

Lemma substring_tail (a s : string) :
  String.substring (String.length a) (String.length s) (a ++ s) = s.
Proof.
  induction a as [|d a IH]; simpl.
  - apply substring_all.
  - exact IH.
Qed.

(** [(a ++ s).substring(0, a.length)] and [(a ++ s).substring(a.length)]. *)
Lemma substring_before (a s : string) : substring (a ++ s) 0 (len a) = a.
Proof.
  unfold substring, clamp. rewrite len_append.
  pose proof (len_nonneg a). pose proof (len_nonneg s).
  replace (Z.max 0 (Z.min 0 (len a + len s))) with 0 by lia.
  replace (Z.max 0 (Z.min (len a) (len a + len s))) with (len a) by lia.
  replace (Z.min 0 (len a)) with 0 by lia.
  replace (Z.max 0 (len a) - 0) with (len a) by lia.
  unfold len. rewrite Nat2Z.id. apply substring_head.
Qed.

Lemma substring_after (a s : string) : substring_from (a ++ s) (len a) = s.
Proof.
  unfold substring_from, substring, clamp. rewrite len_append.
  pose proof (len_nonneg a). pose proof (len_nonneg s).
  replace (Z.max 0 (Z.min (len a) (len a + len s))) with (len a) by lia.
  replace (Z.max 0 (Z.min (len a + len s) (len a + len s)))
    with (len a + len s) by lia.
  replace (Z.min (len a) (len a + len s)) with (len a) by lia.
  replace (Z.max (len a) (len a + len s) - len a) with (len s) by lia.
  unfold len. rewrite !Nat2Z.id. apply substring_tail.
Qed.

Lemma splitReference_tagged (a b : string) :
  occurs colon b = false -> occurs slash b = false ->
  splitReference (a ++ ":" ++ b) = (a, b).
Proof.
  intros Hc Hs. unfold splitReference, lastIndexOf.
  change (a ++ ":" ++ b) with (a ++ String colon b).
  rewrite (lastIndexOf_from_last colon a b 0 ltac:(lia) Hc).
  rewrite (lastIndexOf_from_app_none slash a (String colon b) 0)
    by (simpl; exact Hs).
  pose proof (len_nonneg a).
  assert (Hlt : (lastIndexOf_from "/" a 0 <? 0 + len a) = true).
  { apply Z.ltb_lt.
    destruct (lastIndexOf_from_bounds slash a 0 ltac:(lia)) as [E|B];
      [rewrite E|]; lia. }
  rewrite Hlt. f_equal.
  - replace (0 + len a) with (len a) by lia. apply substring_before.
  - replace (0 + len a + 1) with (len (a ++ ":")).
    + change (a ++ String colon b) with (a ++ (":" ++ b)).
      rewrite append_assoc. apply substring_after.
    + rewrite len_append. reflexivity.
Qed.

Lemma splitReference_no_colon (r : string) :
  occurs colon r = false -> splitReference r = (r, "latest").
Proof.
  intros Hc. unfold splitReference, lastIndexOf.
  rewrite (lastIndexOf_from_none colon r 0 Hc).
  assert (Hlt : (lastIndexOf_from "/" r 0 <? -1) = false).
  { apply Z.ltb_ge. pose proof (len_nonneg r).
    destruct (lastIndexOf_from_bounds slash r 0 ltac:(lia)) as [E|B];
      [rewrite E|]; lia. }
  rewrite Hlt. reflexivity.
Qed.

Lemma splitReference_slash_last (a b : string) :
  occurs colon b = false ->
  splitReference (a ++ "/" ++ b) = (a ++ "/" ++ b, "latest").
Proof.
  intros Hc. unfold splitReference, lastIndexOf.
  change (a ++ "/" ++ b) with (a ++ String slash b).
  rewrite (lastIndexOf_from_app_none colon a (String slash b) 0)
    by (simpl; exact Hc).
  pose proof (lastIndexOf_from_app_some slash a (String slash b) 0 ltac:(lia)
                ltac:(simpl; reflexivity)) as Hge.
  pose proof (len_nonneg a).
  assert (Hlt : (lastIndexOf_from "/" (a ++ String slash b) 0
                 <? lastIndexOf_from ":" a 0) = false).
  { apply Z.ltb_ge.
    destruct (lastIndexOf_from_bounds colon a 0 ltac:(lia)) as [E|B];
      [rewrite E|]; lia. }
  rewrite Hlt. reflexivity.
Qed.

Lemma prefix_append (p q r : string) :
  String.prefix (p ++ q) r = true -> String.prefix p r = true.
Proof.
  revert r. induction p as [|d p IH]; intros r H.
  - destruct r; reflexivity.
  - destruct r as [|e r]; simpl in *; [discriminate|].
    destruct (ascii_dec d e); [apply IH; exact H | discriminate].
Qed.

Lemma simplifyRepository_library (x : string) :
  simplifyRepository ("docker.io/library/" ++ x) = x.
Proof.
  unfold simplifyRepository.
  assert (H : startsWith ("docker.io/library/" ++ x) "docker.io/library/" = true).
  { unfold startsWith. simpl. destruct x; reflexivity. }
  rewrite H. apply substring_after.
Qed.

Lemma simplifyRepository_registry (x : string) :
  startsWith x "library/" = false ->
  simplifyRepository ("docker.io/" ++ x) = x.
Proof.
  intros Hx. unfold simplifyRepository.
  assert (H1 : startsWith ("docker.io/" ++ x) "docker.io/library/" = false).
  { unfold startsWith in *. simpl. exact Hx. }
  assert (H2 : startsWith ("docker.io/" ++ x) "docker.io/" = true).
  { unfold startsWith. simpl. destruct x; reflexivity. }
  rewrite H1, H2. apply substring_after.
Qed.

Lemma simplifyRepository_other (r : string) :
  startsWith r "docker.io/" = false -> simplifyRepository r = r.
Proof.
  intros Hr. unfold simplifyRepository.
  assert (H1 : startsWith r "docker.io/library/" = false).
  { unfold startsWith in *.
    destruct (String.prefix "docker.io/library/" r) eqn:E; [|reflexivity].
    rewrite (prefix_append "docker.io/" "library/" r E) in Hr. discriminate. }
  rewrite H1, Hr. reflexivity.
Qed.

(** The repository and the tag of a parsed image depend on the reference
    alone, and every record with a string for reference is parsed when its
    size is a number or absent. *)
Lemma decomposition_eq (js : Engine) (r : string) :
  decomposition js r
  = Some (simplifyRepository (fst (splitReference r)), snd (splitReference r)).
Proof.
  unfold decomposition, parseRawImage, image_record.
  cbn [get bind assoc String.eqb Ascii.eqb Bool.eqb].
  unfold or_else at 2. cbn [truthy].
  assert (H : or_else (VStr r) (VStr "") = VStr r).
  { unfold or_else. simpl. destruct r; reflexivity. }
  rewrite H. destruct (splitReference r) as [repo t]. reflexivity.
Qed.

Lemma parseRawImage_reference (js : Engine) (fields : list (string * value))
  (img : Image)
  (r : string) :
  parseRawImage js (VObj fields) = Ok img ->
  assoc "reference" fields = VStr r ->
  decomposition js r = Some (repository img, tag img).
Proof.
  intros H Hr. rewrite decomposition_eq.
  unfold parseRawImage in H. cbn [get bind] in H. rewrite Hr in H.
  assert (E : or_else (VStr r) (VStr "") = VStr r).
  { unfold or_else. simpl. destruct r; reflexivity. }
  rewrite E in H. destruct (splitReference r) as [repo t].
  destruct (get_or_else_object (assoc "descriptor" fields) (VObj []) "digest"
              eq_refl) as [dg Hdg].
  destruct (get_or_else_object (assoc "descriptor" fields) (VObj []) "size"
              eq_refl) as [sz Hsz].
  rewrite Hdg, Hsz in H. cbn [bind] in H.
  destruct (or_else sz (VNum 0)); try discriminate.
  injection H as <-. reflexivity.
Qed.

Lemma occurs_append (c : ascii) (a b : string) :
  occurs c (a ++ b) = occurs c a || occurs c b.
Proof.
  induction a as [|d a IH]; simpl; [reflexivity|].
  rewrite IH, orb_assoc. reflexivity.
Qed.

Lemma split_at_last (c : ascii) (s : string) :
  occurs c s = true ->
  exists a b, s = (a ++ String c b)%string /\ occurs c b = false.
Proof.
  induction s as [|d s IH]; simpl; [discriminate|].
  intros H. destruct (occurs c s) eqn:E.
  - destruct (IH eq_refl) as (a & b & -> & Hb).
    exists (String d a), b. split; [reflexivity|exact Hb].
  - rewrite orb_false_r in H. apply Ascii.eqb_eq in H. subst d.
    exists EmptyString, s. split; [reflexivity|exact E].
Qed.

(** Every reference falls under one of the three cases of the theorem. *)
Lemma reference_cases (r : string) :
  occurs colon r = false \/
  (exists a b, r = a ++ ":" ++ b /\
               occurs colon b = false /\ occurs slash b = false) \/
  (exists a b, r = a ++ "/" ++ b /\ occurs colon b = false).
Proof.
  destruct (occurs colon r) eqn:Hc; [right|left; reflexivity].
  destruct (split_at_last colon r Hc) as (a & b & -> & Hb).
  destruct (occurs slash b) eqn:Hs.
  - right. destruct (split_at_last slash b Hs) as (a' & b' & -> & Hb').
    exists (a ++ ":" ++ a'), b'. split.
    + rewrite <- !append_assoc. reflexivity.
    + rewrite occurs_append in Hb. apply orb_false_elim in Hb as [_ Hb].
      simpl in Hb. exact Hb.
  - left. exists a, b. auto.
Qed.

(** C6. Image reference decomposition: a reference is cut at its last
    colon when no slash follows that colon, the text before it being the
    repository and the text after it the tag; a reference with no colon, or
    with a slash after its last colon, is the repository as a whole, with
    the tag latest, and every reference is of one of these three forms;
    then a leading docker.io/library/ or docker.io/ is taken off the
    repository. The four references of the specification decompose as
    stated there. *)
Theorem reference_decomposition (js : Engine) :
  (forall a b, occurs colon b = false -> occurs slash b = false ->
     decomposition js (a ++ ":" ++ b) = Some (simplifyRepository a, b)) /\
  (forall r, occurs colon r = false ->
     decomposition js r = Some (simplifyRepository r, "latest")) /\
  (forall a b, occurs colon b = false ->
     decomposition js (a ++ "/" ++ b)
     = Some (simplifyRepository (a ++ "/" ++ b), "latest")) /\
  (forall r,
     occurs colon r = false \/
     (exists a b, r = a ++ ":" ++ b /\
                  occurs colon b = false /\ occurs slash b = false) \/
     (exists a b, r = a ++ "/" ++ b /\ occurs colon b = false)) /\
  (forall x, simplifyRepository ("docker.io/library/" ++ x) = x) /\
  (forall x, startsWith x "library/" = false ->
     simplifyRepository ("docker.io/" ++ x) = x) /\
  (forall r, startsWith r "docker.io/" = false -> simplifyRepository r = r) /\
  map (decomposition js)
      ["nginx:latest"; "docker.io/library/nginx:1.25";
       "myregistry.local:5000/app:v2"; "myimage"]
  = [Some ("nginx", "latest"); Some ("nginx", "1.25");
     Some ("myregistry.local:5000/app", "v2"); Some ("myimage", "latest")].
Proof.
  split; [|split; [|split; [|split; [|split; [|split; [|split]]]]]].
  - intros a b Hc Hs.
    rewrite decomposition_eq, (splitReference_tagged a b Hc Hs). reflexivity.
  - intros r Hc.
    rewrite decomposition_eq, (splitReference_no_colon r Hc). reflexivity.
  - intros a b Hc.
    rewrite decomposition_eq, (splitReference_slash_last a b Hc). reflexivity.
  - apply reference_cases.
  - apply simplifyRepository_library.
  - apply simplifyRepository_registry.
  - apply simplifyRepository_other.
  - vm_compute. reflexivity.
Qed.

(** The references of the specification, cut by the general statement. *)
Lemma reference_decomposition_witness :
  decomposition Sample.engine ("docker.io/library/nginx" ++ ":" ++ "1.25") = Some ("nginx", "1.25") /\
  decomposition Sample.engine "myimage" = Some ("myimage", "latest") /\
  decomposition Sample.engine ("myregistry.local:5000" ++ "/" ++ "app")
  = Some ("myregistry.local:5000/app", "latest").
Proof.
  destruct (reference_decomposition Sample.engine) as (H1 & H2 & H3 & _ & H4 & H5 & H6 & _).
  split; [|split].
  - rewrite (H1 "docker.io/library/nginx" "1.25" eq_refl eq_refl).
    pose proof (H4 "nginx") as E. cbn [append] in E. rewrite E. reflexivity.
  - rewrite (H2 "myimage" eq_refl).
    rewrite (H6 "myimage" eq_refl). reflexivity.
  - rewrite (H3 "myregistry.local:5000" "app" eq_refl).
    rewrite (H6 ("myregistry.local:5000" ++ "/" ++ "app") eq_refl). reflexivity.
Defined.

(* ===================================================================== *)
(** ** The argument vector of a run request *)
(* ===================================================================== *)

Lemma push_str_tokens (args : list string) (flag : string) (o : option string) :
  push_str args flag o = (args ++ tokens_str flag o)%list.
Proof.
  unfold push_str, tokens_str, given_str, push.
  destruct o as [s|]; [destruct (s =? "")%string|]; simpl;
    rewrite ?app_nil_r; reflexivity.
Qed.

Lemma push_flag_tokens (args : list string) (flag : string) (o : option bool) :
  push_flag args flag o = (args ++ tokens_flag flag o)%list.
Proof.
  unfold push_flag, tokens_flag, given_flag, push.
  destruct o as [[|]|]; simpl; rewrite ?app_nil_r; reflexivity.
Qed.

Lemma fold_push_tokens {A} (flag : string) (spec : A -> string) (l : list A) :
  forall args,
    fold_left (fun args x => push args [flag; spec x]) l args
    = (args ++ flat_map (fun x => [flag; spec x]) l)%list.
Proof.
  induction l as [|x l IH]; intros args; simpl.
  - rewrite app_nil_r. reflexivity.
  - rewrite IH. unfold push. rewrite <- app_assoc. reflexivity.
Qed.

Lemma push_each_tokens {A} (args : list string) (flag : string)
  (spec : A -> string) (o : option (list A)) :
  push_each args flag spec o = (args ++ tokens_each flag spec o)%list.
Proof.
  unfold push_each, tokens_each. destruct o as [l|].
  - apply fold_push_tokens.
  - rewrite app_nil_r. reflexivity.
Qed.

(** The argument vector is the concatenation of what each field adds. *)
Lemma runContainer_args_segments (o : RunContainerOptions.t) :
  runContainer_args o = List.concat (run_segments o).
Proof.
  unfold runContainer_args. cbv zeta.
  assert (Hcpus : forall args,
             match RunContainerOptions.cpus o with
             | Some n => if given_num (Some n)
                         then push args ["--cpus"; num_toString n] else args
             | None => args
             end = (args ++ tokens_num "--cpus" (RunContainerOptions.cpus o))%list).
  { intros args. unfold tokens_num, given_num, push.
    destruct (RunContainerOptions.cpus o) as [n|];
      [destruct (n =? 0)|]; simpl; rewrite ?app_nil_r; reflexivity. }
  assert (Hcmd : forall args,
             match RunContainerOptions.cmd o with
             | Some c => push args c
             | None => args
             end = (args ++ tokens_cmd (RunContainerOptions.cmd o))%list).
  { intros args. unfold tokens_cmd, push.
    destruct (RunContainerOptions.cmd o); rewrite ?app_nil_r; reflexivity. }
  rewrite Hcmd, Hcpus.
  rewrite !push_str_tokens, !push_flag_tokens, !push_each_tokens.
  unfold push, run_segments. cbn [List.concat]. rewrite app_nil_r.
  rewrite <- !app_assoc. reflexivity.
Qed.

Lemma num_toString_nonempty (n : Z) : num_toString n <> "".
Proof.
  unfold num_toString. destruct (Z.to_int n) as [d|d]; destruct d; discriminate.
Qed.

Lemma append_nonempty_r (a b : string) : b <> "" -> (a ++ b)%string <> "".
Proof.
  intros Hb. destruct a; simpl; [exact Hb|discriminate].
Qed.

Lemma append_nonempty_l (a b : string) : a <> "" -> (a ++ b)%string <> "".
Proof.
  intros Ha. destruct a; simpl; [contradiction|discriminate].
Qed.

Lemma keyValue_nonempty (e : string * string) : keyValue e <> "".
Proof.
  unfold keyValue. apply append_nonempty_r. discriminate.
Qed.

Lemma portSpec_nonempty (p : Port.t) : portSpec p <> "".
Proof.
  unfold portSpec. cbv zeta.
  assert (H : forall pre : string,
             (pre ++ num_toString (Port.host p) ++ ":"
                  ++ num_toString (Port.container p))%string <> "").
  { intros pre. apply append_nonempty_r, append_nonempty_l, num_toString_nonempty. }
  destruct (Port.protocol p) as [proto|].
  - destruct (given_str (Some proto) && negb (proto =? "tcp")%string).
    + apply append_nonempty_l. apply H.
    + apply H.
  - apply H.
Qed.

Lemma volSpec_nonempty (v : Vol.t) : volSpec v <> "".
Proof.
  unfold volSpec. cbv zeta.
  assert (H : (Vol.source v ++ ":" ++ Vol.target v)%string <> "").
  { apply append_nonempty_r. discriminate. }
  destruct (given_flag (Vol.readonly v)); [apply append_nonempty_l|]; exact H.
Qed.

Lemma mountSpec_nonempty (m : Mount.t) : mountSpec m <> "".
Proof.
  unfold mountSpec. cbv zeta.
  destruct (given_flag (Mount.readonly m)); simpl; discriminate.
Qed.

Lemma tokens_str_nonempty (flag : string) (o : option string) :
  flag <> "" -> ~ In "" (tokens_str flag o).
Proof.
  intros Hf. unfold tokens_str.
  destruct o as [s|]; [destruct (String.eqb_spec s "")|]; simpl;
    intuition congruence.
Qed.

Lemma tokens_flag_nonempty (flag : string) (o : option bool) :
  flag <> "" -> ~ In "" (tokens_flag flag o).
Proof.
  intros Hf. unfold tokens_flag. destruct o as [[|]|]; simpl;
    intuition congruence.
Qed.

Lemma tokens_num_nonempty (flag : string) (o : option Z) :
  flag <> "" -> ~ In "" (tokens_num flag o).
Proof.
  intros Hf. unfold tokens_num.
  pose proof num_toString_nonempty as Hn.
  destruct o as [n|]; [destruct (n =? 0)|]; simpl; try tauto.
  intros [H|[H|[]]]; [congruence|]. exact (Hn n H).
Qed.

Lemma tokens_each_empty {A} (flag : string) (spec : A -> string)
  (o : option (list A)) :
  flag <> "" -> In "" (tokens_each flag spec o) ->
  exists l x, o = Some l /\ In x l /\ spec x = "".
Proof.
  intros Hf. unfold tokens_each. destruct o as [l|]; [|intros []].
  intros H. apply in_flat_map in H as [x [Hx [H|[H|[]]]]]; [congruence|].
  exists l, x. auto.
Qed.

Lemma tokens_each_nonempty {A} (flag : string) (spec : A -> string)
  (o : option (list A)) :
  flag <> "" -> (forall x, spec x <> "") -> ~ In "" (tokens_each flag spec o).
Proof.
  intros Hf Hs H.
  destruct (tokens_each_empty flag spec o Hf H) as (l & x & _ & _ & E).
  exact (Hs x E).
Qed.

Lemma runContainer_args_no_empty_token (o : RunContainerOptions.t) :
  RunContainerOptions.image o <> "" ->
  (forall l, RunContainerOptions.cmd o = Some l -> ~ In "" l) ->
  (forall l, RunContainerOptions.dns o = Some l -> ~ In "" l) ->
  (forall l, RunContainerOptions.dnsSearch o = Some l -> ~ In "" l) ->
  ~ In "" (runContainer_args o).
Proof.
  intros Himg Hcmd Hdns Hsearch Hin.
  rewrite runContainer_args_segments in Hin.
  apply in_concat in Hin as [seg [Hseg Hin]].
  unfold run_segments in Hseg. cbn [In] in Hseg.
  repeat (destruct Hseg as [<-|Hseg];
          [ first
              [ solve [refine (tokens_str_nonempty _ _ _ Hin); discriminate]
              | solve [refine (tokens_flag_nonempty _ _ _ Hin); discriminate]
              | solve [refine (tokens_num_nonempty _ _ _ Hin); discriminate]
              | solve [refine (tokens_each_nonempty _ _ _ _ keyValue_nonempty Hin);
                       discriminate]
              | solve [refine (tokens_each_nonempty _ _ _ _ portSpec_nonempty Hin);
                       discriminate]
              | solve [refine (tokens_each_nonempty _ _ _ _ volSpec_nonempty Hin);
                       discriminate]
              | solve [refine (tokens_each_nonempty _ _ _ _ mountSpec_nonempty Hin);
                       discriminate]
              | idtac ]
          | ]).
  - destruct Hin as [E|[]]. discriminate.
  - apply tokens_each_empty in Hin as (l & x & Hl & Hx & E); [|discriminate].
    subst x. exact (Hdns l Hl Hx).
  - apply tokens_each_empty in Hin as (l & x & Hl & Hx & E); [|discriminate].
    subst x. exact (Hsearch l Hl Hx).
  - destruct Hin as [E|[]]. exact (Himg E).
  - unfold tokens_cmd in Hin.
    destruct (RunContainerOptions.cmd o) as [l|] eqn:E; [|destruct Hin].
    exact (Hcmd l eq_refl Hin).
  - destruct Hseg.
Qed.

(** C9. The run request of the example, with its port 8080 to 80 and its
    read-only volume /data on /app, gives one --publish flag with value
    8080:80 and one --volume flag with value /data:/app:ro, and nothing
    else besides run and the image. For every run request the argument
    vector is the concatenation of what each field adds; an absent
    optional field adds nothing; and no token is empty unless the caller
    passed an empty image or an empty entry of cmd, dns or dnsSearch. *)
Theorem run_argument_vector :
  (forall img,
     runContainer_args (run_example img)
     = ["run"; "--publish"; "8080:80"; "--volume"; "/data:/app:ro"; img]) /\
  count "--publish" (runContainer_args (run_example "nginx")) = 1%nat /\
  count "--volume" (runContainer_args (run_example "nginx")) = 1%nat /\
  (forall img, runContainer_args (run_image_only img) = ["run"; img]) /\
  (forall o, runContainer_args o = List.concat (run_segments o)) /\
  (forall flag,
     tokens_str flag None = [] /\ tokens_flag flag None = [] /\
     tokens_num flag None = [] /\
     tokens_each flag keyValue None = [] /\
     tokens_each flag portSpec None = [] /\
     tokens_each flag volSpec None = [] /\
     tokens_each flag mountSpec None = [] /\
     tokens_each flag (fun s : string => s) None = []) /\
  tokens_cmd None = [] /\
  (forall o,
     RunContainerOptions.image o <> "" ->
     (forall l, RunContainerOptions.cmd o = Some l -> ~ In "" l) ->
     (forall l, RunContainerOptions.dns o = Some l -> ~ In "" l) ->
     (forall l, RunContainerOptions.dnsSearch o = Some l -> ~ In "" l) ->
     ~ In "" (runContainer_args o)).
Proof.
  split; [intros img; reflexivity|].
  split; [reflexivity|].
  split; [reflexivity|].
  split; [intros img; reflexivity|].
  split; [exact runContainer_args_segments|].
  split; [intros flag; repeat split|].
  split; [reflexivity|].
  exact runContainer_args_no_empty_token.
Qed.

(** The example request has no empty token. *)
Lemma run_argument_vector_witness :
  runContainer_args (run_example "nginx")
  = ["run"; "--publish"; "8080:80"; "--volume"; "/data:/app:ro"; "nginx"] /\
  (In "" (runContainer_args (run_example "nginx")) -> False).
Proof.
  destruct run_argument_vector as (Hex & _ & _ & _ & _ & _ & _ & Hne).
  split.
  - exact (Hex "nginx").
  - apply (Hne (run_example "nginx")).
    + simpl. discriminate.
    + simpl. discriminate.
    + simpl. discriminate.
    + simpl. discriminate.
Defined.

(* ===================================================================== *)
(** ** The gateway on output that does not decode *)
(* ===================================================================== *)

(** C3, as the code has it. For an invocation with [parseJson] set whose
    subprocess exits successfully: when the output is not blank and fails
    to decode, the gateway returns a failure with the error
    Failed to parse JSON output (capital F) and exit code 0; when the output
    is blank (empty once trimmed) nothing is decoded and the gateway
    returns a success that carries the output as text. *)
Theorem json_decode_failure (parse : string -> option value)
  (stdout stderr : string) :
  (trim stdout <> "" -> parse stdout = None ->
   snd (execute_end parse true (Resolved stdout stderr)) = parse_failure) /\
  (trim stdout = "" ->
   snd (execute_end parse true (Resolved stdout stderr)) = raw_text stdout).
Proof.
  unfold execute_end. split.
  - intros Hblank Hparse.
    apply String.eqb_neq in Hblank. rewrite Hblank, Hparse. reflexivity.
  - intros Hblank. rewrite Hblank. reflexivity.
Qed.

Lemma json_decode_failure_witness :
  snd (execute_end JSONFragment.parse true (Resolved "{" "")) = parse_failure /\
  snd (execute_end JSONFragment.parse true (Resolved "  " "")) = raw_text "  ".
Proof.
  split.
  - apply (proj1 (json_decode_failure JSONFragment.parse "{" "")).
    + simpl. discriminate.
    + reflexivity.
  - apply (proj2 (json_decode_failure JSONFragment.parse "  " "")).
    reflexivity.
Defined.

(** The empty output does not decode, and the gateway returns a success;
    an open brace does not decode, and the error of the failure starts
    with a capital. *)
Lemma json_decode_failure_counterexample :
  JSONFragment.parse "" = None /\
  success (snd (execute_end JSONFragment.parse true (Resolved "" ""))) = true /\
  JSONFragment.parse "{" = None /\
  error (snd (execute_end JSONFragment.parse true (Resolved "{" "")))
  = Some "Failed to parse JSON output" /\
  error (snd (execute_end JSONFragment.parse true (Resolved "{" "")))
  <> Some "failed to parse JSON output".
Proof.
  repeat split. discriminate.
Qed.

(* ===================================================================== *)
(** ** The size formatter *)
(* ===================================================================== *)

Lemma pow_1024 (i : Z) : 0 <= i -> 1024 ^ i = 2 ^ (10 * i).
Proof.
  intros Hi. change 1024 with (2 ^ 10). rewrite <- Z.pow_mul_r by lia.
  reflexivity.
Qed.

(** The index of the sample engine is the exact one. *)
Lemma unit_index_spec (b : Z) :
  0 < b ->
  let i := Math_floor_log1024 Sample.engine b in
  0 <= i /\ 1024 ^ i <= b < 1024 ^ (i + 1).
Proof.
  intros Hb. change (Math_floor_log1024 Sample.engine b) with (Z.log2 b / 10).
  intros i.
  pose proof (Z.log2_nonneg b) as Hl.
  pose proof (Z.log2_spec b Hb) as [Hlo Hhi].
  assert (Hi : 0 <= i) by (apply Z.div_pos; lia).
  assert (Hm : 10 * i <= Z.log2 b < 10 * i + 10).
  { unfold i. pose proof (Z.div_mod (Z.log2 b) 10 ltac:(lia)).
    pose proof (Z.mod_pos_bound (Z.log2 b) 10 ltac:(lia)). lia. }
  split; [exact Hi|].
  rewrite !pow_1024 by lia. split.
  - apply Z.le_trans with (2 ^ Z.log2 b); [|exact Hlo].
    apply Z.pow_le_mono_r; lia.
  - apply Z.lt_le_trans with (2 ^ Z.succ (Z.log2 b)); [exact Hhi|].
    apply Z.pow_le_mono_r; lia.
Qed.

Lemma round_half_up (num den : Z) :
  0 < den ->
  let n := (20 * num + den) / (2 * den) in
  2 * Z.abs (10 * num - n * den) <= den.
Proof.
  intros Hd n.
  pose proof (Z.div_mod (20 * num + den) (2 * den) ltac:(lia)) as E.
  pose proof (Z.mod_pos_bound (20 * num + den) (2 * den) ltac:(lia)) as B.
  fold n in E. lia.
Qed.

(** Above zero, the formatter divides by the power of 1024 of the engine's
    index and reads the unit at that index. *)
Lemma formatSize_at_index (js : Engine) (b i : Z) :
  0 < b -> Math_floor_log1024 js b = i -> 0 <= i ->
  formatSize js b
  = (toFixed1 b (1024 ^ i) ++ " "
       ++ match nth_error units (Z.to_nat i) with
          | Some u => u
          | None => "undefined"
          end)%string.
Proof.
  intros Hb Hi H0. unfold formatSize.
  assert (E0 : (b =? 0) = false) by (apply Z.eqb_neq; lia).
  assert (E1 : (b <? 0) = false) by (apply Z.ltb_ge; lia).
  assert (E2 : (i <? 0) = false) by (apply Z.ltb_ge; lia).
  rewrite E0, E1. cbv zeta. rewrite Hi, E2. reflexivity.
Qed.

(** In the range of the units, where the engine's index is the exact one,
    the formatter prints the size in the largest unit that does not exceed
    it, rounded to one decimal. *)
Lemma formatSize_in_range (js : Engine) (b i : Z) :
  0 < b < 1024 ^ 5 ->
  Math_floor_log1024 js b = i ->
  1024 ^ i <= b < 1024 ^ (i + 1) ->
  0 <= i /\
  exists u,
    nth_error units (Z.to_nat i) = Some u /\
    let n := (20 * b + 1024 ^ i) / (2 * 1024 ^ i) in
    formatSize js b
    = (num_toString (n / 10) ++ "." ++ num_toString (n mod 10) ++ " " ++ u)%string /\
    2 * Z.abs (10 * b - n * 1024 ^ i) <= 1024 ^ i.
Proof.
  intros [Hpos Hlt] Hidx Hb.
  assert (Hi : 0 <= i).
  { destruct (Z.lt_ge_cases i 0) as [Hneg|Hge]; [|exact Hge].
    rewrite (Z.pow_neg_r 1024 i Hneg) in Hb.
    destruct (Z.eq_dec (i + 1) 0) as [E0|E0].
    - rewrite E0 in Hb. simpl in Hb. lia.
    - rewrite (Z.pow_neg_r 1024 (i + 1)) in Hb by lia. lia. }
  split; [exact Hi|].
  assert (Hi5 : i < 5).
  { destruct (Z.lt_ge_cases i 5) as [H|H]; [exact H|].
    assert (1024 ^ 5 <= 1024 ^ i) by (apply Z.pow_le_mono_r; lia). lia. }
  assert (Hu : exists u, nth_error units (Z.to_nat i) = Some u).
  { assert (Hc : i = 0 \/ i = 1 \/ i = 2 \/ i = 3 \/ i = 4) by lia.
    destruct Hc as [->|[->|[->|[->| ->]]]]; simpl; eauto. }
  destruct Hu as [u Hu].
  exists u. split; [exact Hu|].
  cbv zeta. split.
  - rewrite (formatSize_at_index js b i Hpos Hidx Hi), Hu. unfold toFixed1.
    rewrite <- !append_assoc. reflexivity.
  - apply round_half_up. apply Z.pow_pos_nonneg; lia.
Qed.

(** C7, where the code departs from it. Two pebibytes, [2 ^ 51] bytes: the
    formatter indexes the five units at 5 and prints the unit as
    undefined, which names no unit and parses back to no size; this is the
    size string of an image whose descriptor gives that size. Zero bytes
    print as 0 B. The index 5 is the exact one, the quotient of the
    logarithms being 5.1; and so it is for every engine that computes 5
    there. *)
Theorem formatSize_beyond_units :
  formatSize Sample.engine (2 ^ 51) = "2.0 undefined" /\
  nth_error units (Z.to_nat (Math_floor_log1024 Sample.engine (2 ^ 51))) = None /\
  (exists img,
     parseRawImage Sample.engine
       (VObj [("reference", VStr "big:latest");
              ("descriptor", VObj [("size", VNum 2251799813685248)])]) = Ok img /\
     size img = "2.0 undefined") /\
  (forall js, formatSize js 0 = "0 B") /\
  1024 ^ 5 <= 2 ^ 51 < 1024 ^ 6 /\
  (forall js,
     Math_floor_log1024 js (2 ^ 51) = 5 ->
     formatSize js (2 ^ 51) = "2.0 undefined" /\
     exists img,
       parseRawImage js
         (VObj [("reference", VStr "big:latest");
                ("descriptor", VObj [("size", VNum 2251799813685248)])]) = Ok img /\
       size img = "2.0 undefined").
Proof.
  split; [reflexivity|]. split; [reflexivity|].
  split; [eexists; split; reflexivity|].
  split; [reflexivity|]. split; [split; [discriminate|reflexivity]|].
  intros js H.
  assert (E : formatSize js (2 ^ 51) = "2.0 undefined").
  { rewrite (formatSize_at_index js (2 ^ 51) 5 eq_refl H); [reflexivity|lia]. }
  split; [exact E|].
  eexists. split; [reflexivity|]. cbn [size]. exact E.
Qed.

(* ===================================================================== *)
(** ** The refresh cache *)
(* ===================================================================== *)

Section ProviderFacts.

Variable parse : string -> option value.
Variable js : Engine.

Lemma refresh_begin_fields {k} (config : ExtensionConfig) (r : bool)
  (p : Provider k) :
  let p' := refresh_begin config r p in
  _items p' = _items p /\ _refreshTimer p' = _refreshTimer p /\
  _initialLoadDone p' = _initialLoadDone p /\ fired p' = fired p /\
  emitter_disposed p' = emitter_disposed p /\
  inflight p'
  = (inflight p
       ++ [{| launched := snd (execute_begin config (list_args k config));
              reader := r |}])%list.
Proof.
  cbv zeta. unfold refresh_begin, set_inflight, push. simpl. auto 10.
Qed.

Lemma sort_then_map_fields {k} (compare : Item k -> Item k -> result Z)
  (p : Provider k) :
  let p' := fst (sort_then_map js compare p) in
  _refreshTimer p' = _refreshTimer p /\
  _initialLoadDone p' = _initialLoadDone p /\ fired p' = fired p /\
  emitter_disposed p' = emitter_disposed p /\ inflight p' = inflight p.
Proof.
  cbv zeta. unfold sort_then_map.
  destruct (Array_sort js compare (_items p)); simpl; auto 10.
Qed.

Lemma getChildren_return_fields {k} (p : Provider k) :
  let p' := fst (getChildren_return js p) in
  _refreshTimer p' = _refreshTimer p /\
  _initialLoadDone p' = _initialLoadDone p /\ fired p' = fired p /\
  emitter_disposed p' = emitter_disposed p /\ inflight p' = inflight p.
Proof.
  destruct k; cbv zeta; cbn [getChildren_return];
    first [apply sort_then_map_fields | simpl; auto 10].
Qed.


Lemma tick_timer {k} (config : ExtensionConfig) (p : Provider k) :
  _refreshTimer (tick config p) = _refreshTimer p.
Proof.
  unfold tick. destruct (_refreshTimer p) eqn:E; [|exact E].
  destruct (refresh_begin_fields config false p) as (_ & H & _).
  rewrite H. exact E.
Qed.

Lemma getChildren_timer {k} (config : ExtensionConfig) (p : Provider k) :
  _refreshTimer (fst (getChildren js config p)) = _refreshTimer p.
Proof.
  unfold getChildren. destruct (needs_refresh p).
  - apply refresh_begin_fields.
  - pose proof (getChildren_return_fields p) as H. cbv zeta in H.
    destruct (getChildren_return js p) as [p' l]. simpl in *. apply H.
Qed.

Lemma refresh_end_timer {k} (n : nat) (o : ExecOutcome) (p : Provider k) :
  _refreshTimer (fst (refresh_end parse js n o p)) = _refreshTimer p.
Proof.
  unfold refresh_end.
  destruct (nth_error (inflight p) n) as [call|]; [|reflexivity].
  destruct (list_end js k _) as [l|e]; [|reflexivity].
  match goal with
  | |- context [fire ?q] => set (p1 := fire q)
  end.
  assert (H1 : _refreshTimer p1 = _refreshTimer p).
  { unfold p1. destruct k; reflexivity. }
  destruct (reader call); [|exact H1].
  pose proof (getChildren_return_fields p1) as H. cbv zeta in H.
  destruct (getChildren_return js p1) as [p' l']. simpl in *.
  destruct H as [H _]. congruence.
Qed.

(** A refresh whose list operation fails: the result of the gateway is a
    failure, the list operation answers with the empty list, and that is
    what the provider stores and announces. *)
Lemma list_end_failure (k : ResourceKind) (r : CliResult) :
  success r = false -> list_end js k r = Ok [].
Proof.
  intros H.
  destruct k; simpl;
    unfold listContainers_end, listImages_end, listVolumes_end,
      listNetworks_end, has_data;
    rewrite H; reflexivity.
Qed.

Lemma refresh_end_failure {k} (n : nat) (o : ExecOutcome) (p : Provider k)
  (call : Pending) :
  (forall A (compare : A -> A -> result Z), Array_sort js compare [] = Ok []) ->
  nth_error (inflight p) n = Some call ->
  success (snd (execute_end parse true o)) = false ->
  let p' := fst (refresh_end parse js n o p) in
  _items p' = [] /\
  fired p' = (if emitter_disposed p then fired p else S (fired p)) /\
  inflight p' = remove_nth n (inflight p).
Proof.
  intros Hsort Hcall Hfail. cbv zeta.
  unfold refresh_end. rewrite Hcall, (list_end_failure k _ Hfail).
  destruct (reader call).
  - destruct k; cbn [getChildren_return]; unfold sort_then_map; simpl;
      rewrite ?Hsort; simpl; auto.
  - destruct k; simpl; auto.
Qed.

End ProviderFacts.

Lemma ticks_fields {k} (config : ExtensionConfig) (p : Provider k) (period : Z) :
  _refreshTimer p = Some period ->
  forall n,
    _refreshTimer (ticks n config p) = Some period /\
    List.length (inflight (ticks n config p)) = (List.length (inflight p) + n)%nat /\
    _items (ticks n config p) = _items p /\
    fired (ticks n config p) = fired p.
Proof.
  intros Ht. induction n as [|n (IHt & IHl & IHi & IHf)].
  - simpl. rewrite Nat.add_0_r. auto.
  - change (ticks (S n) config p) with (tick config (ticks n config p)).
    set (q := ticks n config p) in *.
    destruct (refresh_begin_fields config false q) as (Hi & Ht' & _ & Hf & _ & Hl).
    unfold tick. rewrite IHt.
    rewrite Hi, Ht', Hf, Hl, length_app, IHl. simpl.
    repeat split; auto; lia.
Qed.

(** C1, as the code has it. For every resource kind, a tick of the
    refresh timer calls [refresh], and [refresh] launches the list
    subprocess whether or not an earlier refresh of that kind is still in
    flight: the tick adds one invocation to those in flight, and [n] ticks
    in a row with nothing settling in between leave [n] more of them in
    flight. Nothing bounds their number. *)
Theorem tick_launches_regardless (k : ResourceKind) (config : ExtensionConfig)
  (p : Provider k) (period : Z) :
  _refreshTimer p = Some period ->
  inflight (tick config p)
  = (inflight p
       ++ [{| launched := snd (execute_begin config (list_args k config));
              reader := false |}])%list /\
  forall n,
    List.length (inflight (ticks n config p)) = (List.length (inflight p) + n)%nat /\
    _items (ticks n config p) = _items p /\
    fired (ticks n config p) = fired p.
Proof.
  intros Ht. split.
  - unfold tick. rewrite Ht. apply refresh_begin_fields.
  - intros n. destruct (ticks_fields config p period Ht n) as (_ & H).
    exact H.
Qed.

Lemma tick_launches_regardless_witness :
  List.length
    (inflight (ticks 3 (loadConfig settings_default)
                 (new_Provider Images (loadConfig settings_default))))
  = 3%nat.
Proof.
  apply (proj2 (tick_launches_regardless Images (loadConfig settings_default)
                  (new_Provider Images (loadConfig settings_default)) 5000
                  eq_refl) 3%nat).
Defined.

(** Two ticks, the first refresh still pending: for the containers and for
    the images the second tick is not a no-op, and two list subprocesses
    are in flight. *)
Lemma tick_launches_regardless_counterexample :
  let config := loadConfig settings_default in
  let c1 := tick config (new_Provider Containers config) in
  let i1 := tick config (new_Provider Images config) in
  inflight_argv c1 = [["list"; "--format"; "json"; "--all"]] /\
  inflight_argv (tick config c1)
  = [["list"; "--format"; "json"; "--all"]; ["list"; "--format"; "json"; "--all"]] /\
  inflight_argv i1 = [["image"; "list"; "--format"; "json"]] /\
  inflight_argv (tick config i1)
  = [["image"; "list"; "--format"; "json"]; ["image"; "list"; "--format"; "json"]].
Proof.
  repeat split.
Qed.

Lemma execute_end_rejected (parse : string -> option value) (parseJson : bool)
  (message : string) (code : option Z) (stderr : option string) :
  success (snd (execute_end parse parseJson (Rejected message code stderr))) = false.
Proof. reflexivity. Qed.

(** C2, as the code has it. For every resource kind, when a refresh fails
    (the gateway returns an unsuccessful result) the list operation answers
    with the empty list: the cached snapshot is replaced by the empty list
    and a change notification is fired all the same. *)
Theorem failed_refresh_empties_and_notifies
  (parse : string -> option value)
  (js : Engine)
  (k : ResourceKind) (p : Provider k) (n : nat) (call : Pending)
  (o : ExecOutcome) :
  (forall A (compare : A -> A -> result Z), Array_sort js compare [] = Ok []) ->
  nth_error (inflight p) n = Some call ->
  success (snd (execute_end parse true o)) = false ->
  _items (fst (refresh_end parse js n o p)) = [] /\
  fired (fst (refresh_end parse js n o p))
  = (if emitter_disposed p then fired p else S (fired p)).
Proof.
  intros Hsort Hcall Hfail.
  destruct (refresh_end_failure parse js n o p call Hsort Hcall Hfail)
    as (Hi & Hf & _).
  auto.
Qed.

Lemma failed_refresh_empties_and_notifies_witness :
  let config := loadConfig settings_default in
  let p := tick config (new_Provider Volumes config) in
  _items (fst (refresh_end JSONFragment.parse Sample.engine 0
                 spawn_failure p)) = [] /\
  fired (fst (refresh_end JSONFragment.parse Sample.engine 0
                spawn_failure p)) = 1%nat.
Proof.
  cbv zeta.
  apply (failed_refresh_empties_and_notifies JSONFragment.parse
           Sample.engine Volumes
           (tick (loadConfig settings_default)
              (new_Provider Volumes (loadConfig settings_default)))
           0%nat
           {| launched := snd (execute_begin (loadConfig settings_default)
                                 (list_args Volumes (loadConfig settings_default)));
              reader := false |}
           spawn_failure).
  - intros k'. reflexivity.
  - reflexivity.
  - reflexivity.
Defined.

(** A provider that holds one container; the next refresh cannot spawn the
    subprocess: the snapshot is emptied and a second notification fired. *)
Lemma failed_refresh_empties_and_notifies_counterexample :
  let config := loadConfig settings_default in
  let p0 := tick config (new_Provider Containers config) in
  let p1 := fst (refresh_end JSONFragment.parse Sample.engine 0
                   (Resolved stdout_one_container "") p0) in
  let p2 := fst (refresh_end JSONFragment.parse Sample.engine 0
                   spawn_failure (tick config p1)) in
  _items p1 = [container_web] /\ fired p1 = 1%nat /\
  success (snd (execute_end JSONFragment.parse true spawn_failure)) = false /\
  _items p2 = [] /\ fired p2 = 2%nat.
Proof.
  repeat split.
Qed.

(* ===================================================================== *)
(** ** Reading the cached list *)
(* ===================================================================== *)

(** The first read of a provider that has not been populated refreshes. *)
Lemma first_read_refreshes
  (js : Engine)
  (k : ResourceKind) (config : ExtensionConfig) :
  snd (getChildren js config (new_Provider k config)) = Ok None /\
  inflight_argv (fst (getChildren js config (new_Provider k config)))
  = [list_args k config].
Proof.
  unfold new_Provider, startAutoRefresh.
  destruct (0 <? refreshInterval config); destruct k; split; reflexivity.
Qed.



(** The other kinds test the length of the cached list: while it is
    empty, every read refreshes. *)
Lemma empty_read_refreshes
  (js : Engine)
  (k : ResourceKind) (config : ExtensionConfig) (p : Provider k) :
  k <> Containers -> _items p = [] ->
  getChildren js config p = (refresh_begin config true p, Ok None).
Proof.
  intros Hk Hp. unfold getChildren, needs_refresh.
  destruct k; [contradiction| | |]; rewrite Hp; reflexivity.
Qed.

(** C4, where the code departs from it. A provider of images, of volumes
    or of networks whose first refresh has settled with an empty list has
    been populated, and nothing is in flight; yet a read of it launches the
    list subprocess again and does not return at once. The provider of
    containers, in the same state, returns the empty list and launches
    nothing. *)
Theorem read_after_empty_population :
  let config := loadConfig settings_default in
  let read k := getChildren Sample.engine config (populated_empty k config) in
  (fired (populated_empty Images config) = 1%nat /\
   inflight_argv (populated_empty Images config) = [] /\
   snd (read Images) = Ok None /\
   inflight_argv (fst (read Images)) = [["image"; "list"; "--format"; "json"]]) /\
  (fired (populated_empty Volumes config) = 1%nat /\
   inflight_argv (populated_empty Volumes config) = [] /\
   snd (read Volumes) = Ok None /\
   inflight_argv (fst (read Volumes)) = [["volume"; "list"; "--format"; "json"]]) /\
  (fired (populated_empty Networks config) = 1%nat /\
   inflight_argv (populated_empty Networks config) = [] /\
   snd (read Networks) = Ok None /\
   inflight_argv (fst (read Networks)) = [["network"; "list"; "--format"; "json"]]) /\
  (fired (populated_empty Containers config) = 1%nat /\
   inflight_argv (populated_empty Containers config) = [] /\
   snd (read Containers) = Ok (Some []) /\
   inflight_argv (fst (read Containers)) = []).
Proof.
  repeat split.
Qed.

(* ===================================================================== *)
(** ** The timers and the configuration *)
(* ===================================================================== *)

Lemma provider_set_provider (e : Extension) (k k' : ResourceKind)
  (p : Provider k) :
  _refreshTimer (provider (set_provider e k p) k')
  = if match k, k' with
       | Containers, Containers | Images, Images
       | Volumes, Volumes | Networks, Networks => true
       | _, _ => false
       end
    then _refreshTimer p else _refreshTimer (provider e k').
Proof.
  destruct k, k'; reflexivity.
Qed.

Lemma set_provider_timer (e : Extension) (k k' : ResourceKind) (p : Provider k) :
  _refreshTimer p = _refreshTimer (provider e k) ->
  _refreshTimer (provider (set_provider e k p) k') = _refreshTimer (provider e k').
Proof.
  intros H. rewrite provider_set_provider.
  destruct k, k'; try reflexivity; exact H.
Qed.

Lemma step_timer (parse : string -> option value)
  (js : Engine)
  (e : Extension) (ev : Event) (k : ResourceKind) :
  is_Disposed ev = false ->
  _refreshTimer (provider (step parse js e ev) k) = _refreshTimer (provider e k).
Proof.
  intros Hev. destruct ev as [k0|k0|k0|k0 n o|affects s|]; simpl.
  - apply set_provider_timer, tick_timer.
  - apply set_provider_timer, refresh_begin_fields.
  - apply set_provider_timer, getChildren_timer.
  - apply set_provider_timer, refresh_end_timer.
  - unfold onDidChangeConfiguration. destruct affects, k; reflexivity.
  - discriminate.
Qed.

Lemma run_timer (parse : string -> option value)
  (js : Engine)
  (trace : list Event) :
  forall (e : Extension) (k : ResourceKind),
    no_dispose trace = true ->
    _refreshTimer (provider (run parse js e trace) k)
    = _refreshTimer (provider e k).
Proof.
  induction trace as [|ev trace IH]; intros e k H.
  - reflexivity.
  - simpl in H. apply andb_prop in H as [Hev Htrace].
    apply negb_true_iff in Hev.
    unfold run in *. cbn [fold_left].
    rewrite (IH _ k Htrace). apply step_timer. exact Hev.
Qed.

Lemma activate_timer (s : Settings) (k : ResourceKind) :
  _refreshTimer (provider (activate s) k) = timer_at_construction (loadConfig s).
Proof.
  destruct k;
    cbv [activate provider containersProvider imagesProvider volumesProvider
         networksProvider new_Provider startAutoRefresh timer_at_construction];
    destruct (0 <? refreshInterval (loadConfig s)); reflexivity.
Qed.

(** C5, as the code has it. A change of the settings reaches the wrapper
    alone: its configuration is loaded anew, and no provider is told. For
    every resource kind, whatever happens to the extension short of its
    disposal (changes of the poll interval included), the timer of the
    provider is the one started when the provider was built: its period is
    the interval configured then, and no timer runs if that interval was
    not positive. *)
Theorem timers_keep_initial_interval (parse : string -> option value)
  (js : Engine)
  (s s' : Settings) (trace : list Event) (k : ResourceKind) :
  no_dispose trace = true ->
  _refreshTimer (provider (run parse js (activate s) trace) k)
  = timer_at_construction (loadConfig s) /\
  _config (onDidChangeConfiguration true s' (run parse js (activate s) trace))
  = loadConfig s' /\
  _refreshTimer
    (provider (onDidChangeConfiguration true s' (run parse js (activate s) trace)) k)
  = timer_at_construction (loadConfig s).
Proof.
  intros H.
  pose proof (run_timer parse js trace (activate s) k H) as Hrun.
  rewrite activate_timer in Hrun.
  split; [exact Hrun|]. split; [reflexivity|].
  rewrite <- Hrun. destruct k; reflexivity.
Qed.

Lemma timers_keep_initial_interval_witness :
  _refreshTimer
    (provider
       (run JSONFragment.parse Sample.engine
          (activate (settings_interval 5000))
          [TimerFired Images; ConfigurationChanged true (settings_interval 1000);
           Settled Images 0 (Resolved "[]" ""); TimerFired Images])
       Images)
  = Some 5000.
Proof.
  apply (proj1 (timers_keep_initial_interval JSONFragment.parse
                  Sample.engine (settings_interval 5000)
                  (settings_interval 1000)
                  [TimerFired Images;
                   ConfigurationChanged true (settings_interval 1000);
                   Settled Images 0 (Resolved "[]" ""); TimerFired Images]
                  Images eq_refl)).
Defined.

(** The interval goes from 5000 to 1000, then to 0: the wrapper holds
    the new interval, and the timers of the providers still run with a
    period of 5000. *)
Lemma timers_keep_initial_interval_counterexample :
  let e0 := activate (settings_interval 5000) in
  let e1 := onDidChangeConfiguration true (settings_interval 1000) e0 in
  let e2 := onDidChangeConfiguration true (settings_interval 0) e1 in
  refreshInterval (_config e1) = 1000 /\
  _refreshTimer (containersProvider e1) = Some 5000 /\
  _refreshTimer (imagesProvider e1) = Some 5000 /\
  _refreshTimer (volumesProvider e1) = Some 5000 /\
  _refreshTimer (networksProvider e1) = Some 5000 /\
  refreshInterval (_config e2) = 0 /\
  _refreshTimer (containersProvider e2) = Some 5000 /\
  _refreshTimer (imagesProvider e2) = Some 5000.
Proof.
  repeat split.
Qed.

(* ===================================================================== *)
(** ** Further properties: the gateway and the list operations *)
(* ===================================================================== *)

(** X1. Whatever the subprocess does, the result of the gateway has data
    exactly when it is a success and an error exactly when it is a failure;
    a success has exit code 0, and a subprocess that was rejected gives a
    failure whose exit code is not 0. *)
Theorem gateway_result_shape (parse : string -> option value)
  (parseJson : bool) (o : ExecOutcome) :
  (success (snd (execute_end parse parseJson o)) = true ->
   exitCode (snd (execute_end parse parseJson o)) = 0 /\
   (exists d, data (snd (execute_end parse parseJson o)) = Some d) /\
   error (snd (execute_end parse parseJson o)) = None) /\
  (success (snd (execute_end parse parseJson o)) = false ->
   data (snd (execute_end parse parseJson o)) = None /\
   exists e, error (snd (execute_end parse parseJson o)) = Some e) /\
  (forall message code stderr,
     o = Rejected message code stderr ->
     success (snd (execute_end parse parseJson o)) = false /\
     exitCode (snd (execute_end parse parseJson o)) <> 0).
Proof.
  destruct o as [stdout stderr|message code stderr]; unfold execute_end.
  - split; [|split].
    + destruct (parseJson && negb (trim stdout =? "")%string);
        [destruct (parse stdout)|]; simpl; intros H; try discriminate; eauto.
    + destruct (parseJson && negb (trim stdout =? "")%string);
        [destruct (parse stdout)|]; simpl; intros H; try discriminate; eauto.
    + intros m c e H. discriminate.
  - split; [|split].
    + simpl. discriminate.
    + simpl. eauto.
    + intros m c e _. simpl. split; [reflexivity|].
      destruct code as [c0|]; simpl; [|discriminate].
      destruct (c0 =? 0) eqn:E; simpl; [discriminate|].
      apply Z.eqb_neq in E. exact E.
Qed.

Lemma trimEnd_keeps_head (c : ascii) (s : string) :
  is_space c = false -> trimEnd (String c s) = String c (trimEnd s).
Proof.
  intros Hc. simpl. rewrite Hc. destruct (trimEnd s); reflexivity.
Qed.

Lemma trimEnd_idempotent (s : string) : trimEnd (trimEnd s) = trimEnd s.
Proof.
  induction s as [|c s IH]; [reflexivity|].
  simpl. destruct (trimEnd s) as [|d t] eqn:E.
  - destruct (is_space c) eqn:Hc; [reflexivity|].
    simpl. rewrite Hc. reflexivity.
  - change (trimEnd (String c (String d t))
            = String c (String d t)).
    simpl. simpl in IH. rewrite IH. reflexivity.
Qed.

Lemma trimStart_head (s : string) :
  trimStart s = "" \/
  exists c r, trimStart s = String c r /\ is_space c = false.
Proof.
  induction s as [|c s IH]; [left; reflexivity|].
  simpl. destruct (is_space c) eqn:Hc; [exact IH|].
  right. exists c, s. auto.
Qed.

(** A trimmed string has no white space left at either end. *)
Lemma trim_idempotent (s : string) : trim (trim s) = trim s.
Proof.
  unfold trim.
  destruct (trimStart_head s) as [E|(c & r & E & Hc)]; rewrite E.
  - reflexivity.
  - rewrite (trimEnd_keeps_head c r Hc). simpl trimStart. rewrite Hc.
    rewrite <- (trimEnd_keeps_head c r Hc). apply trimEnd_idempotent.
Qed.

(** X2. The CLI counts as available exactly when the version subprocess
    was not rejected, whatever it printed. The version reported is the
    trimmed output: it is reported only for an output that is not empty,
    it carries no white space at either end, and reading it never
    throws. *)
Theorem version_is_trimmed_output (parse : string -> option value)
  (o : ExecOutcome) :
  (isAvailable_end parse o = true <-> exists out err, o = Resolved out err) /\
  (exists v, getVersion_end parse o = Ok v) /\
  (forall v, getVersion_end parse o = Ok (Some v) ->
     trim v = v /\
     exists out err, o = Resolved out err /\ out <> "" /\ v = trim out).
Proof.
  destruct o as [out err|message code stderr].
  - split; [|split].
    + split; [eauto|reflexivity].
    + unfold getVersion_end, execute_end, has_data. simpl.
      destruct (out =? "")%string; simpl; eauto.
    + intros v. unfold getVersion_end, execute_end, has_data. simpl.
      destruct (String.eqb_spec out ""); simpl; [discriminate|].
      intros H. injection H as <-. split; [apply trim_idempotent|].
      exists out, err. auto.
  - split; [|split].
    + split; [discriminate|]. intros (out & err & H). discriminate.
    + unfold getVersion_end, execute_end, has_data. simpl. eauto.
    + intros v. unfold getVersion_end, execute_end, has_data. simpl.
      discriminate.
Qed.

Lemma version_is_trimmed_output_witness :
  getVersion_end JSONFragment.parse (Resolved "  container 0.4.1
" "") = Ok (Some "container 0.4.1") /\
  trim "container 0.4.1" = "container 0.4.1".
Proof.
  split; [reflexivity|].
  apply (proj2 (proj2 (version_is_trimmed_output JSONFragment.parse
                         (Resolved "  container 0.4.1
" ""))) "container 0.4.1" eq_refl).
Defined.

Lemma bind_Ok {A B} (r : result A) (k : A -> result B) (b : B) :
  bind r k = Ok b -> exists a, r = Ok a /\ k a = Ok b.
Proof.
  destruct r as [a|e]; simpl; [eauto|discriminate].
Qed.

Lemma mapM_length {A B} (f : A -> result B) (l : list A) :
  forall l', mapM f l = Ok l' -> List.length l' = List.length l.
Proof.
  induction l as [|x l IH]; simpl; intros l' H.
  - injection H as <-. reflexivity.
  - apply bind_Ok in H as (y & _ & H).
    apply bind_Ok in H as (ys & Hys & H).
    injection H as <-. simpl. rewrite (IH ys Hys). reflexivity.
Qed.

Lemma mapM_In {A B} (f : A -> result B) (l : list A) :
  forall l' y, mapM f l = Ok l' -> In y l' -> exists x, In x l /\ f x = Ok y.
Proof.
  induction l as [|x l IH]; simpl; intros l' y H Hy.
  - injection H as <-. destruct Hy.
  - apply bind_Ok in H as (y0 & Hy0 & H).
    apply bind_Ok in H as (ys & Hys & H).
    injection H as <-. destruct Hy as [<-|Hy].
    + exists x. auto.
    + destruct (IH ys y Hys Hy) as (x' & Hx' & E). exists x'. auto.
Qed.

Lemma mapM_throws {A B} (f : A -> result B) (E : exn) (l : list A) (x : A) :
  (forall y e, f y = Throw e -> e = E) ->
  In x l -> f x = Throw E -> mapM f l = Throw E.
Proof.
  intros Hall. induction l as [|y l IH]; simpl; intros Hin Hx; [destruct Hin|].
  destruct (f y) as [b|e] eqn:Ey.
  - destruct Hin as [->|Hin]; [congruence|].
    simpl. rewrite (IH Hin Hx). reflexivity.
  - simpl. rewrite (Hall y e Ey). reflexivity.
Qed.

(** X3. A list of containers or of images that is returned has one entry
    for each record of the decoded array, in number: no record is dropped
    or added; and without data the list is empty. *)
Theorem list_keeps_every_record (js : Engine) (r : CliResult) :
  (forall l, listContainers_end r = Ok l ->
     List.length l = if has_data r then List.length (rawData r) else 0%nat) /\
  (forall l, listImages_end js r = Ok l ->
     List.length l = if has_data r then List.length (rawData r) else 0%nat).
Proof.
  unfold listContainers_end, listImages_end.
  destruct (has_data r); split; intros l H;
    try (injection H as <-; reflexivity);
    eapply mapM_length; exact H.
Qed.

Lemma list_keeps_every_record_witness :
  exists l,
    listContainers_end
      {| success := true;
         data := Some (VArr [VObj [("status", VStr "running")]; VObj []; VNum 7]);
         error := None; exitCode := 0 |} = Ok l /\
    List.length l = 3%nat.
Proof.
  eexists. split; [reflexivity|].
  apply (proj1 (list_keeps_every_record Sample.engine
                  {| success := true;
                     data := Some (VArr [VObj [("status", VStr "running")];
                                         VObj []; VNum 7]);
                     error := None; exitCode := 0 |})).
  reflexivity.
Defined.

Lemma get_throws (v : value) (k : string) (e : exn) :
  get v k = Throw e -> e = TypeError.
Proof.
  destruct v; simpl; intros H; try discriminate; injection H as <-; reflexivity.
Qed.

Lemma parsePort_throws (p : value) (e : exn) :
  parsePort p = Throw e -> e = TypeError.
Proof.
  destruct p; simpl; intros H; try discriminate;
    injection H as <-; reflexivity.
Qed.

Lemma mapM_throws_only {A B} (f : A -> result B) (E : exn) (l : list A) (e : exn) :
  (forall y e', f y = Throw e' -> e' = E) -> mapM f l = Throw e -> e = E.
Proof.
  intros Hall. induction l as [|y l IH]; simpl; [discriminate|].
  destruct (f y) as [b|e'] eqn:Ey; simpl.
  - destruct (mapM f l) as [bs|e'']; simpl; [discriminate|].
    intros H. injection H as <-. apply IH. reflexivity.
  - intros H. injection H as <-. exact (Hall y e' Ey).
Qed.

(** The parser of containers throws nothing but a [TypeError]. *)
Lemma parseRawContainer_throws (raw : value) (e : exn) :
  parseRawContainer raw = Throw e -> e = TypeError.
Proof.
  unfold parseRawContainer.
  destruct (get raw "configuration") as [cfg|e0] eqn:E0; cbn [bind];
    [|intros H; injection H as <-; exact (get_throws _ _ _ E0)].
  destruct (get (or_else cfg (VObj [])) "image") as [img|e1] eqn:E1; cbn [bind];
    [|intros H; injection H as <-; exact (get_throws _ _ _ E1)].
  destruct (get (or_else cfg (VObj [])) "publishedPorts") as [pp|e2] eqn:E2;
    cbn [bind]; [|intros H; injection H as <-; exact (get_throws _ _ _ E2)].
  destruct (call_map (or_else pp (VArr [])) parsePort) as [ps|e3] eqn:E3;
    cbn [bind].
  2:{ intros H. injection H as <-. unfold call_map in E3.
      destruct (or_else pp (VArr [])); try (injection E3 as <-; reflexivity).
      exact (mapM_throws_only parsePort TypeError _ _ parsePort_throws E3). }
  destruct (get raw "status") as [st|e4] eqn:E4; cbn [bind];
    [|intros H; injection H as <-; exact (get_throws _ _ _ E4)].
  destruct (statusOf st) as [s|e5] eqn:E5; cbn [bind].
  2:{ intros H. injection H as <-. unfold statusOf, call_toLowerCase in E5.
      destruct (or_else st (VStr "")); simpl in E5; try discriminate;
        injection E5 as <-; reflexivity. }
  destruct (get (or_else cfg (VObj [])) "id") as [i|e6] eqn:E6; cbn [bind];
    [|intros H; injection H as <-; exact (get_throws _ _ _ E6)].
  destruct (get (or_else img (VObj [])) "reference") as [rf|e7] eqn:E7; cbn [bind];
    [|intros H; injection H as <-; exact (get_throws _ _ _ E7)].
  destruct (get (or_else cfg (VObj [])) "labels") as [lb|e8] eqn:E8; cbn [bind];
    [|intros H; injection H as <-; exact (get_throws _ _ _ E8)].
  discriminate.
Qed.

(** X4. One [null] among the records of a container list makes the whole
    list operation throw: the refresh is rejected, and the provider keeps
    its snapshot, fires no notification and does not count as loaded any
    more than before; only the call in flight is gone. *)
Theorem null_record_rejects_refresh (parse : string -> option value)
  (js : Engine)
  (p : Provider Containers) (n : nat) (call : Pending)
  (stdout stderr : string) (records : list value) :
  nth_error (inflight p) n = Some call ->
  trim stdout <> "" ->
  parse stdout = Some (VArr records) ->
  In VNull records ->
  snd (refresh_end parse js n (Resolved stdout stderr) p) = Throw TypeError /\
  _items (fst (refresh_end parse js n (Resolved stdout stderr) p)) = _items p /\
  fired (fst (refresh_end parse js n (Resolved stdout stderr) p)) = fired p /\
  _initialLoadDone (fst (refresh_end parse js n (Resolved stdout stderr) p))
  = _initialLoadDone p /\
  inflight (fst (refresh_end parse js n (Resolved stdout stderr) p))
  = remove_nth n (inflight p).
Proof.
  intros Hcall Hblank Hparse Hnull.
  unfold refresh_end. rewrite Hcall.
  assert (Hlist : list_end js Containers
                    (snd (execute_end parse true (Resolved stdout stderr)))
                  = Throw TypeError).
  { unfold execute_end. apply String.eqb_neq in Hblank.
    rewrite Hblank, Hparse. cbn.
    apply (mapM_throws parseRawContainer TypeError records VNull
             parseRawContainer_throws Hnull eq_refl). }
  rewrite Hlist. simpl. auto.
Qed.

Lemma null_record_rejects_refresh_witness :
  let config := loadConfig settings_default in
  let p := tick config (populated_empty Containers config) in
  snd (refresh_end JSONFragment.parse Sample.engine 0
         (Resolved "[{}, null]" "") p) = Throw TypeError /\
  fired (fst (refresh_end JSONFragment.parse Sample.engine 0
                (Resolved "[{}, null]" "") p)) = 1%nat.
Proof.
  cbv zeta.
  destruct (null_record_rejects_refresh JSONFragment.parse Sample.engine
              (tick (loadConfig settings_default)
                 (populated_empty Containers (loadConfig settings_default)))
              0%nat
              {| launched := snd (execute_begin (loadConfig settings_default)
                                    (list_args Containers
                                       (loadConfig settings_default)));
                 reader := false |}
              "[{}, null]" "" [VObj []; VNull])
    as (H1 & _ & H2 & _).
  - reflexivity.
  - simpl. discriminate.
  - reflexivity.
  - simpl. auto.
  - split; [exact H1|]. rewrite H2. reflexivity.
Defined.






(* ===================================================================== *)
(** ** Further properties: argument vectors and command handlers *)
(* ===================================================================== *)

(** X6. In every operation on one container, image, volume or network the
    target is the last token and no flag depends on it: whatever the id
    is, it is passed as one token after the flags. A stop time is passed
    whenever it is given, zero included; an empty kill signal is left
    out. *)
Theorem operation_target_is_last_token :
  target_last startContainer_args /\
  (forall time, target_last (fun cid => stopContainer_args cid time)) /\
  (forall signal, target_last (fun cid => killContainer_args cid signal)) /\
  (forall force, target_last (fun cid => deleteContainer_args cid force)) /\
  (forall force, target_last (fun iid => deleteImage_args iid force)) /\
  (forall force, target_last (fun vn => deleteVolume_args vn force)) /\
  target_last deleteNetwork_args /\
  target_last inspectContainer_args /\ target_last inspectImage_args /\
  target_last inspectVolume_args /\ target_last inspectNetwork_args /\
  (forall cid t,
     stopContainer_args cid (Some t) = ["stop"; "--time"; num_toString t; cid]) /\
  (forall cid, stopContainer_args cid (Some 0) = ["stop"; "--time"; "0"; cid]) /\
  (forall cid, killContainer_args cid (Some "") = ["kill"; cid]).
Proof.
  unfold target_last.
  repeat match goal with
         | |- _ /\ _ => split
         end.
  - exists ["start"]. reflexivity.
  - intros [t|]; eexists; intros target; reflexivity.
  - intros signal. exists ("kill" :: tokens_str "--signal" signal).
    intros target. unfold killContainer_args. rewrite push_str_tokens.
    unfold push. rewrite <- app_assoc. reflexivity.
  - intros [|]; eexists; intros target; reflexivity.
  - intros [|]; eexists; intros target; reflexivity.
  - intros [|]; eexists; intros target; reflexivity.
  - exists ["network"; "delete"]. reflexivity.
  - exists ["inspect"; "--format"; "json"]. reflexivity.
  - exists ["image"; "inspect"; "--format"; "json"]. reflexivity.
  - exists ["volume"; "inspect"; "--format"; "json"]. reflexivity.
  - exists ["network"; "inspect"; "--format"; "json"]. reflexivity.
  - reflexivity.
  - reflexivity.
  - reflexivity.
Qed.

Lemma name_char_not_space (c : ascii) :
  is_name_char c = true -> is_space c = false.
Proof.
  destruct c as [[] [] [] [] [] [] [] []]; vm_compute; intros H;
    first [reflexivity | discriminate H].
Qed.

Lemma alnum_is_name_char (c : ascii) : is_alnum c = true -> is_name_char c = true.
Proof.
  intros H. unfold is_name_char. rewrite H. reflexivity.
Qed.

Lemma alnum_not_dash (c : ascii) : is_alnum c = true -> Ascii.eqb "-"%char c = false.
Proof.
  destruct c as [[] [] [] [] [] [] [] []]; vm_compute; intros H;
    first [reflexivity | discriminate H].
Qed.

Lemma trimEnd_no_space (s : string) :
  all_chars (fun c => negb (is_space c)) s = true -> trimEnd s = s.
Proof.
  induction s as [|c s IH]; [reflexivity|].
  cbn [all_chars]. intros H. apply andb_prop in H as [Hc Hs].
  apply negb_true_iff in Hc.
  rewrite (trimEnd_keeps_head c s Hc), (IH Hs). reflexivity.
Qed.

Lemma all_chars_impl (f g : ascii -> bool) (s : string) :
  (forall c, f c = true -> g c = true) ->
  all_chars f s = true -> all_chars g s = true.
Proof.
  intros Hfg. induction s as [|c s IH]; [reflexivity|].
  cbn [all_chars]. intros H. apply andb_prop in H as [Hc Hs].
  rewrite (Hfg c Hc), (IH Hs). reflexivity.
Qed.

Lemma name_pattern_trim (s : string) :
  name_pattern_test s = true -> trim s = s.
Proof.
  destruct s as [|c s]; [discriminate|].
  cbn [name_pattern_test]. intros H. apply andb_prop in H as [Hc Hs].
  pose proof (name_char_not_space c (alnum_is_name_char c Hc)) as Hsp.
  unfold trim. simpl trimStart. rewrite Hsp.
  apply trimEnd_no_space. cbn [all_chars]. rewrite Hsp. simpl.
  apply (all_chars_impl is_name_char); [|exact Hs].
  intros d Hd. rewrite (name_char_not_space d Hd). reflexivity.
Qed.

Lemma run_script_Finish (parse : string -> option value) (inputs : list Input)
  (notice : Notice) (refreshes : bool) :
  run_script parse inputs (Finish notice refreshes) = ([], Some (notice, refreshes)).
Proof.
  destruct inputs; reflexivity.
Qed.

(** X7. The validator of volume and network names accepts a name exactly
    when it starts with a letter or a digit and goes on with letters,
    digits, underscores, dots and dashes only. A name it accepts is not
    empty, has no white space to trim and does not start with a dash; the
    create handler passes it to the CLI unchanged, as the one token after
    volume create. *)
Theorem accepted_name_reaches_cli (parse : string -> option value)
  (what s : string) :
  (validateName what s = None <-> name_pattern_test s = true) /\
  (validateName what s = None ->
   s <> "" /\ trim s = s /\ startsWith s "-" = false /\
   forall o rest,
     fst (run_script parse (Answer (Some s) :: Settles o :: rest)
            createVolumeCommand)
     = [["volume"; "create"; s]]).
Proof.
  assert (Hiff : validateName what s = None <-> name_pattern_test s = true).
  { unfold validateName. split.
    - destruct ((s =? "")%string || (len (trim s) =? 0)); [discriminate|].
      destruct (name_pattern_test s); [reflexivity|discriminate].
    - intros H. rewrite (name_pattern_trim s H), H.
      destruct s as [|c s]; [discriminate|].
      simpl. reflexivity. }
  split; [exact Hiff|].
  intros Hv. apply Hiff in Hv.
  pose proof (name_pattern_trim s Hv) as Htrim.
  destruct s as [|c s]; [discriminate|].
  split; [discriminate|]. split; [exact Htrim|]. split.
  - cbn [name_pattern_test] in Hv. apply andb_prop in Hv as [Hc _].
    unfold startsWith. change "-" with (String "-"%char EmptyString).
    rewrite prefix_char. exact (alnum_not_dash c Hc).
  - intros o rest. unfold createVolumeCommand. cbn [run_script].
    unfold given_str. change (negb (String c s =? "")%string) with true.
    cbv iota. rewrite Htrim. unfold conclude.
    destruct (success (snd (execute_end parse false o)));
      rewrite run_script_Finish; reflexivity.
Qed.

Lemma accepted_name_reaches_cli_witness :
  validateName "Volume" "pg-data_1.0" = None /\
  validateName "Volume" "-rf" <> None /\
  validateName "Volume" "my volume" <> None /\
  fst (run_script JSONFragment.parse
         [Answer (Some "pg-data_1.0"); Settles (Resolved "pg-data_1.0" "")]
         createVolumeCommand)
  = [["volume"; "create"; "pg-data_1.0"]].
Proof.
  split; [reflexivity|]. split; [discriminate|]. split; [discriminate|].
  apply (proj2 (accepted_name_reaches_cli JSONFragment.parse "Volume"
                  "pg-data_1.0") eq_refl).
Defined.

(** X8. The build handler hands the CLI the vector build, the Dockerfile
    if one was found, the trimmed tag if it is not blank, --no-cache if it
    was picked, and the folder last. The option to always pull the base
    image changes nothing: picked or not, the terminal is the same, and
    the vector is the same for every value of the [pull] field. *)
Theorem build_ignores_pull (config : ExtensionConfig) (buildContext : string)
  (dockerfile : option string) (t : string) (picks : list string) :
  t <> "" ->
  buildImageCommand config buildContext dockerfile (Some t) (Some ("pull" :: picks))
  = buildImageCommand config buildContext dockerfile (Some t) (Some picks) /\
  (exists term,
     buildImageCommand config buildContext dockerfile (Some t) (Some picks)
     = Some term /\
     Terminal.shellPath term = containerPath config /\
     Terminal.shellArgs term
     = (["build"] ++ tokens_str "--file" dockerfile
                  ++ tokens_str "--tag" (Some (trim t))
                  ++ tokens_flag "--no-cache"
                       (Some (existsb (String.eqb "noCache") picks))
                  ++ [buildContext])%list) /\
  (forall o b,
     buildImage_args
       {| BuildImageOptions.context := BuildImageOptions.context o;
          BuildImageOptions.dockerfile := BuildImageOptions.dockerfile o;
          BuildImageOptions.tag := BuildImageOptions.tag o;
          BuildImageOptions.tags := BuildImageOptions.tags o;
          BuildImageOptions.buildArgs := BuildImageOptions.buildArgs o;
          BuildImageOptions.target := BuildImageOptions.target o;
          BuildImageOptions.platform := BuildImageOptions.platform o;
          BuildImageOptions.noCache := BuildImageOptions.noCache o;
          BuildImageOptions.pull := b;
          BuildImageOptions.labels := BuildImageOptions.labels o |}
     = buildImage_args o).
Proof.
  intros Ht. apply String.eqb_neq in Ht.
  unfold buildImageCommand, given_str. rewrite Ht. cbn [negb].
  split; [reflexivity|]. split; [|intros o b; reflexivity].
  eexists. split; [reflexivity|]. split; [reflexivity|].
  cbn [buildImage Terminal.shellArgs]. unfold buildImage_args.
  cbn [BuildImageOptions.dockerfile BuildImageOptions.tag BuildImageOptions.tags
       BuildImageOptions.buildArgs BuildImageOptions.target
       BuildImageOptions.platform BuildImageOptions.noCache
       BuildImageOptions.labels BuildImageOptions.context some_value].
  rewrite !push_str_tokens, !push_flag_tokens, !push_each_tokens.
  unfold push. cbn [tokens_each tokens_str]. rewrite !app_nil_r.
  rewrite <- !app_assoc. reflexivity.
Qed.

Lemma build_ignores_pull_witness :
  exists term,
    buildImageCommand (loadConfig settings_default) "/work/app"
      (Some "/work/app/Dockerfile") (Some " app:latest ")
      (Some ["pull"; "noCache"]) = Some term /\
    Terminal.shellArgs term
    = ["build"; "--file"; "/work/app/Dockerfile"; "--tag"; "app:latest";
       "--no-cache"; "/work/app"].
Proof.
  destruct (build_ignores_pull (loadConfig settings_default) "/work/app"
              (Some "/work/app/Dockerfile") " app:latest " ["noCache"])
    as (Hsame & (term & Hterm & _ & Hargs) & _).
  - discriminate.
  - exists term. split.
    + rewrite Hsame. exact Hterm.
    + rewrite Hargs. reflexivity.
Defined.

(** X9. Restart is stop, then start only if the stop succeeded. When the
    stop is rejected the handler runs nothing else, reports the error of
    the stop and does not refresh; when the stop succeeds it runs start,
    and it refreshes exactly when the start succeeds too. *)
Theorem restart_stops_then_starts (parse : string -> option value)
  (cid : string) (name : option string) :
  cid <> "" ->
  (forall message code stderr rest,
     run_script parse (Settles (Rejected message code stderr) :: rest)
       (restartContainerCommand (Some cid) name)
     = ([["stop"; cid]],
        Some (Error ("Failed to restart container: "
                       ++ show_error
                            (snd (execute_end parse false
                                    (Rejected message code stderr)))),
              false))) /\
  (forall out err o rest,
     fst (run_script parse (Settles (Resolved out err) :: Settles o :: rest)
            (restartContainerCommand (Some cid) name))
     = [["stop"; cid]; ["start"; cid]] /\
     exists notice,
       snd (run_script parse (Settles (Resolved out err) :: Settles o :: rest)
              (restartContainerCommand (Some cid) name))
       = Some (notice, success (snd (execute_end parse false o)))).
Proof.
  intros Hcid. apply String.eqb_neq in Hcid.
  unfold restartContainerCommand, given_str. rewrite Hcid. cbn [negb].
  split.
  - intros message code stderr rest.
    cbn [run_script execute_end snd success negb]. unfold conclude.
    cbn [success]. rewrite run_script_Finish. reflexivity.
  - intros out err o rest.
    cbn [run_script].
    change (snd (execute_end parse false (Resolved out err))) with (raw_text out).
    cbn [raw_text success negb run_script]. unfold conclude.
    destruct (success (snd (execute_end parse false o)));
      rewrite run_script_Finish; cbn [fst snd];
      (split; [reflexivity | eexists; reflexivity]).
Qed.

Lemma restart_stops_then_starts_witness :
  run_script JSONFragment.parse
    [Settles (Rejected "Command failed" (Some 1) (Some "no such container"))]
    (restartContainerCommand (Some "web") (Some "web"))
  = ([["stop"; "web"]],
     Some (Error "Failed to restart container: no such container", false)).
Proof.
  apply (proj1 (restart_stops_then_starts JSONFragment.parse "web" (Some "web")
                  ltac:(discriminate))
           "Command failed" (Some 1) (Some "no such container") []).
Defined.

Lemma Guarded_run (parse : string -> option value) (s : Script)
  (last : option CliResult) :
  Guarded last s ->
  forall inputs notice,
    snd (run_script parse inputs s) = Some (notice, true) ->
    exists r message,
      last_result parse last inputs s = Some r /\
      success r = true /\ notice = Info message.
Proof.
  induction 1 as [last n|r message Hr|last q k Hk IH|last k Hk IH
                  |last args pj k Hk IH];
    intros inputs notice Hrun.
  - rewrite run_script_Finish in Hrun. discriminate.
  - rewrite run_script_Finish in Hrun. injection Hrun as <-.
    exists r, message. destruct inputs; auto.
  - destruct inputs as [|[a|b|o] rest]; try discriminate.
    exact (IH a rest notice Hrun).
  - destruct inputs as [|[a|b|o] rest]; try discriminate.
    exact (IH b rest notice Hrun).
  - destruct inputs as [|[a|b|o] rest]; try discriminate.
    cbn [run_script last_result] in *.
    destruct (run_script parse rest (k (snd (execute_end parse pj o))))
      as [ran ending] eqn:E.
    cbn [snd] in Hrun.
    apply (IH _ rest notice). rewrite E. exact Hrun.
Qed.

Lemma Guarded_conclude (done failed : string) (r : CliResult) :
  Guarded (Some r) (conclude done failed r).
Proof.
  unfold conclude. destruct (success r) eqn:E.
  - apply Guarded_refresh. exact E.
  - apply Guarded_quiet.
Qed.

Lemma Guarded_confirmed (config : ExtensionConfig) (question : string)
  (go : Script) (last : option CliResult) :
  Guarded last go -> Guarded last (confirmed config question go).
Proof.
  intros Hgo. unfold confirmed. destruct (confirmBeforeDelete config); [|exact Hgo].
  apply Guarded_Ask. intros [answer|]; [|apply Guarded_quiet].
  destruct (negb (answer =? "Delete")%string); [apply Guarded_quiet|exact Hgo].
Qed.

Lemma handlers_Guarded (config : ExtensionConfig) (target name : option string)
  (networkName : string) (s : Script) :
  In s (handlers config target name networkName) -> Guarded None s.
Proof.
  unfold handlers. cbn [In].
  intros [<-|[<-|[<-|[<-|[<-|[<-|[<-|[<-|[<-|[]]]]]]]]]].
  - unfold startContainerCommand.
    destruct target as [cid|]; [destruct (given_str (Some cid))|];
      try apply Guarded_quiet.
    apply Guarded_Exec. intros r. apply Guarded_conclude.
  - unfold stopContainerCommand.
    destruct target as [cid|]; [destruct (given_str (Some cid))|];
      try apply Guarded_quiet.
    apply Guarded_Exec. intros r. apply Guarded_conclude.
  - unfold restartContainerCommand.
    destruct target as [cid|]; [destruct (given_str (Some cid))|];
      try apply Guarded_quiet.
    apply Guarded_Exec. intros r.
    destruct (negb (success r)); [apply Guarded_conclude|].
    apply Guarded_Exec. intros r'. apply Guarded_conclude.
  - unfold deleteContainerCommand.
    destruct target as [cid|]; [destruct (given_str (Some cid))|];
      try apply Guarded_quiet.
    apply Guarded_confirmed, Guarded_Exec. intros r. apply Guarded_conclude.
  - unfold createVolumeCommand. apply Guarded_Ask.
    intros [n|]; [destruct (given_str (Some n))|]; try apply Guarded_quiet.
    apply Guarded_Exec. intros r. apply Guarded_conclude.
  - unfold deleteVolumeCommand.
    destruct target as [vn|]; [destruct (given_str (Some vn))|];
      try apply Guarded_quiet.
    apply Guarded_confirmed, Guarded_Exec. intros r. apply Guarded_conclude.
  - unfold pruneVolumesCommand. apply Guarded_Ask.
    intros [answer|]; [destruct (negb (answer =? "Prune")%string)|];
      try apply Guarded_quiet.
    apply Guarded_Exec. intros r. apply Guarded_conclude.
  - unfold createNetworkCommand. apply Guarded_Ask.
    intros [n|]; [destruct (given_str (Some n))|]; try apply Guarded_quiet.
    apply Guarded_Ask. intros subnet.
    assert (Hrest : forall gateway,
               Guarded None
                 (Pick (fun internalPick =>
                          match internalPick with
                          | None => Finish Nothing false
                          | Some internal_ =>
                              Exec (createNetwork_args
                                      {| CreateNetworkOptions.name := trim n;
                                         CreateNetworkOptions.driver := None;
                                         CreateNetworkOptions.subnet :=
                                           trimmed_or_undefined subnet;
                                         CreateNetworkOptions.gateway :=
                                           trimmed_or_undefined gateway;
                                         CreateNetworkOptions.internal :=
                                           Some internal_;
                                         CreateNetworkOptions.labels := None |})
                                false
                                (conclude ("Network created: " ++ n)
                                          "Failed to create network: ")
                          end))).
    { intros gateway. apply Guarded_Pick. intros [b|]; [|apply Guarded_quiet].
      apply Guarded_Exec. intros r. apply Guarded_conclude. }
    destruct (given_str subnet); [apply Guarded_Ask; exact Hrest|apply Hrest].
  - unfold deleteNetworkCommand.
    destruct target as [nid|]; [destruct (given_str (Some nid))|];
      try apply Guarded_quiet.
    apply Guarded_confirmed, Guarded_Exec. intros r. apply Guarded_conclude.
Qed.

(** X10. The handlers that start, stop, restart and delete a container,
    create, delete and prune volumes, and create and delete a network
    refresh their provider only after success: whatever they are
    answered, when one of them ends with a refresh it has run at least
    one operation, the last operation it ran succeeded, and the message
    it shows is one of success. *)
Theorem handlers_refresh_after_success (parse : string -> option value)
  (config : ExtensionConfig) (target name : option string)
  (networkName : string) (s : Script) (inputs : list Input) (notice : Notice) :
  In s (handlers config target name networkName) ->
  snd (run_script parse inputs s) = Some (notice, true) ->
  exists r message,
    last_result parse None inputs s = Some r /\
    success r = true /\ notice = Info message.
Proof.
  intros Hs Hrun.
  exact (Guarded_run parse s None
           (handlers_Guarded config target name networkName s Hs)
           inputs notice Hrun).
Qed.

Lemma handlers_refresh_after_success_witness :
  exists r message,
    last_result JSONFragment.parse None
      [Answer (Some "Delete"); Settles (Resolved "web" "")]
      (deleteContainerCommand (loadConfig settings_default) (Some "web") None)
    = Some r /\
    success r = true /\ Info "Container deleted: web" = Info message.
Proof.
  apply (handlers_refresh_after_success JSONFragment.parse
           (loadConfig settings_default) (Some "web") None "bridge"
           (deleteContainerCommand (loadConfig settings_default) (Some "web") None)
           [Answer (Some "Delete"); Settles (Resolved "web" "")]
           (Info "Container deleted: web")).
  - simpl. auto.
  - reflexivity.
Defined.

(** X11. With confirmBeforeDelete set, deleting a container, a volume or a
    network runs nothing unless the answer to the warning is Delete: on a
    dismissal or any other answer the handler ends in silence, without a
    refresh. On Delete, or with the setting off and no question asked, it
    runs the delete operation, forced for containers and volumes. *)
Theorem delete_waits_for_confirmation (parse : string -> option value)
  (config : ExtensionConfig) (target : string) (name : option string)
  (networkName : string) :
  target <> "" ->
  (confirmBeforeDelete config = true ->
   forall answer rest,
     answer <> Some "Delete" ->
     run_script parse (Answer answer :: rest)
       (deleteContainerCommand config (Some target) name)
     = ([], Some (Nothing, false)) /\
     run_script parse (Answer answer :: rest)
       (deleteVolumeCommand config (Some target))
     = ([], Some (Nothing, false)) /\
     run_script parse (Answer answer :: rest)
       (deleteNetworkCommand config (Some target) networkName)
     = ([], Some (Nothing, false))) /\
  (forall o rest,
     let inputs := if confirmBeforeDelete config
                   then Answer (Some "Delete") :: Settles o :: rest
                   else Settles o :: rest in
     fst (run_script parse inputs (deleteContainerCommand config (Some target) name))
     = [["delete"; "--force"; target]] /\
     fst (run_script parse inputs (deleteVolumeCommand config (Some target)))
     = [["volume"; "delete"; "--force"; target]] /\
     fst (run_script parse inputs
            (deleteNetworkCommand config (Some target) networkName))
     = [["network"; "delete"; target]]).
Proof.
  intros Htarget. apply String.eqb_neq in Htarget.
  unfold deleteContainerCommand, deleteVolumeCommand, deleteNetworkCommand,
    given_str, confirmed.
  rewrite Htarget. cbn [negb].
  split.
  - intros Hc answer rest Hanswer. rewrite Hc. cbn [run_script].
    destruct answer as [a|].
    + destruct (String.eqb_spec a "Delete") as [->|Hne]; [congruence|].
      cbn [negb]. rewrite !run_script_Finish. auto.
    + rewrite !run_script_Finish. auto.
  - intros o rest. cbv zeta.
    destruct (confirmBeforeDelete config); cbn [run_script];
      change (negb ("Delete" =? "Delete")%string) with false; cbv iota;
      cbn [run_script]; unfold conclude;
      destruct (success (snd (execute_end parse false o)));
      rewrite !run_script_Finish; auto.
Qed.

Lemma delete_waits_for_confirmation_witness :
  run_script JSONFragment.parse [Answer None]
    (deleteVolumeCommand (loadConfig settings_default) (Some "pg-data"))
  = ([], Some (Nothing, false)) /\
  run_script JSONFragment.parse [Answer (Some "Cancel")]
    (deleteContainerCommand (loadConfig settings_default) (Some "web") None)
  = ([], Some (Nothing, false)).
Proof.
  split.
  - apply (proj1 (delete_waits_for_confirmation JSONFragment.parse
                    (loadConfig settings_default) "pg-data" None "bridge"
                    ltac:(discriminate)) eq_refl None [] ltac:(discriminate)).
  - apply (proj1 (delete_waits_for_confirmation JSONFragment.parse
                    (loadConfig settings_default) "web" None "bridge"
                    ltac:(discriminate)) eq_refl (Some "Cancel") []
             ltac:(discriminate)).
Defined.

(* ===================================================================== *)
(** ** Further properties: the providers *)
(* ===================================================================== *)

Lemma parseRawContainer_name_id (raw : value) (c : Container) :
  parseRawContainer raw = Ok c -> name c = id c.
Proof.
  unfold parseRawContainer. intros H.
  repeat (apply bind_Ok in H as (? & _ & H)).
  injection H as <-. reflexivity.
Qed.

Lemma strict_eq_str_true (v : value) (s : string) :
  strict_eq_str v s = true <-> v = VStr s.
Proof.
  destruct v; simpl; split; intros H; try discriminate.
  - apply String.eqb_eq in H. subst. reflexivity.
  - injection H as ->. apply String.eqb_refl.
Qed.

(** X12. Looking a container up in a snapshot that a list operation
    returned finds, if anything, an entry of the snapshot whose id is the
    key (the name of a listed container is its id, so the lookup by name
    adds nothing); and it finds nothing only when no entry has the key
    for id. *)
Theorem getContainer_finds_by_id (r : CliResult) (p : Provider Containers)
  (key : string) :
  listContainers_end r = Ok (_items p) ->
  (forall c, getContainer p key = Some c ->
     In c (_items p) /\ id c = VStr key) /\
  (getContainer p key = None ->
   forall c, In c (_items p) -> id c <> VStr key).
Proof.
  intros Hlist. unfold getContainer. split.
  - intros c Hfind. apply find_some in Hfind as [Hin Hkey].
    split; [exact Hin|].
    assert (Hname : name c = id c).
    { unfold listContainers_end in Hlist.
      destruct (has_data r).
      - destruct (mapM_In parseRawContainer _ _ c Hlist Hin) as (raw & _ & Hraw).
        exact (parseRawContainer_name_id raw c Hraw).
      - injection Hlist as Hl. rewrite <- Hl in Hin. destruct Hin. }
    rewrite Hname, orb_diag in Hkey. apply strict_eq_str_true. exact Hkey.
  - intros Hnone c Hin Hid.
    pose proof (find_none _ _ Hnone c Hin) as Hf. cbv beta in Hf.
    apply orb_false_elim in Hf as [Hf _].
    apply (proj2 (strict_eq_str_true (id c) key)) in Hid. congruence.
Qed.

Lemma getContainer_finds_by_id_witness :
  let config := loadConfig settings_default in
  let p := fst (refresh_end JSONFragment.parse Sample.engine 0
                  (Resolved stdout_one_container "")
                  (tick config (new_Provider Containers config))) in
  getContainer p "web" = Some container_web /\
  id container_web = VStr "web" /\
  getContainer p "db" = None.
Proof.
  cbv zeta. split; [reflexivity|]. split; [|reflexivity].
  apply (proj1 (getContainer_finds_by_id
                  (snd (execute_end JSONFragment.parse true
                          (Resolved stdout_one_container "")))
                  (fst (refresh_end JSONFragment.parse Sample.engine 0
                          (Resolved stdout_one_container "")
                          (tick (loadConfig settings_default)
                             (new_Provider Containers
                                (loadConfig settings_default)))))
                  "web" eq_refl) container_web eq_refl).
Defined.

Lemma tick_no_timer {k} (config : ExtensionConfig) (p : Provider k) :
  _refreshTimer p = None -> tick config p = p.
Proof.
  intros H. unfold tick. rewrite H. reflexivity.
Qed.

Lemma ticks_no_timer {k} (config : ExtensionConfig) (p : Provider k) (n : nat) :
  _refreshTimer p = None -> ticks n config p = p.
Proof.
  intros H. induction n as [|n IH]; [reflexivity|].
  change (ticks (S n) config p) with (tick config (ticks n config p)).
  rewrite IH. apply tick_no_timer. exact H.
Qed.

Lemma dispose_timer {k} (p : Provider k) : _refreshTimer (dispose p) = None.
Proof.
  unfold dispose, stopAutoRefresh.
  destruct (_refreshTimer p) eqn:E; simpl; [reflexivity|exact E].
Qed.

Lemma set_provider_same (e : Extension) (k : ResourceKind) :
  set_provider e k (provider e k) = e.
Proof.
  destruct e, k; reflexivity.
Qed.

(** X13. Disposing of a provider clears its timer for good: once the
    extension is disposed of, ticks of the timers launch nothing and
    change nothing, in any number and with any configuration. Disposing
    twice is disposing once, and stopping a timer that was never started
    leaves the provider as it is. *)
Theorem dispose_stops_the_timer (parse : string -> option value)
  (js : Engine)
  (e : Extension) (trace : list Event) (k : ResourceKind) (p : Provider k) :
  only_ticks trace = true ->
  run parse js (step parse js e Disposed) trace = step parse js e Disposed /\
  _refreshTimer (dispose p) = None /\
  (forall n config, ticks n config (dispose p) = dispose p) /\
  dispose (dispose p) = dispose p /\
  (_refreshTimer p = None -> stopAutoRefresh p = p).
Proof.
  intros Htrace. split; [|split; [|split; [|split]]].
  - set (d := step parse js e Disposed).
    assert (Hd : forall k', _refreshTimer (provider d k') = None).
    { intros k'. unfold d. destruct k'; simpl; apply dispose_timer. }
    clearbody d. induction trace as [|ev trace IH]; [reflexivity|].
    cbn [only_ticks forallb] in Htrace. apply andb_prop in Htrace as [Hev Htr].
    destruct ev as [k0| | | | |]; try discriminate.
    unfold run in *. cbn [fold_left step].
    rewrite (tick_no_timer _ _ (Hd k0)), set_provider_same.
    apply IH. exact Htr.
  - apply dispose_timer.
  - intros n config. apply ticks_no_timer, dispose_timer.
  - destruct p as [items [t|] loaded calls count off]; reflexivity.
  - intros H. unfold stopAutoRefresh. rewrite H. reflexivity.
Qed.

Lemma dispose_stops_the_timer_witness :
  let e := step JSONFragment.parse Sample.engine
             (activate settings_default) Disposed in
  run JSONFragment.parse Sample.engine e
    [TimerFired Containers; TimerFired Images; TimerFired Containers] = e.
Proof.
  cbv zeta.
  apply (proj1 (dispose_stops_the_timer JSONFragment.parse
                  Sample.engine (activate settings_default)
                  [TimerFired Containers; TimerFired Images; TimerFired Containers]
                  Containers (containersProvider (activate settings_default))
                  eq_refl)).
Defined.

(** X14. A refresh interval of zero, or a negative one, disables polling:
    a provider built under it starts no timer, so that no tick ever
    launches a list operation for it, even if the interval is raised in
    the settings afterwards. *)
Theorem interval_zero_disables_polling (k : ResourceKind)
  (config : ExtensionConfig) :
  refreshInterval config <= 0 ->
  _refreshTimer (new_Provider k config) = None /\
  forall n later, ticks n later (new_Provider k config) = new_Provider k config.
Proof.
  intros H.
  assert (Ht : _refreshTimer (new_Provider k config) = None).
  { unfold new_Provider, startAutoRefresh.
    destruct (0 <? refreshInterval config) eqn:E; [|reflexivity].
    apply Z.ltb_lt in E. lia. }
  split; [exact Ht|]. intros n later. apply ticks_no_timer. exact Ht.
Qed.

Lemma interval_zero_disables_polling_witness :
  inflight_argv
    (ticks 5 (loadConfig (settings_interval 1000))
       (new_Provider Volumes (loadConfig (settings_interval 0)))) = [].
Proof.
  rewrite (proj2 (interval_zero_disables_polling Volumes
                    (loadConfig (settings_interval 0)) ltac:(simpl; lia))
             5%nat (loadConfig (settings_interval 1000))).
  reflexivity.
Defined.





(** X16. The path of the binary and the choice to show stopped
    containers are read when a refresh starts, not when the provider is
    built: after a change of the settings, the next tick of the
    containers launches the newly configured binary, with --all exactly
    when stopped containers are now to be shown. *)
Theorem settings_apply_at_next_refresh (parse : string -> option value)
  (js : Engine)
  (e : Extension) (s' : Settings) (period : Z) :
  _refreshTimer (containersProvider e) = Some period ->
  inflight
    (containersProvider
       (step parse js (onDidChangeConfiguration true s' e)
          (TimerFired Containers)))
  = (inflight (containersProvider e)
       ++ [{| launched :=
                {| file := containerPath (loadConfig s');
                   argv := if showStoppedContainers (loadConfig s')
                           then ["list"; "--format"; "json"; "--all"]
                           else ["list"; "--format"; "json"];
                   maxBuffer := 10485760;
                   timeout := 60000 |};
              reader := false |}])%list.
Proof.
  intros Ht. cbn [step onDidChangeConfiguration set_provider provider
                  containersProvider _config].
  unfold tick. rewrite Ht.
  destruct (refresh_begin_fields (loadConfig s') false (containersProvider e))
    as (_ & _ & _ & _ & _ & Hl).
  rewrite Hl. cbn [list_args execute_begin snd].
  unfold listContainers_args, push.
  destruct (showStoppedContainers (loadConfig s')); reflexivity.
Qed.

Lemma settings_apply_at_next_refresh_witness :
  inflight_argv
    (containersProvider
       (step JSONFragment.parse Sample.engine
          (onDidChangeConfiguration true
             {| s_containerPath := Some "/opt/bin/container";
                s_refreshInterval := None;
                s_showStoppedContainers := Some false;
                s_defaultShell := None; s_confirmBeforeDelete := None |}
             (activate settings_default))
          (TimerFired Containers)))
  = [["list"; "--format"; "json"]].
Proof.
  unfold inflight_argv.
  rewrite (settings_apply_at_next_refresh JSONFragment.parse
             Sample.engine (activate settings_default)
             {| s_containerPath := Some "/opt/bin/container";
                s_refreshInterval := None;
                s_showStoppedContainers := Some false;
                s_defaultShell := None; s_confirmBeforeDelete := None |}
             5000 eq_refl).
  reflexivity.
Defined.

Lemma mapM_thrown {A B} (f : A -> result B) (l : list A) (e : exn) :
  mapM f l = Throw e -> exists x, In x l /\ f x = Throw e.
Proof.
  induction l as [|y l IH]; simpl; [discriminate|].
  destruct (f y) as [b|e'] eqn:Ey; simpl.
  - destruct (mapM f l) as [bs|e'']; simpl; [discriminate|].
    intros H. injection H as <-.
    destruct (IH eq_refl) as (x & Hx & Hfx). eauto.
  - intros H. injection H as <-. eauto.
Qed.













(* ===================================================================== *)
(** ** Further properties: sizes, references and inspection *)
(* ===================================================================== *)

(** X18. The unit of a size is read at the index the engine computes from
    the logarithms. For a size of at least one byte and below 1024 ^ 5
    bytes: where that index is the exact one, the formatter prints a
    numeral with one decimal and one of the five units, the largest that
    does not exceed the size; the numeral lies between 1.0 and 1024.0, and
    numeral times unit is off the size by at most half a tenth of the unit.
    Where the rounding of the quotient lifts the index by one, as double
    arithmetic does just below 1024 ^ 5, the numeral is at most 1.0 and the
    unit is the next one: a size within a twentieth below 1024 ^ 5 prints
    as 1.0 undefined. *)
Theorem formatSize_within_units (js : Engine) (b i : Z) :
  0 < b < 1024 ^ 5 ->
  1024 ^ i <= b < 1024 ^ (i + 1) ->
  (Math_floor_log1024 js b = i ->
   exists u n,
     nth_error units (Z.to_nat i) = Some u /\
     formatSize js b
     = (num_toString (n / 10) ++ "." ++ num_toString (n mod 10) ++ " " ++ u)%string /\
     10 <= n <= 10240 /\
     2 * Z.abs (10 * b - n * 1024 ^ i) <= 1024 ^ i) /\
  (Math_floor_log1024 js b = i + 1 ->
   exists n,
     formatSize js b
     = (num_toString (n / 10) ++ "." ++ num_toString (n mod 10) ++ " "
          ++ match nth_error units (Z.to_nat (i + 1)) with
             | Some u => u
             | None => "undefined"
             end)%string /\
     0 <= n <= 10 /\
     2 * Z.abs (10 * b - n * 1024 ^ (i + 1)) <= 1024 ^ (i + 1)) /\
  (Math_floor_log1024 js b = 5 -> 19 * 1024 ^ 5 <= 20 * b ->
   formatSize js b = "1.0 undefined").
Proof.
  intros Hb Hrange.
  assert (Hi : 0 <= i).
  { destruct (Z.lt_ge_cases i 0) as [Hneg|Hge]; [|exact Hge].
    rewrite (Z.pow_neg_r 1024 i Hneg) in Hrange.
    destruct (Z.eq_dec (i + 1) 0) as [E0|E0].
    - rewrite E0 in Hrange. simpl in Hrange. lia.
    - rewrite (Z.pow_neg_r 1024 (i + 1)) in Hrange by lia. lia. }
  assert (Hd : 0 < 1024 ^ i) by (apply Z.pow_pos_nonneg; lia).
  assert (Hnext : 1024 ^ (i + 1) = 1024 * 1024 ^ i).
  { rewrite Z.pow_add_r by lia. lia. }
  split; [|split].
  - intros Hidx.
    destruct (formatSize_in_range js b i Hb Hidx Hrange)
      as (_ & u & Hu & Hfmt & Hround).
    exists u, ((20 * b + 1024 ^ i) / (2 * 1024 ^ i)).
    split; [exact Hu|]. split; [exact Hfmt|]. split; [|exact Hround].
    set (d := 1024 ^ i) in *. split.
    + apply Z.div_le_lower_bound; lia.
    + apply Z.lt_succ_r. apply Z.div_lt_upper_bound; lia.
  - intros Hidx.
    exists ((20 * b + 1024 ^ (i + 1)) / (2 * 1024 ^ (i + 1))).
    split; [|split].
    + rewrite (formatSize_at_index js b (i + 1)) by lia.
      unfold toFixed1. rewrite <- !append_assoc. reflexivity.
    + rewrite Hnext. set (d := 1024 ^ i) in *. split.
      * apply Z.div_pos; lia.
      * apply Z.lt_succ_r. apply Z.div_lt_upper_bound; lia.
    + apply round_half_up. lia.
  - intros Hidx Hnear.
    rewrite (formatSize_at_index js b 5) by lia.
    unfold toFixed1.
    assert (E : (20 * b + 1024 ^ 5) / (2 * 1024 ^ 5) = 10).
    { symmetry. apply (Z.div_unique _ _ 10 (20 * b - 19 * 1024 ^ 5)); lia. }
    rewrite E. reflexivity.
Qed.

(** A mebibyte and a half, where the exact index is 2; and the size one
    below 1024 ^ 5, which an engine that rounds the quotient to 5 prints
    with no unit. *)
Lemma formatSize_within_units_witness :
  (exists u n,
     nth_error units (Z.to_nat 2) = Some u /\
     formatSize Sample.engine 1572864
     = (num_toString (n / 10) ++ "." ++ num_toString (n mod 10) ++ " " ++ u)%string /\
     10 <= n <= 10240 /\
     2 * Z.abs (10 * 1572864 - n * 1024 ^ 2) <= 1024 ^ 2) /\
  formatSize Sample.engine 1572864 = "1.5 MiB" /\
  formatSize Sample.doubles (2 ^ 50 - 1) = "1.0 undefined".
Proof.
  split; [|split].
  - apply (proj1 (formatSize_within_units Sample.engine 1572864 2
                    ltac:(split; reflexivity)
                    ltac:(split; vm_compute; [discriminate|reflexivity]))).
    reflexivity.
  - reflexivity.
  - apply (proj2 (proj2 (formatSize_within_units Sample.doubles (2 ^ 50 - 1) 4
                           ltac:(split; reflexivity)
                           ltac:(split; vm_compute; [discriminate|reflexivity])))).
    + reflexivity.
    + vm_compute. discriminate.
Defined.

Lemma prefix_split (p x : string) :
  String.prefix p x = true -> exists rest, x = (p ++ rest)%string.
Proof.
  revert x. induction p as [|c p IH]; intros x H.
  - exists x. reflexivity.
  - destruct x as [|d x]; simpl in H; [discriminate|].
    destruct (ascii_dec c d) as [->|]; [|discriminate].
    destruct (IH x H) as [rest ->]. exists rest. reflexivity.
Qed.

Lemma simplifyRepository_prefix (x : string) :
  exists p, registry_prefix p /\ x = (p ++ simplifyRepository x)%string.
Proof.
  unfold simplifyRepository, startsWith, registry_prefix.
  destruct (String.prefix "docker.io/library/" x) eqn:E1.
  - destruct (prefix_split _ _ E1) as [rest ->].
    exists "docker.io/library/". split; [auto|].
    rewrite (substring_after "docker.io/library/" rest). reflexivity.
  - destruct (String.prefix "docker.io/" x) eqn:E2.
    + destruct (prefix_split _ _ E2) as [rest ->].
      exists "docker.io/". split; [auto|].
      rewrite (substring_after "docker.io/" rest). reflexivity.
    + exists "". split; [auto|reflexivity].
Qed.

Lemma splitReference_cases (r : string) :
  (exists a b, r = a ++ ":" ++ b /\ splitReference r = (a, b) /\
               occurs colon b = false /\ occurs slash b = false) \/
  splitReference r = (r, "latest").
Proof.
  destruct (reference_cases r) as [Hc|[(a & b & -> & Hc & Hs)|(a & b & -> & Hc)]].
  - right. apply splitReference_no_colon. exact Hc.
  - left. exists a, b. split; [reflexivity|].
    split; [apply splitReference_tagged; assumption|auto].
  - right. apply splitReference_slash_last. exact Hc.
Qed.

(** X19. Nothing of a reference is lost when it is decomposed: the
    reference is one of the prefixes docker.io/library/, docker.io/ or
    none, then the repository, then either a colon and the tag, or nothing
    when the tag is the default latest. And the tag of a parsed image
    never contains a colon or a slash. *)
Theorem reference_reassembles (js : Engine) (r repo t : string) :
  decomposition js r = Some (repo, t) ->
  occurs colon t = false /\ occurs slash t = false /\
  exists p,
    registry_prefix p /\
    (r = p ++ repo ++ ":" ++ t \/ (r = p ++ repo /\ t = "latest")).
Proof.
  rewrite decomposition_eq. intros H. injection H as Hrepo Ht.
  destruct (splitReference_cases r) as [(a & b & Hr & Hsplit & Hc & Hs)|Hsplit];
    rewrite Hsplit in Hrepo, Ht; cbn [fst snd] in Hrepo, Ht; subst repo t.
  - split; [exact Hc|]. split; [exact Hs|].
    destruct (simplifyRepository_prefix a) as (p & Hp & Ha).
    exists p. split; [exact Hp|]. left.
    rewrite Hr at 1. rewrite Ha at 1. rewrite <- append_assoc. reflexivity.
  - split; [reflexivity|]. split; [reflexivity|].
    destruct (simplifyRepository_prefix r) as (p & Hp & Hr).
    exists p. split; [exact Hp|]. right. split; [exact Hr|reflexivity].
Qed.

Lemma reference_reassembles_witness :
  decomposition Sample.engine "docker.io/library/nginx:1.25" = Some ("nginx", "1.25") /\
  occurs colon "1.25" = false /\
  exists p,
    registry_prefix p /\
    ("docker.io/library/nginx:1.25" = p ++ "nginx" ++ ":" ++ "1.25" \/
     ("docker.io/library/nginx:1.25" = p ++ "nginx" /\ "1.25" = "latest")).
Proof.
  split; [reflexivity|].
  destruct (reference_reassembles Sample.engine "docker.io/library/nginx:1.25" "nginx" "1.25"
              eq_refl) as (Hc & _ & Hp).
  split; [exact Hc|exact Hp].
Defined.

Lemma parseRawImage_decomposition (js : Engine) (raw : value) (img : Image) :
  parseRawImage js raw = Ok img ->
  exists r, decomposition js r = Some (repository img, tag img).
Proof.
  unfold parseRawImage. intros H.
  apply bind_Ok in H as (rr & _ & H). apply bind_Ok in H as (rd & _ & H).
  destruct (or_else rr (VStr "")) as [| | | |r| |]; try discriminate.
  exists r. rewrite decomposition_eq.
  destruct (splitReference r) as [repo t].
  apply bind_Ok in H as (dg & _ & H). apply bind_Ok in H as (sz & _ & H).
  destruct (or_else sz (VNum 0)); try discriminate.
  injection H as <-. reflexivity.
Qed.

Lemma decomposition_tag_clean (js : Engine) (r repo t : string) :
  decomposition js r = Some (repo, t) ->
  occurs colon t = false /\ occurs slash t = false.
Proof.
  rewrite decomposition_eq. intros H. injection H as _ Ht.
  destruct (splitReference_cases r) as [(a & b & _ & Hsplit & Hc & Hs)|Hsplit];
    rewrite Hsplit in Ht; cbn [snd] in Ht; subst t; auto.
Qed.

(** X20. The full name of an image item, which is also its label and what
    the run handler passes to the CLI, is the repository, a colon and the
    tag (latest for an empty tag), unless the repository is the
    placeholder for none. Decomposed again, this name gives the same tag,
    and the same repository less a registry prefix if it still has one. *)
Theorem fullName_decomposes_back (js : Engine) (raw : value) (img : Image) :
  parseRawImage js raw = Ok img ->
  repository img <> "<none>" ->
  ImageItem_fullName img
  = VStr (repository img ++ ":" ++ tag_or_latest img) /\
  ImageItem_displayName img
  = Ok (repository img ++ ":" ++ tag_or_latest img) /\
  decomposition js (repository img ++ ":" ++ tag_or_latest img)
  = Some (simplifyRepository (repository img), tag_or_latest img).
Proof.
  intros Hparse Hnone. apply String.eqb_neq in Hnone.
  unfold ImageItem_fullName, ImageItem_displayName. rewrite Hnone. cbn [negb].
  split; [reflexivity|]. split; [reflexivity|].
  destruct (parseRawImage_decomposition js raw img Hparse) as [r Hr].
  destruct (decomposition_tag_clean js _ _ _ Hr) as [Hc Hs].
  assert (Hclean : occurs colon (tag_or_latest img) = false /\
                   occurs slash (tag_or_latest img) = false).
  { unfold tag_or_latest. destruct (tag img =? "")%string; auto. }
  destruct Hclean as [Hc' Hs'].
  rewrite decomposition_eq, (splitReference_tagged _ _ Hc' Hs'). reflexivity.
Qed.

Lemma fullName_decomposes_back_witness :
  exists img,
    parseRawImage Sample.engine (image_record "ghcr.io/acme/api") = Ok img /\
    ImageItem_fullName img = VStr "ghcr.io/acme/api:latest" /\
    decomposition Sample.engine "ghcr.io/acme/api:latest" = Some ("ghcr.io/acme/api", "latest").
Proof.
  eexists. split; [reflexivity|].
  match goal with
  | |- ImageItem_fullName ?i = _ /\ _ =>
      destruct (fullName_decomposes_back Sample.engine (image_record "ghcr.io/acme/api") i
                  eq_refl ltac:(discriminate)) as (Hfull & _ & Hdec)
  end.
  split; [exact Hfull|exact Hdec].
Defined.

(** X21. An inspect operation returns the first element of the array the
    CLI printed. It returns [undefined], which the handlers report as a
    failure to inspect, when the CLI failed, when the output does not
    decode, and when the array is empty. An output of white space only is
    not decoded but kept as text, and the operation then returns its
    first character. *)
Theorem inspect_returns_first_element (parse : string -> option value)
  (stdout stderr : string) :
  (forall first rest,
     trim stdout <> "" -> parse stdout = Some (VArr (first :: rest)) ->
     inspect_end (snd (execute_end parse true (Resolved stdout stderr)))
     = Ok first) /\
  (trim stdout <> "" -> parse stdout = Some (VArr []) \/ parse stdout = None ->
   inspect_end (snd (execute_end parse true (Resolved stdout stderr)))
   = Ok VUndefined) /\
  (forall message code err,
     inspect_end (snd (execute_end parse true (Rejected message code err)))
     = Ok VUndefined) /\
  (forall c s,
     stdout = String c s -> trim stdout = "" ->
     inspect_end (snd (execute_end parse true (Resolved stdout stderr)))
     = Ok (VStr (String c EmptyString))).
Proof.
  split; [|split; [|split]].
  - intros first rest Hblank Hparse. apply String.eqb_neq in Hblank.
    unfold execute_end. rewrite Hblank, Hparse. reflexivity.
  - intros Hblank Hparse. apply String.eqb_neq in Hblank.
    unfold execute_end. rewrite Hblank.
    destruct Hparse as [-> | ->]; reflexivity.
  - reflexivity.
  - intros c s -> Hblank. unfold execute_end. rewrite Hblank.
    cbn [andb negb String.eqb]. unfold inspect_end, has_data.
    cbn [success data truthy snd]. cbn [String.eqb negb andb].
    assert (Hlen : (0 <? len (String c s)) = true).
    { apply Z.ltb_lt. rewrite len_String. pose proof (len_nonneg s). lia. }
    rewrite Hlen. reflexivity.
Qed.

Lemma inspect_returns_first_element_witness :
  inspect_end
    (snd (execute_end JSONFragment.parse true
            (Resolved "[{}, 2]" ""))) = Ok (VObj []) /\
  inspect_end
    (snd (execute_end JSONFragment.parse true (Resolved "[]" ""))) = Ok VUndefined.
Proof.
  split.
  - apply (proj1 (inspect_returns_first_element JSONFragment.parse "[{}, 2]" "")
             (VObj []) [VNum 2]).
    + simpl. discriminate.
    + reflexivity.
  - apply (proj1 (proj2 (inspect_returns_first_element JSONFragment.parse
                           "[]" ""))).
    + simpl. discriminate.
    + left. reflexivity.
Defined.

(* ===================================================================== *)
(** ** Further properties: the remaining handlers and lookups *)
(* ===================================================================== *)

(** X22. The handler that creates a network asks for a gateway only when
    a subnet was typed. With no subnet the vector is network create, then
    --internal if that was picked, then the trimmed name; with a subnet it
    carries the trimmed subnet and the trimmed gateway, each only if it is
    not blank. Dismissing the pick of the network type runs nothing. *)
Theorem createNetwork_vector (parse : string -> option value)
  (n : string) (internal_ : bool) (o : ExecOutcome) (rest : list Input) :
  n <> "" ->
  (forall subnet,
     given_str subnet = false ->
     fst (run_script parse
            (Answer (Some n) :: Answer subnet :: Picked (Some internal_)
               :: Settles o :: rest)
            createNetworkCommand)
     = [(["network"; "create"] ++ tokens_flag "--internal" (Some internal_)
                               ++ [trim n])%list]) /\
  (forall subnet gateway,
     subnet <> "" ->
     fst (run_script parse
            (Answer (Some n) :: Answer (Some subnet) :: Answer gateway
               :: Picked (Some internal_) :: Settles o :: rest)
            createNetworkCommand)
     = [(["network"; "create"]
           ++ tokens_str "--subnet" (trimmed_or_undefined (Some subnet))
           ++ tokens_str "--gateway" (trimmed_or_undefined gateway)
           ++ tokens_flag "--internal" (Some internal_)
           ++ [trim n])%list]) /\
  (forall subnet,
     given_str subnet = false ->
     run_script parse (Answer (Some n) :: Answer subnet :: Picked None :: rest)
       createNetworkCommand
     = ([], Some (Nothing, false))).
Proof.
  intros Hn. apply String.eqb_neq in Hn.
  assert (Hvec : forall subnet gateway,
             createNetwork_args
               {| CreateNetworkOptions.name := trim n;
                  CreateNetworkOptions.driver := None;
                  CreateNetworkOptions.subnet := subnet;
                  CreateNetworkOptions.gateway := gateway;
                  CreateNetworkOptions.internal := Some internal_;
                  CreateNetworkOptions.labels := None |}
             = (["network"; "create"] ++ tokens_str "--subnet" subnet
                  ++ tokens_str "--gateway" gateway
                  ++ tokens_flag "--internal" (Some internal_)
                  ++ [trim n])%list).
  { intros subnet gateway. unfold createNetwork_args.
    cbn [CreateNetworkOptions.name CreateNetworkOptions.driver
         CreateNetworkOptions.subnet CreateNetworkOptions.gateway
         CreateNetworkOptions.internal CreateNetworkOptions.labels].
    rewrite !push_str_tokens, !push_flag_tokens, !push_each_tokens.
    unfold push. cbn [tokens_each tokens_str]. rewrite !app_nil_r.
    rewrite <- !app_assoc. reflexivity. }
  assert (Hsub : forall subnet,
             given_str subnet = false -> trimmed_or_undefined subnet = None).
  { intros [s|] H; [|reflexivity]. unfold given_str in H.
    apply negb_false_iff, String.eqb_eq in H. subst s. reflexivity. }
  assert (Hgn : given_str (Some n) = true).
  { unfold given_str. rewrite Hn. reflexivity. }
  split; [|split].
  - intros subnet Hs. unfold createNetworkCommand.
    cbn [run_script]. rewrite Hgn. cbn [run_script]. rewrite Hs.
    cbn [run_script]. rewrite Hvec, (Hsub subnet Hs).
    cbn [trimmed_or_undefined tokens_str]. unfold conclude.
    destruct (success (snd (execute_end parse false o)));
      rewrite run_script_Finish; reflexivity.
  - intros subnet gateway Hs. apply String.eqb_neq in Hs.
    assert (Hgs : given_str (Some subnet) = true).
    { unfold given_str. rewrite Hs. reflexivity. }
    unfold createNetworkCommand.
    cbn [run_script]. rewrite Hgn. cbn [run_script]. rewrite Hgs.
    cbn [run_script]. rewrite Hvec. unfold conclude.
    destruct (success (snd (execute_end parse false o)));
      rewrite run_script_Finish; reflexivity.
  - intros subnet Hs. unfold createNetworkCommand.
    cbn [run_script]. rewrite Hgn. cbn [run_script]. rewrite Hs.
    cbn [run_script]. apply run_script_Finish.
Qed.

Lemma createNetwork_vector_witness :
  fst (run_script JSONFragment.parse
         [Answer (Some "backend"); Answer (Some "   ");
          Answer (Some "172.20.0.1"); Picked (Some true);
          Settles (Resolved "backend" "")]
         createNetworkCommand)
  = [["network"; "create"; "--gateway"; "172.20.0.1"; "--internal"; "backend"]].
Proof.
  rewrite (proj1 (proj2 (createNetwork_vector JSONFragment.parse "backend" true
                           (Resolved "backend" "") [] ltac:(discriminate)))
             "   " (Some "172.20.0.1") ltac:(discriminate)).
  reflexivity.
Defined.

(** X23. The run handler takes one of two ways. With Detached picked it
    runs the container through the wrapper: the vector has --detach and
    the long flags, and it ends with the image trimmed. Otherwise it opens
    a terminal on a vector of its own, with -it for Interactive, that ends
    with the image exactly as it was typed, white space included. Both
    carry the trimmed name when there is one. *)
Theorem run_handler_vectors (config : ExtensionConfig) (image : string)
  (name : option string) (picks : list string) :
  (existsb (String.eqb "detach") picks = true ->
   runContainerCommand config image name (Some picks)
   = inl (["run"] ++ tokens_str "--name" (trimmed_or_undefined name)
                  ++ ["--detach"]
                  ++ tokens_flag "--rm" (Some (existsb (String.eqb "remove") picks))
                  ++ tokens_flag "--interactive"
                       (Some (existsb (String.eqb "interactive") picks))
                  ++ tokens_flag "--tty"
                       (Some (existsb (String.eqb "interactive") picks))
                  ++ tokens_flag "--rosetta"
                       (Some (existsb (String.eqb "rosetta") picks))
                  ++ tokens_flag "--ssh" (Some (existsb (String.eqb "ssh") picks))
                  ++ [trim image])%list) /\
  (existsb (String.eqb "detach") picks = false ->
   exists term,
     runContainerCommand config image name (Some picks) = inr term /\
     Terminal.shellPath term = containerPath config /\
     Terminal.shellArgs term
     = (["run"]
          ++ tokens_flag "-it" (Some (existsb (String.eqb "interactive") picks))
          ++ tokens_flag "--rm" (Some (existsb (String.eqb "remove") picks))
          ++ tokens_str "--name" (trimmed_or_undefined name)
          ++ tokens_flag "--ssh" (Some (existsb (String.eqb "ssh") picks))
          ++ tokens_flag "--rosetta" (Some (existsb (String.eqb "rosetta") picks))
          ++ [image])%list).
Proof.
  unfold runContainerCommand. cbv zeta.
  cbn [runOptions RunContainerOptions.detach some_value given_flag].
  split; intros Hd; rewrite Hd.
  - f_equal. rewrite runContainer_args_segments. unfold run_segments.
    cbn [runOptions RunContainerOptions.name RunContainerOptions.detach
         RunContainerOptions.remove RunContainerOptions.interactive
         RunContainerOptions.tty RunContainerOptions.env
         RunContainerOptions.envFile RunContainerOptions.ports
         RunContainerOptions.volumes RunContainerOptions.mounts
         RunContainerOptions.network RunContainerOptions.workdir
         RunContainerOptions.user RunContainerOptions.cpus
         RunContainerOptions.memory RunContainerOptions.platform
         RunContainerOptions.entrypoint RunContainerOptions.labels
         RunContainerOptions.dns RunContainerOptions.dnsSearch
         RunContainerOptions.rosetta RunContainerOptions.ssh
         RunContainerOptions.image RunContainerOptions.cmd some_value].
    rewrite Hd.
    cbn [List.concat tokens_str tokens_each tokens_num tokens_cmd].
    cbn [tokens_flag]. rewrite ?app_nil_r. cbn [app].
    rewrite <- ?app_assoc. reflexivity.
  - eexists. split; [reflexivity|]. split; [reflexivity|].
    cbn [Terminal.shellArgs RunContainerOptions.interactive
         RunContainerOptions.remove RunContainerOptions.name
         RunContainerOptions.ssh RunContainerOptions.rosetta some_value].
    rewrite !push_str_tokens, !push_flag_tokens. unfold push.
    rewrite <- !app_assoc. reflexivity.
Qed.

Lemma run_handler_vectors_witness :
  runContainerCommand (loadConfig settings_default) " nginx " (Some " web ")
    (Some ["detach"; "remove"])
  = inl ["run"; "--name"; "web"; "--detach"; "--rm"; "nginx"] /\
  exists term,
    runContainerCommand (loadConfig settings_default) " nginx " (Some " web ")
      (Some ["interactive"]) = inr term /\
    Terminal.shellArgs term = ["run"; "-it"; "--name"; "web"; " nginx "].
Proof.
  split.
  - rewrite (proj1 (run_handler_vectors (loadConfig settings_default) " nginx "
                      (Some " web ") ["detach"; "remove"]) eq_refl).
    reflexivity.
  - destruct (proj2 (run_handler_vectors (loadConfig settings_default) " nginx "
                       (Some " web ") ["interactive"]) eq_refl)
      as (term & Hterm & _ & Hargs).
    exists term. split; [exact Hterm|]. rewrite Hargs. reflexivity.
Defined.

Lemma findM_sound {A} (f : A -> result bool) (l : list A) :
  (forall x, findM f l = Ok (Some x) -> In x l /\ f x = Ok true) /\
  (findM f l = Ok None -> forall x, In x l -> f x = Ok false) /\
  (forall e, findM f l = Throw e -> exists x, In x l /\ f x = Throw e).
Proof.
  induction l as [|y l (IH1 & IH2 & IH3)]; cbn [findM].
  - split; [discriminate|]. split; [intros _ x []|discriminate].
  - destruct (f y) as [[|]|e0] eqn:Ey; cbn [bind].
    + split; [|split]; try discriminate.
      intros x H. injection H as <-. split; [left; reflexivity|exact Ey].
    + split; [|split].
      * intros x H. destruct (IH1 x H). split; [right|]; assumption.
      * intros H x [<-|Hx]; [exact Ey|exact (IH2 H x Hx)].
      * intros e H. destruct (IH3 e H) as (x & Hx & E).
        exists x. split; [right|]; assumption.
    + split; [|split]; try discriminate.
      intros e H. injection H as <-. exists y. split; [left; reflexivity|exact Ey].
Qed.

(** X24. Looking a volume up by name in the cached records returns, if
    anything, a cached record whose name is the key, and nothing only when
    no record has that name. The records are the decoded output as it
    came: the lookup throws, a [TypeError], only when it reaches a record
    that is [null] or [undefined]. *)
Theorem getVolume_finds_by_name (p : Provider Volumes) (key : string) :
  (forall v, getVolume p key = Ok (Some v) ->
     In v (_items p : list value) /\ path v ["name"] = VStr key) /\
  (getVolume p key = Ok None ->
   forall v, In v (_items p : list value) -> path v ["name"] <> VStr key) /\
  (forall e, getVolume p key = Throw e ->
     e = TypeError /\
     exists v, In v (_items p : list value) /\ (v = VNull \/ v = VUndefined)).
Proof.
  unfold getVolume.
  destruct (findM_sound
              (fun v => n <- get v "name" ;; Ok (strict_eq_str n key))
              (_items p : list value)) as (H1 & H2 & H3).
  split; [|split].
  - intros v Hv. destruct (H1 v Hv) as [Hin Hf]. split; [exact Hin|].
    apply bind_Ok in Hf as (n & Hn & Hf). injection Hf as Hf.
    cbn [path]. rewrite Hn. apply strict_eq_str_true. exact Hf.
  - intros Hnone v Hin Hname. pose proof (H2 Hnone v Hin) as Hf.
    apply bind_Ok in Hf as (n & Hn & Hf). injection Hf as Hf.
    cbn [path] in Hname. rewrite Hn in Hname.
    apply (proj2 (strict_eq_str_true n key)) in Hname. congruence.
  - intros e He. destruct (H3 e He) as (v & Hin & Hf).
    destruct (get v "name") as [n|e0] eqn:Hn; cbn [bind] in Hf; [discriminate|].
    injection Hf as <-. split; [exact (get_throws _ _ _ Hn)|].
    exists v. split; [exact Hin|].
    destruct v; simpl in Hn; try discriminate; auto.
Qed.

Lemma getVolume_finds_by_name_witness :
  let config := loadConfig settings_default in
  let p := fst (refresh_end JSONFragment.parse Sample.engine 0
                  (Resolved ("[{" ++ JSONFragment.quoted "name" ++ ":"
                                  ++ JSONFragment.quoted "pg-data" ++ "}, null]") "")
                  (tick config (new_Provider Volumes config))) in
  getVolume p "pg-data" = Ok (Some (VObj [("name", VStr "pg-data")])) /\
  path (VObj [("name", VStr "pg-data")]) ["name"] = VStr "pg-data" /\
  getVolume p "cache" = Throw TypeError.
Proof.
  cbv zeta. split; [reflexivity|]. split; [|reflexivity].
  apply (proj1 (getVolume_finds_by_name
                  (fst (refresh_end JSONFragment.parse Sample.engine 0
                          (Resolved ("[{" ++ JSONFragment.quoted "name" ++ ":"
                                          ++ JSONFragment.quoted "pg-data"
                                          ++ "}, null]") "")
                          (tick (loadConfig settings_default)
                             (new_Provider Volumes
                                (loadConfig settings_default)))))
                  "pg-data")
           (VObj [("name", VStr "pg-data")]) eq_refl).
Defined.

Lemma refresh_end_Ok (parse : string -> option value)
  (js : Engine)
  (k : ResourceKind) (p : Provider k) (n : nat) (call : Pending)
  (o : ExecOutcome) (l : list (Item k)) :
  nth_error (inflight p) n = Some call ->
  reader call = false ->
  list_end js k (snd (execute_end parse true o)) = Ok l ->
  _items (fst (refresh_end parse js n o p)) = l /\
  inflight (fst (refresh_end parse js n o p)) = remove_nth n (inflight p) /\
  fired (fst (refresh_end parse js n o p))
  = (if emitter_disposed p then fired p else S (fired p)) /\
  emitter_disposed (fst (refresh_end parse js n o p)) = emitter_disposed p.
Proof.
  intros Hcall Hreader Hlist. unfold refresh_end.
  rewrite Hcall, Hlist, Hreader. destruct k; simpl; auto.
Qed.

(** X25. With two refreshes of one kind in flight, the snapshot is that of
    the one that settles last, not of the one that was launched last: if
    the second call settles first, the older answer of the first call
    overwrites the newer one. Either way two notifications are fired. *)
Theorem last_settled_refresh_wins (parse : string -> option value)
  (js : Engine)
  (k : ResourceKind) (p : Provider k) (first second : Pending)
  (o1 o2 : ExecOutcome) (l1 l2 : list (Item k)) :
  inflight p = [first; second] ->
  reader first = false -> reader second = false ->
  emitter_disposed p = false ->
  list_end js k (snd (execute_end parse true o1)) = Ok l1 ->
  list_end js k (snd (execute_end parse true o2)) = Ok l2 ->
  _items (fst (refresh_end parse js 0 o2 (fst (refresh_end parse js 0 o1 p))))
  = l2 /\
  _items (fst (refresh_end parse js 0 o1 (fst (refresh_end parse js 1 o2 p))))
  = l1 /\
  fired (fst (refresh_end parse js 0 o2 (fst (refresh_end parse js 0 o1 p))))
  = S (S (fired p)) /\
  fired (fst (refresh_end parse js 0 o1 (fst (refresh_end parse js 1 o2 p))))
  = S (S (fired p)).
Proof.
  intros Hin Hr1 Hr2 Hd H1 H2.
  assert (Hc0 : nth_error (inflight p) 0 = Some first) by (rewrite Hin; reflexivity).
  assert (Hc1 : nth_error (inflight p) 1 = Some second) by (rewrite Hin; reflexivity).
  destruct (refresh_end_Ok parse js k p 0 first o1 l1 Hc0 Hr1 H1)
    as (_ & Ha_in & Ha_f & Ha_d).
  destruct (refresh_end_Ok parse js k p 1 second o2 l2 Hc1 Hr2 H2)
    as (_ & Hb_in & Hb_f & Hb_d).
  rewrite Hin in Ha_in, Hb_in. cbn in Ha_in, Hb_in. rewrite Hd in Ha_f, Hb_f.
  assert (Ha0 : nth_error
                  (inflight (fst (refresh_end parse js 0 o1 p))) 0 = Some second)
    by (rewrite Ha_in; reflexivity).
  assert (Hb0 : nth_error
                  (inflight (fst (refresh_end parse js 1 o2 p))) 0 = Some first)
    by (rewrite Hb_in; reflexivity).
  destruct (refresh_end_Ok parse js k _ 0 second o2 l2 Ha0 Hr2 H2)
    as (Ha_i & _ & Ha_f2 & _).
  destruct (refresh_end_Ok parse js k _ 0 first o1 l1 Hb0 Hr1 H1)
    as (Hb_i & _ & Hb_f2 & _).
  rewrite Ha_d, Hd, Ha_f in Ha_f2. rewrite Hb_d, Hd, Hb_f in Hb_f2.
  auto.
Qed.

Lemma last_settled_refresh_wins_witness :
  let config := loadConfig settings_default in
  let p := tick config (tick config (populated_empty Containers config)) in
  _items (fst (refresh_end JSONFragment.parse Sample.engine 0
                 (Resolved stdout_one_container "")
                 (fst (refresh_end JSONFragment.parse Sample.engine 1
                         (Resolved "[]" "") p))))
  = [container_web] /\
  _items (fst (refresh_end JSONFragment.parse Sample.engine 0
                 (Resolved "[]" "")
                 (fst (refresh_end JSONFragment.parse Sample.engine 0
                         (Resolved stdout_one_container "") p))))
  = [].
Proof.
  cbv zeta.
  destruct (last_settled_refresh_wins JSONFragment.parse Sample.engine
              Containers
              (tick (loadConfig settings_default)
                 (tick (loadConfig settings_default)
                    (populated_empty Containers (loadConfig settings_default))))
              {| launched := snd (execute_begin (loadConfig settings_default)
                                    (list_args Containers
                                       (loadConfig settings_default)));
                 reader := false |}
              {| launched := snd (execute_begin (loadConfig settings_default)
                                    (list_args Containers
                                       (loadConfig settings_default)));
                 reader := false |}
              (Resolved stdout_one_container "") (Resolved "[]" "")
              [container_web] [])
    as (H1 & H2 & _); try reflexivity.
  split; [exact H2|exact H1].
Defined.
